(** * mynews: index regeneration and URL reconciliation

    A shallow embedding of [watch-articles.js] (metadata extraction, index
    regeneration, debounced watcher) and of [validate-urls.js] (liveness
    probe, replacement search, in-place substitution, summary report),
    together with the properties stated about them; then of the scripts
    around them: [extract-articles.js] (file names, the page template, the
    extraction run), the article verification report and the expiry of the
    trending flag.

    Conventions.  A JavaScript string is a [string] (a sequence of bytes,
    UTF-8 for text outside ASCII); a JavaScript number that is an integer is
    a [Z], and [NaN] is the missing case of an [option Z]; [null] and
    [undefined] are [None].  What the scripts obtain from the runtime or from
    a third-party package (the file system, the clock, [fetch], [new URL],
    [new Date], cheerio's attribute selection) enters as an explicit
    argument, never as an assumption.  Console lines are kept in order and
    by stream, without their decorative glyphs, blank lines and rules. *)

From Stdlib Require Import List Bool Arith ZArith Lia.
From Stdlib Require Import Ascii String DecimalString.
From Stdlib Require Import Permutation Sorted.
Import ListNotations.

Open Scope string_scope.

(** ** Strings as the scripts use them *)

Module Str.

(** The double quote character, written by its code. *)
Definition dq : ascii := ascii_of_nat 34.
Definition dollar : ascii := ascii_of_nat 36.

Definition is_empty (s : string) : bool :=
  match s with EmptyString => true | _ => false end.

(** [s.startsWith(p)] *)
Fixpoint startsWith (p s : string) : bool :=
  match p, s with
  | EmptyString, _ => true
  | String a p', String b s' => Ascii.eqb a b && startsWith p' s'
  | String _ _, EmptyString => false
  end.

Fixpoint drop (n : nat) (s : string) : string :=
  match n, s with
  | O, _ => s
  | S n', String _ s' => drop n' s'
  | S _, EmptyString => EmptyString
  end.

(** [s.endsWith(p)] *)
Definition endsWith (p s : string) : bool :=
  (length p <=? length s)%nat
  && String.eqb (drop (length s - length p) s) p.

(** [s.includes(p)] *)
Fixpoint includes (p s : string) : bool :=
  startsWith p s
  || match s with
     | EmptyString => false
     | String _ s' => includes p s'
     end.

(** ASCII case folding, the only folding a pattern of ASCII characters
    can take part in under the [i] flag. *)
Definition lower (c : ascii) : ascii :=
  let n := nat_of_ascii c in
  if (65 <=? n)%nat && (n <=? 90)%nat then ascii_of_nat (n + 32) else c.

Definition eqb_ci (a b : ascii) : bool := Ascii.eqb (lower a) (lower b).

(** What is left of [s] once [p] has been read off its front, letter case
    ignored. *)
Fixpoint strip_prefix_ci (p s : string) : option string :=
  match p, s with
  | EmptyString, _ => Some s
  | String a p', String b s' =>
      if eqb_ci a b then strip_prefix_ci p' s' else None
  | String _ _, EmptyString => None
  end.

(** The text up to the first double quote; [None] when no quote closes it. *)
Fixpoint until_quote (s : string) : option string :=
  match s with
  | EmptyString => None
  | String c s' =>
      if Ascii.eqb c dq then Some EmptyString
      else option_map (String c) (until_quote s')
  end.

(** [String.prototype.replace] with a string pattern and a replacement
    free of [$]: the first occurrence only. *)
Fixpoint replace_first (old new s : string) : string :=
  if startsWith old s then new ++ drop (length old) s
  else match s with
       | EmptyString => EmptyString
       | String c s' => String c (replace_first old new s')
       end.

(** The last path segment, [path.basename] on a path without a trailing
    separator. *)
Fixpoint basename_from (acc s : string) : string :=
  match s with
  | EmptyString => acc
  | String c s' =>
      if Ascii.eqb c "/"%char then basename_from s' s' else basename_from acc s'
  end.

Definition basename (p : string) : string := basename_from p p.

Definition of_Z (z : Z) : string := NilZero.string_of_int (Z.to_int z).

End Str.

(** ** watch-articles.js *)

Module WatchArticles.

Definition ARTICLES_DIR : string := "./articles".
Definition ARTICLES_JSON_PATH : string := "./articles.json".

(** *** Metadata extraction *)

Record ArticleRecord := mkArticle {
  id : string;
  title : string;
  filename : string;
  category : string;
  author : string;
  publishDate : string;
  readTime : string;
  excerpt : string;
  thumbnailImage : string;
  bannerImage : string;
  sourceUrl : string;
  isTrending : bool;
  isVideo : bool;
  videoUrl : string;
  isJob : bool
}.

(** The source text of the pattern built in [getMeta], up to the capture
    group; every name the extractor passes is free of pattern operators,
    so the pattern reads as literal text. *)
Definition meta_open (name : string) : string :=
  "<meta name=" ++ String Str.dq name ++ String Str.dq " content="
    ++ String Str.dq "".

(** One attempt of the pattern at the front of [s]: the opening text, then
    the capture (any run of characters other than the double quote), then
    the closing quote. *)
Definition match_here (name s : string) : option string :=
  match Str.strip_prefix_ci (meta_open name) s with
  | Some rest => Str.until_quote rest
  | None => None
  end.

(** [content.match(regex)]: the leftmost position at which the pattern
    matches. *)
Fixpoint regex_match (name s : string) : option string :=
  match match_here name s with
  | Some v => Some v
  | None =>
      match s with
      | EmptyString => None
      | String _ s' => regex_match name s'
      end
  end.

Definition getMeta (content name : string) : string :=
  match regex_match name content with
  | Some v => v
  | None => ""
  end.

(** The record built once the file has been read. *)
Definition metadataOf (filePath content : string) : ArticleRecord :=
  {| id := getMeta content "article-id";
     title := getMeta content "og:title";
     filename := Str.basename filePath;
     category := getMeta content "article-category";
     author := getMeta content "article-author";
     publishDate := getMeta content "article-date";
     readTime := getMeta content "article-readtime";
     excerpt := getMeta content "description";
     thumbnailImage := getMeta content "og:image";
     bannerImage := getMeta content "og:image";
     sourceUrl := getMeta content "article-source";
     isTrending := String.eqb (getMeta content "article-trending") "true";
     isVideo := String.eqb (getMeta content "article-video") "true";
     videoUrl := getMeta content "article-video-url";
     isJob := false |}.

(** *** The runtime: console, file system, process *)

Inductive Console :=
| Log (line : string)
| Error (line : string).

(** How a call into the program ends: it returns to its caller, or it ends
    the process through [process.exit]. *)
Inductive Outcome :=
| Returns
| Exits (code : Z).

(** [fs.readFile]: the text, or the message of the error thrown. *)
Inductive Read :=
| ReadOk (content : string)
| ReadFails (message : string).

(** [fs.readdir] of the articles directory: the entries in listing order,
    each with what reading it gives, or the message of the error thrown. *)
Inductive Listing :=
| ListOk (entries : list (string * Read))
| ListFails (message : string).

Record FileSystem := mkFS {
  articles : Listing;
  (** [./articles.json], when it exists *)
  index : option string;
  (** the message of the error [fs.writeFile] throws on the index, if any *)
  index_write_error : option string
}.

(** [path.join(ARTICLES_DIR, file)], which normalises the leading [./]
    away. *)
Definition articlePath (file : string) : string := "articles/" ++ file.

Fixpoint lookup (name : string) (entries : list (string * Read)) : Read :=
  match entries with
  | [] => ReadFails ("ENOENT: no such file or directory, open 'articles/" ++ name ++ "'")
  | (n, r) :: rest => if String.eqb n name then r else lookup name rest
  end.

Definition readFile (fs : FileSystem) (filePath : string) : Read :=
  match articles fs with
  | ListOk entries =>
      if Str.startsWith "articles/" filePath
      then lookup (Str.drop 9 filePath) entries
      else ReadFails ("ENOENT: no such file or directory, open '" ++ filePath ++ "'")
  | ListFails m => ReadFails m
  end.

Definition extractMetadataFromHTML (fs : FileSystem) (filePath : string)
  : option ArticleRecord * list Console :=
  match readFile fs filePath with
  | ReadOk content => (Some (metadataOf filePath content), [])
  | ReadFails m =>
      (None, [Error ("Error extracting metadata from " ++ filePath ++ ": " ++ m)])
  end.

(** *** [JSON.stringify(value, null, 2)] on the index *)

Definition hex_digit (n : nat) : ascii :=
  if (n <? 10)%nat then ascii_of_nat (48 + n) else ascii_of_nat (87 + n).

Definition backslash : ascii := ascii_of_nat 92.

Definition quote_char (c : ascii) : string :=
  let n := nat_of_ascii c in
  if (n =? 34)%nat then String backslash (String Str.dq "")
  else if (n =? 92)%nat then String backslash (String backslash "")
  else if (n =? 8)%nat then String backslash "b"
  else if (n =? 12)%nat then String backslash "f"
  else if (n =? 10)%nat then String backslash "n"
  else if (n =? 13)%nat then String backslash "r"
  else if (n =? 9)%nat then String backslash "t"
  else if (n <? 32)%nat then
    String backslash
      ("u00" ++ String (hex_digit (n / 16)) (String (hex_digit (n mod 16)) ""))
  else String c "".

Fixpoint quote_body (s : string) : string :=
  match s with
  | EmptyString => EmptyString
  | String c s' => quote_char c ++ quote_body s'
  end.

Definition json_string (s : string) : string :=
  String Str.dq (quote_body s) ++ String Str.dq "".

Definition json_bool (b : bool) : string := if b then "true" else "false".

Definition newline : string := String (ascii_of_nat 10) "".

Definition member (key value : string) (last : bool) : string :=
  "      " ++ json_string key ++ ": " ++ value
    ++ (if last then "" else ",") ++ newline.

Definition json_record (r : ArticleRecord) : string :=
  "    {" ++ newline
    ++ member "id" (json_string (id r)) false
    ++ member "title" (json_string (title r)) false
    ++ member "filename" (json_string (filename r)) false
    ++ member "category" (json_string (category r)) false
    ++ member "author" (json_string (author r)) false
    ++ member "publishDate" (json_string (publishDate r)) false
    ++ member "readTime" (json_string (readTime r)) false
    ++ member "excerpt" (json_string (excerpt r)) false
    ++ member "thumbnailImage" (json_string (thumbnailImage r)) false
    ++ member "bannerImage" (json_string (bannerImage r)) false
    ++ member "sourceUrl" (json_string (sourceUrl r)) false
    ++ member "isTrending" (json_bool (isTrending r)) false
    ++ member "isVideo" (json_bool (isVideo r)) false
    ++ member "videoUrl" (json_string (videoUrl r)) false
    ++ member "isJob" (json_bool (isJob r)) true
    ++ "    }".

Fixpoint json_records (rs : list ArticleRecord) : string :=
  match rs with
  | [] => ""
  | [r] => json_record r ++ newline
  | r :: rest => json_record r ++ "," ++ newline ++ json_records rest
  end.

(** [JSON.stringify({ articles: rs }, null, 2)] *)
Definition JSON_stringify (rs : list ArticleRecord) : string :=
  match rs with
  | [] => "{" ++ newline ++ "  " ++ json_string "articles" ++ ": []" ++ newline ++ "}"
  | _ =>
      "{" ++ newline ++ "  " ++ json_string "articles" ++ ": [" ++ newline
        ++ json_records rs ++ "  ]" ++ newline ++ "}"
  end.

(** *** Index regeneration *)

Section Regenerate.

(** [new Date(s).getTime()]: milliseconds since the epoch, [None] for an
    invalid date (whose time value is NaN). *)
Variable Date_parse : string -> option Z.

(** [new Date(a.publishDate || '1970-01-01')] *)
Definition dateOf (a : ArticleRecord) : option Z :=
  Date_parse (if Str.is_empty (publishDate a) then "1970-01-01" else publishDate a).

(** The comparison function handed to [sort]: [dateB - dateA], NaN as
    soon as one of the two dates is invalid. *)
Definition compareFn (a b : ArticleRecord) : option Z :=
  match dateOf b, dateOf a with
  | Some tb, Some ta => Some (tb - ta)%Z
  | _, _ => None
  end.

(** What [Array.prototype.sort] makes of the comparison's result: NaN
    counts as zero. *)
Definition sortCompare (a b : ArticleRecord) : Z :=
  match compareFn a b with
  | Some v => v
  | None => 0%Z
  end.

(** [Array.prototype.sort] is a stable sort; it is modelled by the
    stable insertion sort, which every stable sort agrees with as long
    as the comparison is consistent. *)
Fixpoint insert (x : ArticleRecord) (l : list ArticleRecord) : list ArticleRecord :=
  match l with
  | [] => [x]
  | y :: l' => if (sortCompare x y <=? 0)%Z then x :: y :: l' else y :: insert x l'
  end.

Fixpoint sort (l : list ArticleRecord) : list ArticleRecord :=
  match l with
  | [] => []
  | x :: l' => insert x (sort l')
  end.

(** The loop over the article files: the records kept, in scan order,
    and what the extractor printed. *)
Fixpoint collect (fs : FileSystem) (htmlFiles : list string)
  : list ArticleRecord * list Console :=
  match htmlFiles with
  | [] => ([], [])
  | file :: rest =>
      let '(metadata, out) := extractMetadataFromHTML fs (articlePath file) in
      let '(kept, out') := collect fs rest in
      match metadata with
      | Some m => if Str.is_empty (id m) then (kept, out ++ out')
                  else (m :: kept, out ++ out')
      | None => (kept, out ++ out')
      end
  end%list.

Definition htmlFilesOf (entries : list (string * Read)) : list string :=
  filter (Str.endsWith ".html") (map fst entries).

(** The records of the index, in index order. *)
Definition indexRecords (fs : FileSystem) (entries : list (string * Read))
  : list ArticleRecord :=
  sort (fst (collect fs (htmlFilesOf entries))).

Definition count_string (n : nat) : string := Str.of_Z (Z.of_nat n).

Definition regenerateArticlesJSON (fs : FileSystem)
  : FileSystem * list Console * Outcome :=
  let start := Log "Regenerating articles.json..." in
  match articles fs with
  | ListFails m =>
      (fs, [start; Error ("Error regenerating articles.json: " ++ m)], Returns)
  | ListOk entries =>
      let htmlFiles := htmlFilesOf entries in
      let found := Log ("Found " ++ count_string (List.length htmlFiles) ++ " HTML files") in
      let '(kept, out) := collect fs htmlFiles in
      let articlesMetadata := sort kept in
      match index_write_error fs with
      | Some m =>
          (fs,
           ([start; found] ++ out
              ++ [Error ("Error regenerating articles.json: " ++ m)])%list,
           Returns)
      | None =>
          ({| articles := articles fs;
              index := Some (JSON_stringify articlesMetadata);
              index_write_error := None |},
           ([start; found] ++ out
              ++ [Log ("Updated articles.json with "
                         ++ count_string (List.length articlesMetadata)
                         ++ " articles")])%list,
           Returns)
      end
  end.

(** The time a record is ordered by, once its date is valid. *)
Definition timeOf (a : ArticleRecord) : Z :=
  match dateOf a with
  | Some t => t
  | None => 0%Z
  end.

(** The date handed to [new Date] is a valid one. *)
Definition dated (a : ArticleRecord) : bool :=
  match dateOf a with
  | Some _ => true
  | None => false
  end.

(** [a] is dated no earlier than [b]. *)
Definition newerFirst (a b : ArticleRecord) : Prop := (timeOf b <= timeOf a)%Z.

End Regenerate.

(** The ids the article files of a listing carry: one per readable
    [.html] entry whose id marker is present and not empty, in listing
    order. *)
Definition fileIds (entries : list (string * Read)) : list string :=
  flat_map
    (fun e =>
       if Str.endsWith ".html" (fst e) then
         match snd e with
         | ReadOk content =>
             if Str.is_empty (getMeta content "article-id") then []
             else [getMeta content "article-id"]
         | ReadFails _ => []
         end
       else [])
    entries.

(** *** An instance of the date parser

    The date-only form [YYYY-MM-DD] of the ECMAScript date-time string
    format, read as midnight UTC, as Node reads it: a day from 1 to 31 is
    accepted in every month and counted on from the first of the month.
    The runtime also accepts other, implementation-defined forms; this
    instance reports them invalid, and is used only at dates written in the
    form above. *)

Definition digit (c : ascii) : option Z :=
  let n := nat_of_ascii c in
  if (48 <=? n)%nat && (n <=? 57)%nat then Some (Z.of_nat (n - 48)) else None.

Fixpoint number (acc : Z) (s : string) : option Z :=
  match s with
  | EmptyString => Some acc
  | String c s' =>
      match digit c with
      | Some d => number (10 * acc + d)%Z s'
      | None => None
      end
  end.

(** Days from 1970-01-01 to the given day of the proleptic Gregorian
    calendar. *)
Definition days_from_civil (y m d : Z) : Z :=
  (let y' := if m <=? 2 then y - 1 else y in
   let era := y' / 400 in
   let yoe := y' - era * 400 in
   let mp := (m + 9) mod 12 in
   let doy := (153 * mp + 2) / 5 + d - 1 in
   let doe := yoe * 365 + yoe / 4 - yoe / 100 + doy in
   era * 146097 + doe - 719468)%Z.

Definition msPerDay : Z := 86400000.

Definition Date_parse_iso (s : string) : option Z :=
  if (String.length s =? 10)%nat
     && Ascii.eqb (match String.get 4 s with Some c => c | None => " "%char end) "-"%char
     && Ascii.eqb (match String.get 7 s with Some c => c | None => " "%char end) "-"%char
  then
    match number 0 (String.substring 0 4 s),
          number 0 (String.substring 5 2 s),
          number 0 (String.substring 8 2 s) with
    | Some y, Some m, Some d =>
        if ((1 <=? m) && (m <=? 12) && (1 <=? d) && (d <=? 31))%Z
        then Some (days_from_civil y m d * msPerDay)%Z
        else None
    | _, _, _ => None
    end
  else None.

(** *** The watcher's debounced regeneration *)

Inductive EventKind := add | change | unlink | error | ready.

Record Event := mkEvent {
  at_time : Z;          (** when the watcher delivers it, in milliseconds *)
  kind : EventKind;
  path : string
}.

(** The runtime's timers and the closure's variable.  [timers] are the
    timers still pending, oldest first, each with its handle and the time
    it is due; [regenerateTimeout] is the handle the closure holds, which
    stays there after the timer has run; [rebuilds] lists, in order, the
    times at which [regenerateArticlesJSON] was called. *)
Record Watcher := mkWatcher {
  regenerateTimeout : option nat;
  timers : list (nat * Z);
  next_handle : nat;
  rebuilds : list Z
}.

Definition startWatcher : Watcher :=
  {| regenerateTimeout := None; timers := []; next_handle := 1; rebuilds := [] |}.

Definition clearTimeout (h : nat) (ts : list (nat * Z)) : list (nat * Z) :=
  filter (fun t => negb (Nat.eqb (fst t) h)) ts.

(** [scheduleRegeneration]: clear the timer held, if any, then set a new
    one a second from now and hold its handle. *)
Definition scheduleRegeneration (now : Z) (w : Watcher) : Watcher :=
  let ts := match regenerateTimeout w with
            | Some h => clearTimeout h (timers w)
            | None => timers w
            end in
  {| regenerateTimeout := Some (next_handle w);
     timers := (ts ++ [(next_handle w, now + 1000)%Z])%list;
     next_handle := S (next_handle w);
     rebuilds := rebuilds w |}.

(** The runtime lets the clock reach [now]: every pending timer that is
    due runs its callback, oldest first. *)
Definition advance (now : Z) (w : Watcher) : Watcher :=
  let due := filter (fun t => (snd t <=? now)%Z) (timers w) in
  let later := filter (fun t => negb (snd t <=? now)%Z) (timers w) in
  {| regenerateTimeout := regenerateTimeout w;
     timers := later;
     next_handle := next_handle w;
     rebuilds := (rebuilds w ++ map snd due)%list |}.

(** The handlers registered on the watcher. *)
Definition handle (e : Event) (w : Watcher) : Watcher :=
  match kind e with
  | add | change | unlink =>
      if Str.endsWith ".html" (path e) then scheduleRegeneration (at_time e) w else w
  | error => w
  | ready =>
      {| regenerateTimeout := regenerateTimeout w;
         timers := timers w;
         next_handle := next_handle w;
         rebuilds := (rebuilds w ++ [at_time e])%list |}
  end.

Definition deliver (w : Watcher) (e : Event) : Watcher :=
  handle e (advance (at_time e) w).

(** After the last event nothing stops the pending timers from running. *)
Definition settle (w : Watcher) : Watcher :=
  {| regenerateTimeout := regenerateTimeout w;
     timers := [];
     next_handle := next_handle w;
     rebuilds := (rebuilds w ++ map snd (timers w))%list |}.

Definition watch (events : list Event) : Watcher :=
  settle (fold_left deliver events startWatcher).

(** Each event comes no earlier than the one before it and less than a
    second after it. *)
Fixpoint withinWindow (t : Z) (events : list Event) : bool :=
  match events with
  | [] => true
  | e :: rest =>
      (t <=? at_time e)%Z && (at_time e <? t + 1000)%Z && withinWindow (at_time e) rest
  end.

Definition lastTime (e : Event) (rest : list Event) : Z := at_time (last rest e).

(** An event that reaches [scheduleRegeneration]. *)
Definition qualifying (e : Event) : bool :=
  match kind e with
  | add | change | unlink => Str.endsWith ".html" (path e)
  | _ => false
  end.

End WatchArticles.

(** ** validate-urls.js *)

Module ValidateUrls.

Import WatchArticles.

Definition MAX_CONCURRENT_CHECKS : nat := 5.

(** *** The network *)

Inductive Method := HEAD | GET.

(** What node-fetch hands back once redirects have been followed. *)
Record Response := mkResponse {
  resp_status : Z;
  resp_redirected : bool;
  resp_url : string
}.

(** A call to [fetch] resolves with a response or rejects with an error
    (a network failure, or the abort raised when the timeout fires). *)
Inductive Fetch :=
| Resolves (r : Response)
| Rejects (message : string).

(** The answer of the network to a probe; within one run it is taken to
    depend on the method and the address only. *)
Definition Network := Method -> string -> Fetch.

(** The [ok] getter of a node-fetch response. *)
Definition Response_ok (r : Response) : bool :=
  ((200 <=? resp_status r) && (resp_status r <? 300))%Z.

Record CheckResult := mkCheck {
  url : string;
  status : Z;
  ok : bool;
  redirected : option bool;
  finalUrl : option string;
  check_error : option string
}.

Definition completed (u : string) (r : Response) : CheckResult :=
  {| url := u;
     status := resp_status r;
     ok := Response_ok r;
     redirected := Some (resp_redirected r);
     finalUrl := Some (resp_url r);
     check_error := None |}.

(** [checkURL], with the probes it issued, in order. *)
Definition checkURL (net : Network) (u : string)
  : CheckResult * list (Method * string) :=
  match net HEAD u with
  | Resolves r => (completed u r, [(HEAD, u)])
  | Rejects _ =>
      match net GET u with
      | Resolves r => (completed u r, [(HEAD, u); (GET, u)])
      | Rejects m =>
          ({| url := u; status := 0; ok := false; redirected := None;
              finalUrl := None; check_error := Some m |},
           [(HEAD, u); (GET, u)])
      end
  end.

(** The response the classification rests on: that of the HEAD probe when
    it completes, else that of the GET probe when it completes. *)
Definition finalResponse (net : Network) (u : string) : option Response :=
  match net HEAD u with
  | Resolves r => Some r
  | Rejects _ =>
      match net GET u with
      | Resolves r => Some r
      | Rejects _ => None
      end
  end.

(** *** Replacement search *)

(** [originalUrl.replace(/https?:\/\//, 'https://www.')]: the leftmost
    place where the pattern matches, the longer alternative first. *)
Fixpoint replace_scheme (s : string) : string :=
  if Str.startsWith "https://" s then "https://www." ++ Str.drop 8 s
  else if Str.startsWith "http://" s then "https://www." ++ Str.drop 7 s
  else match s with
       | EmptyString => EmptyString
       | String c s' => String c (replace_scheme s')
       end.

Definition archiveOf (originalUrl : string) : string :=
  "https://web.archive.org/web/*/" ++ originalUrl.

Definition variations (originalUrl : string) : list string :=
  [ Str.replace_first "https://" "http://" originalUrl;
    Str.replace_first "www." "" originalUrl;
    replace_scheme originalUrl;
    archiveOf originalUrl ].

Definition upper_hex (n : nat) : ascii :=
  if (n <? 10)%nat then ascii_of_nat (48 + n) else ascii_of_nat (55 + n).

Definition unreserved (c : ascii) : bool :=
  let n := nat_of_ascii c in
  ((65 <=? n) && (n <=? 90) || (97 <=? n) && (n <=? 122)
   || (48 <=? n) && (n <=? 57)
   || (n =? 45) || (n =? 95) || (n =? 46) || (n =? 33) || (n =? 126)
   || (n =? 42) || (n =? 39) || (n =? 40) || (n =? 41))%nat.

Fixpoint encodeURIComponent (s : string) : string :=
  match s with
  | EmptyString => EmptyString
  | String c s' =>
      if unreserved c then String c (encodeURIComponent s')
      else
        let n := nat_of_ascii c in
        String "%"%char
          (String (upper_hex (n / 16))
             (String (upper_hex (n mod 16)) (encodeURIComponent s')))
  end.

Record Replacement := mkReplacement {
  found : bool;
  newUrl : option string;
  method : option string;
  suggestions : option (list string);
  replacement_error : option string
}.

(** [result.finalUrl || variation] *)
Definition orElse (finalUrl : option string) (variation : string) : string :=
  match finalUrl with
  | Some f => if Str.is_empty f then variation else f
  | None => variation
  end.

(** The loop over the variations, with the probes issued. *)
Fixpoint tryVariations (net : Network) (originalUrl : string) (vs : list string)
  : option string * list (Method * string) :=
  match vs with
  | [] => (None, [])
  | variation :: rest =>
      if String.eqb variation originalUrl then tryVariations net originalUrl rest
      else
        let '(result, probes) := checkURL net variation in
        if ok result then (Some (orElse (finalUrl result) variation), probes)
        else
          let '(r, probes') := tryVariations net originalUrl rest in
          (r, (probes ++ probes')%list)
  end.

(** The variations that are probed: those that differ from the original. *)
Definition candidates (originalUrl : string) : list string :=
  filter (fun v => negb (String.eqb v originalUrl)) (variations originalUrl).

(** The liveness checker accepts the address. *)
Definition accepted (net : Network) (v : string) : bool := ok (fst (checkURL net v)).

(** The liveness checker accepts none of the addresses. *)
Definition rejectedAll (net : Network) (vs : list string) : bool :=
  forallb (fun w => negb (accepted net w)) vs.

(** The probes made by checking the addresses one after the other. *)
Definition probesOf (net : Network) (vs : list string) : list (Method * string) :=
  flat_map (fun v => snd (checkURL net v)) vs.

Section Finder.

Variable net : Network.

(** [new URL(s).hostname], [None] when the constructor throws. *)
Variable URL_hostname : string -> option string.

Definition findReplacementURL (originalUrl context : string)
  : Replacement * list (Method * string) :=
  match URL_hostname originalUrl with
  | None =>
      ({| found := false; newUrl := None; method := None;
          suggestions := None; replacement_error := Some "Invalid URL" |}, [])
  | Some domain =>
      match tryVariations net originalUrl (variations originalUrl) with
      | (Some u, probes) =>
          ({| found := true; newUrl := Some u; method := Some "variation";
              suggestions := None; replacement_error := None |}, probes)
      | (None, probes) =>
          ({| found := false; newUrl := None; method := None;
              suggestions :=
                Some [ "Search Google: https://www.google.com/search?q="
                         ++ encodeURIComponent (domain ++ " " ++ context);
                       "Archive: " ++ archiveOf originalUrl ];
              replacement_error := None |}, probes)
      end
  end.

End Finder.

(** *** URL extraction *)

(** The three selections the script asks cheerio for. *)
Inductive Selector := img_src | a_href | iframe_src.

(** cheerio: the values of the selected attribute on the elements the
    selector matches, in document order. *)
Definition Cheerio := string -> Selector -> list string.

Definition isHttp (v : string) : bool :=
  negb (Str.is_empty v)
  && (Str.startsWith "http://" v || Str.startsWith "https://" v).

(** [urls.add(v)] on a [Set], which keeps insertion order. *)
Definition set_add (urls : list string) (v : string) : list string :=
  if existsb (String.eqb v) urls then urls else (urls ++ [v])%list.

Definition addAll (urls vs : list string) : list string :=
  fold_left (fun acc v => if isHttp v then set_add acc v else acc) vs urls.

Definition extractURLs (cheerio : Cheerio) (html : string) : list string :=
  addAll (addAll (addAll [] (cheerio html img_src)) (cheerio html a_href))
         (cheerio html iframe_src).

(** *** In-place substitution *)

(** The replacement text of [String.prototype.replace] for one match of a
    pattern without capture groups: [$$], [$&], the text before the match
    and the text after it are expanded, any other [$] stands for itself. *)
Fixpoint expand (new matched before after : string) : string :=
  match new with
  | EmptyString => EmptyString
  | String c rest =>
      if Ascii.eqb c Str.dollar then
        match rest with
        | String d rest' =>
            if Ascii.eqb d Str.dollar then String Str.dollar (expand rest' matched before after)
            else if Ascii.eqb d "&"%char then matched ++ expand rest' matched before after
            else if Ascii.eqb d "`"%char then before ++ expand rest' matched before after
            else if Ascii.eqb d "'"%char then after ++ expand rest' matched before after
            else String c (expand rest matched before after)
        | EmptyString => String c EmptyString
        end
      else String c (expand rest matched before after)
  end.

(** The global replace, left to right: [skip] counts the characters of
    the current match still to pass over, [before] is the text already
    read.  The escaped pattern matches [old] literally. *)
Fixpoint replace_from (old new : string) (skip : nat) (before s : string) : string :=
  match s with
  | EmptyString =>
      if (skip =? 0)%nat && Str.is_empty old then expand new "" before "" else ""
  | String c s' =>
      match skip with
      | S k => replace_from old new k (before ++ String c "") s'
      | O =>
          if Str.startsWith old s then
            expand new old before (Str.drop (String.length old) s)
              ++ (if Str.is_empty old
                  then String c (replace_from old new 0 (before ++ String c "") s')
                  else replace_from old new (String.length old - 1)
                         (before ++ String c "") s')
          else String c (replace_from old new 0 (before ++ String c "") s')
      end
  end.

Definition replaceURL (html oldUrl newUrl : string) : string :=
  replace_from oldUrl newUrl 0 "" html.

(** The working copy after the substitutions, applied in order. *)
Definition applyFixes (content : string) (fs : list (string * string)) : string :=
  fold_left (fun c f => replaceURL c (fst f) (snd f)) fs content.

(** The replacement text holds no [$], so it is inserted as it stands. *)
Fixpoint dollarFree (s : string) : bool :=
  match s with
  | EmptyString => true
  | String c s' => negb (Ascii.eqb c Str.dollar) && dollarFree s'
  end.

(** *** One article *)

(** An entry of the per-file [results] array. *)
Record UrlResult := mkUrlResult {
  r_url : string;
  r_status : Z;
  r_fixed : bool;
  r_newUrl : option string
}.

(** The [urls] property of a per-file result: the number of URLs, the
    empty array of the early return, or absent on the error path. *)
Inductive UrlsField :=
| UrlsCount (n : Z)
| UrlsEmptyArray
| UrlsUndefined.

Record ArticleResult := mkArticleResult {
  filePath : string;
  urls : UrlsField;
  broken : option (list UrlResult);
  fixed : option Z;
  result_error : option string
}.

Record Summary := mkSummary {
  totalArticles : Z;
  totalUrls : string + Z;   (** a number, or the string [+] made of it *)
  totalBroken : Z;
  totalFixed : Z;
  stillBroken : Z
}.

Record Report := mkReport {
  timestamp : string;
  summary : Summary;
  details : list ArticleResult
}.

(** The files the script touches: the articles directory, the calls made
    to [fs.writeFile] on article files, in order, the report file, and the
    message of the error a write to a given path throws, if any. *)
Record Disk := mkDisk {
  dir : Listing;
  written : list (string * string);
  report : option Report;
  write_error : string -> option string
}.

Definition readArticle (d : Disk) (path : string) : Read :=
  readFile {| articles := dir d; index := None; index_write_error := None |} path.

Fixpoint store (name content : string) (entries : list (string * Read))
  : list (string * Read) :=
  match entries with
  | [] => [(name, ReadOk content)]
  | (n, r) :: rest =>
      if String.eqb n name then (n, ReadOk content) :: rest
      else (n, r) :: store name content rest
  end.

(** [fs.writeFile(path, content)] on an article: the disk afterwards, or
    the message of the error thrown; the call is recorded either way. *)
Definition writeArticle (d : Disk) (path content : string) : Disk * option string :=
  let d' := {| dir := dir d; written := (written d ++ [(path, content)])%list;
               report := report d; write_error := write_error d |} in
  match write_error d path, dir d with
  | Some m, _ => (d', Some m)
  | None, ListFails m => (d', Some m)
  | None, ListOk entries =>
      ({| dir := ListOk (store (Str.drop 9 path) content entries);
          written := written d';
          report := report d; write_error := write_error d |}, None)
  end.

(** [array.slice(i, i + n)] for [i] from 0 in steps of [n]. *)
Fixpoint batches {A} (fuel n : nat) (l : list A) : list (list A) :=
  match fuel, l with
  | _, [] => []
  | O, _ => []
  | S fuel', _ => firstn n l :: batches fuel' n (skipn n l)
  end.

Section Reconciler.

Variable net : Network.
Variable URL_hostname : string -> option string.
Variable cheerio : Cheerio.
(** [new Date().toISOString()] at the time the report is built *)
Variable now : string.

(** The state of the loop over one file: the working copy, the count of
    fixes, the [results] array and the console. *)
Record Loop := mkLoop {
  modifiedContent : string;
  fixedCount : Z;
  results : list UrlResult;
  printed : list Console
}.

Definition statusText (s : Z) : string :=
  if (s =? 0)%Z then "ERROR" else Str.of_Z s.

(** The body of [for (const check of checks)]. *)
Definition handleCheck (file : string) (st : Loop) (check : CheckResult) : Loop :=
  if ok check then
    {| modifiedContent := modifiedContent st; fixedCount := fixedCount st;
       results := results st;
       printed := (printed st ++ [Log ("  OK: " ++ url check)])%list |}
  else
    let line := Log ("  Broken: " ++ url check ++ " (" ++ statusText (status check) ++ ")") in
    let replacement := fst (findReplacementURL net URL_hostname (url check) file) in
    match found replacement, newUrl replacement with
    | true, Some new =>
        {| modifiedContent := replaceURL (modifiedContent st) (url check) new;
           fixedCount := (fixedCount st + 1)%Z;
           results := (results st ++
                         [{| r_url := url check; r_status := status check;
                             r_fixed := true; r_newUrl := Some new |}])%list;
           printed := (printed st ++ [line; Log ("    Replaced with: " ++ new)])%list |}
    | _, _ =>
        {| modifiedContent := modifiedContent st; fixedCount := fixedCount st;
           results := (results st ++
                         [{| r_url := url check; r_status := status check;
                             r_fixed := false; r_newUrl := None |}])%list;
           printed := (printed st ++ [line; Log "    No replacement found"]
                         ++ match suggestions replacement with
                            | Some ss => map (fun s => Log ("      " ++ s)) ss
                            | None => []
                            end)%list |}
    end.

(** The substitutions recorded in the [results] array, in order. *)
Definition fixes (rs : list UrlResult) : list (string * string) :=
  flat_map (fun r => match r_fixed r, r_newUrl r with
                     | true, Some new => [(r_url r, new)]
                     | _, _ => []
                     end) rs.

(** One batch: all its probes first, then the checks one by one. *)
Definition handleBatch (file : string) (st : Loop) (batch : list string) : Loop :=
  let checks := map (fun u => fst (checkURL net u)) batch in
  fold_left (handleCheck file) checks st.

(** What the loop keeps true of its state: the working copy is the
    original with the recorded substitutions applied in order, the count
    of fixes is their number, and each was made for one of the URLs
    handed to the loop. *)
Definition consistent (content : string) (us : list string) (st : Loop) : Prop :=
  modifiedContent st = applyFixes content (fixes (results st))
  /\ fixedCount st = Z.of_nat (List.length (fixes (results st)))
  /\ Forall (fun f => In (fst f) us) (fixes (results st)).

(** The loop over the batches of one file's URLs. *)
Definition resolveAll (file content : string) (us : list string) : Loop :=
  fold_left (handleBatch file)
    (batches (List.length us) MAX_CONCURRENT_CHECKS us)
    {| modifiedContent := content; fixedCount := 0; results := [];
       printed := [Log ("Checking " ++ file ++ " ("
                          ++ Str.of_Z (Z.of_nat (List.length us)) ++ " URLs)")] |}.

Definition validateArticle (d : Disk) (path : string)
  : ArticleResult * Disk * list Console :=
  let file := Str.basename path in
  match readArticle d path with
  | ReadFails m =>
      ({| filePath := path; urls := UrlsUndefined; broken := None;
          fixed := None; result_error := Some m |},
       d, [Error ("Error validating " ++ path ++ ": " ++ m)])
  | ReadOk content =>
      let us := extractURLs cheerio content in
      match us with
      | [] =>
          ({| filePath := path; urls := UrlsEmptyArray; broken := Some [];
              fixed := Some 0%Z; result_error := None |}, d, [])
      | _ =>
          let st := resolveAll file content us in
          let answer :=
            {| filePath := path;
               urls := UrlsCount (Z.of_nat (List.length us));
               broken := Some (filter (fun r => negb (r_fixed r)) (results st));
               fixed := Some (fixedCount st);
               result_error := None |} in
          if (0 <? fixedCount st)%Z then
            match writeArticle d path (modifiedContent st) with
            | (d', None) =>
                (answer, d',
                 (printed st ++ [Log ("  Saved " ++ Str.of_Z (fixedCount st)
                                        ++ " fix(es) to file")])%list)
            | (d', Some m) =>
                ({| filePath := path; urls := UrlsUndefined; broken := None;
                    fixed := None; result_error := Some m |},
                 d',
                 (printed st ++ [Error ("Error validating " ++ path ++ ": " ++ m)])%list)
            end
          else (answer, d, printed st)
      end
  end.

(** The loop over the article files, the disk threaded through. *)
Fixpoint validateEach (d : Disk) (htmlFiles : list string)
  : list ArticleResult * Disk * list Console :=
  match htmlFiles with
  | [] => ([], d, [])
  | file :: rest =>
      let '(r, d1, out1) := validateArticle d (articlePath file) in
      let '(rs, d2, out2) := validateEach d1 rest in
      (r :: rs, d2, (out1 ++ out2)%list)
  end.

(** [sum + (r.urls || 0)]: a number as long as both sides are numbers;
    the empty array is truthy and turns the sum into a string. *)
Definition plusUrls (sum : string + Z) (r : ArticleResult) : string + Z :=
  match sum, urls r with
  | inr a, UrlsCount n => inr (a + n)%Z
  | inr a, UrlsUndefined => inr a
  | inr a, UrlsEmptyArray => inl (Str.of_Z a)
  | inl s, UrlsCount n => inl (s ++ Str.of_Z n)
  | inl s, UrlsUndefined => inl (s ++ "0")
  | inl s, UrlsEmptyArray => inl s
  end.

(** [sum + (r.broken?.length || 0)] *)
Definition plusBroken (sum : Z) (r : ArticleResult) : Z :=
  match broken r with
  | Some b => (sum + Z.of_nat (List.length b))%Z
  | None => sum
  end.

(** [sum + (r.fixed || 0)] *)
Definition plusFixed (sum : Z) (r : ArticleResult) : Z :=
  match fixed r with
  | Some f => (sum + f)%Z
  | None => sum
  end.

Definition show (v : string + Z) : string :=
  match v with inl s => s | inr z => Str.of_Z z end.

Definition summarise (htmlFiles : list string) (rs : list ArticleResult) : Summary :=
  let totalUrls := fold_left plusUrls rs (inr 0%Z) in
  let totalBroken := fold_left plusBroken rs 0%Z in
  let totalFixed := fold_left plusFixed rs 0%Z in
  {| totalArticles := Z.of_nat (List.length htmlFiles);
     totalUrls := totalUrls;
     totalBroken := totalBroken;
     totalFixed := totalFixed;
     stillBroken := (totalBroken - totalFixed)%Z |}.

Definition REPORT_PATH : string := "./url-validation-report.json".

Definition validateAllArticles (d : Disk) : Disk * list Console * Outcome :=
  let start := Log "Starting URL validation..." in
  match dir d with
  | ListFails m => (d, [start; Error ("Fatal error: " ++ m)], Exits 1)
  | ListOk entries =>
      let htmlFiles := htmlFilesOf entries in
      let '(rs, d', out) := validateEach d htmlFiles in
      let s := summarise htmlFiles rs in
      let lines :=
        [ Log "Summary:";
          Log ("  Total URLs checked: " ++ show (totalUrls s));
          Log ("  Broken URLs found: " ++ Str.of_Z (totalBroken s));
          Log ("  URLs fixed: " ++ Str.of_Z (totalFixed s));
          Log ("  URLs still broken: " ++ Str.of_Z (stillBroken s)) ] in
      let found := Log ("Found " ++ Str.of_Z (Z.of_nat (List.length htmlFiles))
                          ++ " articles to validate") in
      match write_error d' REPORT_PATH with
      | Some m =>
          (d', ([start; found] ++ out ++ lines ++ [Error ("Fatal error: " ++ m)])%list,
           Exits 1)
      | None =>
          ({| dir := dir d'; written := written d';
              report := Some {| timestamp := now; summary := s; details := rs |};
              write_error := write_error d' |},
           ([start; found] ++ out ++ lines
              ++ [Log "Detailed report saved to url-validation-report.json"])%list,
           Returns)
      end
  end.

End Reconciler.

End ValidateUrls.

(** ** extract-articles.js: the generator of the article files *)

Module ExtractArticles.

(** A source article, with the fields the data source gives it; an absent
    text field is the empty string and an absent flag is [false]. *)
Record Article := mkSource {
  id : string;
  title : string;
  author : string;
  publishDate : string;
  category : string;
  excerpt : string;
  readTime : string;
  sourceUrl : string;
  bannerImage : string;
  thumbnailImage : string;
  fullContent : string;
  isTrending : bool;
  isVideo : bool;
  videoUrl : string;
  isJob : bool
}.

(** [value || fallback] on strings *)
Definition orDefault (value fallback : string) : string :=
  if Str.is_empty value then fallback else value.

(** A boolean inside a template literal *)
Definition showBool (b : bool) : string := if b then "true" else "false".

Definition cat (parts : list string) : string := fold_right append "" parts.

Definition q : string := String Str.dq "".
Definition nl : string := String (ascii_of_nat 10) "".

(** [[a-z0-9]] *)
Definition isAlnum (c : ascii) : bool :=
  let n := nat_of_ascii c in
  ((97 <=? n) && (n <=? 122) || (48 <=? n) && (n <=? 57))%nat.

Definition dash : ascii := "-"%char.

(** [.replace(/[^a-z0-9]+/g, '-')]: every maximal run of other characters
    becomes one dash; [inRun] tells that the run has already been replaced. *)
Fixpoint dashRuns (inRun : bool) (l : list ascii) : list ascii :=
  match l with
  | [] => []
  | c :: l' =>
      if isAlnum c then c :: dashRuns false l'
      else if inRun then dashRuns true l'
      else dash :: dashRuns true l'
  end.

Fixpoint dropDashes (l : list ascii) : list ascii :=
  match l with
  | [] => []
  | c :: l' => if Ascii.eqb c dash then dropDashes l' else l
  end.

(** The text without the dashes it ends with. *)
Fixpoint dropTrailing (l : list ascii) : list ascii :=
  match l with
  | [] => []
  | c :: l' =>
      match dropTrailing l' with
      | [] => if Ascii.eqb c dash then [] else [c]
      | r => c :: r
      end
  end.

(** [.replace(/^-+|-+$/g, '')] *)
Definition trimDashes (l : list ascii) : list ascii :=
  dropTrailing (dropDashes l).

(** The characters a sanitized name is made of. *)
Definition allowed (c : ascii) : bool := isAlnum c || Ascii.eqb c dash.

(** No two dashes stand next to each other. *)
Fixpoint noDashPair (l : list ascii) : bool :=
  match l with
  | a :: (b :: _) as l' => negb (Ascii.eqb a dash && Ascii.eqb b dash) && noDashPair l'
  | _ => true
  end.

Definition isByte (n : nat) (c : ascii) : bool := Nat.eqb (nat_of_ascii c) n.

(** [title.toLowerCase()] on the UTF-8 bytes of the title.  ASCII capitals
    become small letters.  Outside ASCII two characters have a lower case
    that holds an ASCII letter: the dotted capital I (U+0130, bytes C4 B0)
    becomes [i] followed by the combining dot above (U+0307, bytes CC 87),
    and the Kelvin sign (U+212A, bytes E2 84 AA) becomes [k].  Every other
    character outside ASCII has a lower case outside ASCII; its bytes are
    kept, as the pattern of [sanitizeFilename] treats all of them alike. *)
Fixpoint toLowerCase (l : list ascii) : list ascii :=
  match l with
  | [] => []
  | a :: l1 =>
      match l1 with
      | [] => [Str.lower a]
      | b :: l2 =>
          if isByte 196 a && isByte 176 b
          then "i"%char :: ascii_of_nat 204 :: ascii_of_nat 135 :: toLowerCase l2
          else
            match l2 with
            | c :: l3 =>
                if isByte 226 a && isByte 132 b && isByte 170 c
                then "k"%char :: toLowerCase l3
                else Str.lower a :: toLowerCase l1
            | [] => Str.lower a :: toLowerCase l1
            end
      end
  end.

(** [sanitizeFilename].  After the first replacement the text is made of
    ASCII characters, so that bytes and UTF-16 code units count alike in
    [substring(0, 100)]. *)
Definition sanitizeFilename (title : string) : string :=
  string_of_list_ascii
    (firstn 100
       (trimDashes (dashRuns false (toLowerCase (list_ascii_of_string title))))).

(** [generateArticleHTML]: the template literal, piece by piece. *)
Definition generateArticleHTML (article : Article) : string :=
  let title := orDefault (title article) "Untitled Article" in
  let author := orDefault (author article) "Unknown" in
  let publishDate := publishDate article in
  let category := category article in
  let excerpt := excerpt article in
  let readTime := readTime article in
  let sourceUrl := sourceUrl article in
  let bannerImage := bannerImage article in
  let fullContent := orDefault (fullContent article) "<p>No content available.</p>" in
  let isTrending := isTrending article in
  let isVideo := isVideo article in
  let videoUrl := videoUrl article in
  cat [
  "<!DOCTYPE html>"; nl;
  "<html lang="; q; "en"; q; ">"; nl;
  "<head>"; nl;
  "    <meta charset="; q; "UTF-8"; q; ">"; nl;
  "    <meta name="; q; "viewport"; q; " content="; q;
    "width=device-width, initial-scale=1.0"; q; ">"; nl;
  "    <meta name="; q; "article-id"; q; " content="; q; id article; q; ">"; nl;
  "    <meta name="; q; "article-category"; q; " content="; q; category; q; ">"; nl;
  "    <meta name="; q; "article-author"; q; " content="; q; author; q; ">"; nl;
  "    <meta name="; q; "article-date"; q; " content="; q; publishDate; q; ">"; nl;
  "    <meta name="; q; "article-readtime"; q; " content="; q; readTime; q; ">"; nl;
  "    <meta name="; q; "article-source"; q; " content="; q; sourceUrl; q; ">"; nl;
  "    <meta name="; q; "article-trending"; q; " content="; q; showBool isTrending;
    q; ">"; nl;
  "    <meta name="; q; "article-video"; q; " content="; q; showBool isVideo; q; ">";
    nl;
  "    <meta name="; q; "article-video-url"; q; " content="; q; videoUrl; q; ">"; nl;
  "    <meta name="; q; "description"; q; " content="; q; excerpt; q; ">"; nl;
  "    <meta name="; q; "og:title"; q; " content="; q; title; q; ">"; nl;
  "    <meta name="; q; "og:description"; q; " content="; q; excerpt; q; ">"; nl;
  "    <meta name="; q; "og:image"; q; " content="; q; bannerImage; q; ">"; nl;
  "    <meta name="; q; "og:url"; q; " content="; q; sourceUrl; q; ">"; nl;
  "    <title>"; title; " - NewsHub</title>"; nl;
  "    <link rel="; q; "stylesheet"; q; " href="; q; "../css/article-magazine.css";
    q; ">"; nl;
  "    <link rel="; q; "stylesheet"; q; " href="; q; "../css/layout-grid.css"; q;
    ">"; nl;
  "    <style>"; nl;
  "        body {"; nl;
  "            margin: 0;"; nl;
  "            padding: 20px;"; nl;
  "            font-family: -apple-system, BlinkMacSystemFont, 'Segoe UI', Roboto, Oxygen, Ubuntu, Cantarell, sans-serif;";
    nl;
  "            line-height: 1.6;"; nl;
  "            background-color: #f5f5f5;"; nl;
  "        }"; nl;
  "        .article-container {"; nl;
  "            max-width: 1200px;"; nl;
  "            margin: 0 auto;"; nl;
  "            background: white;"; nl;
  "            padding: 40px;"; nl;
  "            box-shadow: 0 2px 8px rgba(0,0,0,0.1);"; nl;
  "        }"; nl;
  "        .article-header {"; nl;
  "            margin-bottom: 30px;"; nl;
  "        }"; nl;
  "        .article-meta {"; nl;
  "            color: #666;"; nl;
  "            font-size: 0.9em;"; nl;
  "            margin-bottom: 20px;"; nl;
  "        }"; nl;
  "        .article-meta span {"; nl;
  "            margin-right: 15px;"; nl;
  "        }"; nl;
  "        .back-link {"; nl;
  "            display: inline-block;"; nl;
  "            margin-bottom: 20px;"; nl;
  "            color: #0066cc;"; nl;
  "            text-decoration: none;"; nl;
  "        }"; nl;
  "        .back-link:hover {"; nl;
  "            text-decoration: underline;"; nl;
  "        }"; nl;
  "    </style>"; nl;
  "</head>"; nl;
  "<body>"; nl;
  "    <div class="; q; "article-container"; q; ">"; nl;
  "        <a href="; q; "../index.html"; q; " class="; q; "back-link"; q;
    ">← Back to Home</a>"; nl;
  "        <article class="; q; "article-header"; q; ">"; nl;
  "            <h1>"; title; "</h1>"; nl;
  "            <div class="; q; "article-meta"; q; ">"; nl;
  "                ";
    (if Str.is_empty category then "" else cat ["<span><strong>Category:</strong> ";
    category; "</span>"]); nl;
  "                ";
    (if Str.is_empty author then "" else cat ["<span><strong>By:</strong> "; author;
    "</span>"]); nl;
  "                ";
    (if Str.is_empty publishDate then "" else cat ["<span><strong>Published:</strong> ";
    publishDate; "</span>"]); nl;
  "                ";
    (if Str.is_empty readTime then "" else cat ["<span><strong>Read time:</strong> ";
    readTime; " min</span>"]); nl;
  "                ";
    (if isTrending then cat ["<span><strong>🔥 Trending</strong></span>"] else ""); nl;
  "            </div>"; nl;
  "            "; (if Str.is_empty bannerImage then "" else cat ["<img src="; q;
    bannerImage; q; " alt="; q; title; q; " style="; q;
    "width: 100%; height: auto; margin-bottom: 20px;"; q; ">"]); nl;
  "        </article>"; nl;
  "        <div class="; q; "article-content"; q; ">"; nl;
  "            "; fullContent; nl;
  "        </div>"; nl;
  "        "; (if Str.is_empty sourceUrl then "" else cat ["<div style="; q;
    "margin-top: 40px; padding-top: 20px; border-top: 1px solid #ddd;"; q; ">"; nl;
    "            <a href="; q; sourceUrl; q; " target="; q; "_blank"; q; " rel="; q;
    "noopener noreferrer"; q; ">Read original source →</a>"; nl; "        </div>"]);
    nl;
  "    </div>"; nl;
  "</body>"; nl;
  "</html>"
  ].

(** The text holds no path separator. *)
Fixpoint noSlash (s : string) : bool :=
  match s with
  | EmptyString => true
  | String c s' => negb (Ascii.eqb c "/"%char) && noSlash s'
  end.

(** The name [extractArticles] gives the file of an article. *)
Definition filenameOf (article : Article) : string :=
  sanitizeFilename (title article) ++ ".html".

End ExtractArticles.

(** ** Reading a generated page: what the extractor's pattern meets *)

Module MetaScan.

Import WatchArticles.

(** The text holds no double quote. *)
Fixpoint quoteFree (s : string) : bool :=
  match s with
  | EmptyString => true
  | String c s' => negb (Ascii.eqb c Str.dq) && quoteFree s'
  end.

(** The pattern text [p] and the text [s] differ, letter case ignored, at a
    position both of them have. *)
Fixpoint mismatch (p s : string) : bool :=
  match p, s with
  | String a p', String b s' => if Str.eqb_ci a b then mismatch p' s' else true
  | _, _ => false
  end.

(** At no position of [c] can the pattern text [p] match, whatever follows
    [c]. *)
Fixpoint clearb (p c : string) : bool :=
  match c with
  | EmptyString => true
  | String _ c' => mismatch p c && clearb p c'
  end.

(** The pattern text [p] matches at one position of [c], where it ends
    with [c], and at no position before. *)
Fixpoint hitb (p c : string) : bool :=
  match Str.strip_prefix_ci p c with
  | Some EmptyString => true
  | _ =>
      match c with
      | EmptyString => false
      | String _ c' => mismatch p c && hitb p c'
      end
  end.

(** The marker name starts with a character other than [>]. *)
Definition lead (name : string) : bool :=
  match name with
  | String n _ => negb (Str.eqb_ci n ">"%char)
  | EmptyString => false
  end.

(** The text the generator writes between the value of one meta element and
    the value of the next, named [name]. *)
Definition gap (name : string) : string :=
  String Str.dq (">" ++ ExtractArticles.nl ++ "    " ++ meta_open name).

(** The text the generator writes before the meta elements the extractor
    reads, up to the value of the viewport element. *)
Definition headPrefix : string :=
  "<!DOCTYPE html>" ++ ExtractArticles.nl
    ++ "<html lang=" ++ String Str.dq ("en" ++ String Str.dq (">" ++ ExtractArticles.nl
    ++ "<head>" ++ ExtractArticles.nl
    ++ "    <meta charset=" ++ String Str.dq ("UTF-8" ++ String Str.dq (">" ++ ExtractArticles.nl
    ++ "    " ++ meta_open "viewport" ++ "width=device-width, initial-scale=1.0")))).

(** Meta elements one after the other, each named and valued, then the rest
    of the page. *)
Fixpoint metaLines (fields : list (string * string)) (rest : string) : string :=
  match fields with
  | [] => rest
  | (n, v) :: fs => gap n ++ (v ++ metaLines fs rest)
  end.

(** The meta elements of a generated page, in the order the template
    writes them. *)
Definition metaFields (a : ExtractArticles.Article) : list (string * string) :=
  [ ("article-id", ExtractArticles.id a);
    ("article-category", ExtractArticles.category a);
    ("article-author", ExtractArticles.orDefault (ExtractArticles.author a) "Unknown");
    ("article-date", ExtractArticles.publishDate a);
    ("article-readtime", ExtractArticles.readTime a);
    ("article-source", ExtractArticles.sourceUrl a);
    ("article-trending", ExtractArticles.showBool (ExtractArticles.isTrending a));
    ("article-video", ExtractArticles.showBool (ExtractArticles.isVideo a));
    ("article-video-url", ExtractArticles.videoUrl a);
    ("description", ExtractArticles.excerpt a);
    ("og:title", ExtractArticles.orDefault (ExtractArticles.title a) "Untitled Article");
    ("og:description", ExtractArticles.excerpt a);
    ("og:image", ExtractArticles.bannerImage a);
    ("og:url", ExtractArticles.sourceUrl a) ].

(** The value of the first element the pattern for [name] matches. *)
Fixpoint fieldOf (name : string) (fields : list (string * string)) : option string :=
  match fields with
  | [] => None
  | (n, v) :: fs => if hitb (meta_open name) (gap n) then Some v else fieldOf name fs
  end.

(** The pattern for [name] matches an element's opening text exactly or
    nowhere in it. *)
Definition separated (name : string) (fields : list (string * string)) : bool :=
  forallb (fun f => hitb (meta_open name) (gap (fst f))
                    || clearb (meta_open name) (gap (fst f))) fields.

(** The fields the generator writes into meta elements hold no double
    quote. *)
Definition plainFields (a : ExtractArticles.Article) : bool :=
  quoteFree (ExtractArticles.id a)
  && quoteFree (ExtractArticles.title a)
  && quoteFree (ExtractArticles.author a)
  && quoteFree (ExtractArticles.publishDate a)
  && quoteFree (ExtractArticles.category a)
  && quoteFree (ExtractArticles.excerpt a)
  && quoteFree (ExtractArticles.readTime a)
  && quoteFree (ExtractArticles.sourceUrl a)
  && quoteFree (ExtractArticles.bannerImage a)
  && quoteFree (ExtractArticles.videoUrl a).

(** The record the index holds for a generated page. *)
Definition recordOf (path : string) (a : ExtractArticles.Article) : ArticleRecord :=
  {| id := ExtractArticles.id a;
     title := ExtractArticles.orDefault (ExtractArticles.title a) "Untitled Article";
     filename := Str.basename path;
     category := ExtractArticles.category a;
     author := ExtractArticles.orDefault (ExtractArticles.author a) "Unknown";
     publishDate := ExtractArticles.publishDate a;
     readTime := ExtractArticles.readTime a;
     excerpt := ExtractArticles.excerpt a;
     thumbnailImage := ExtractArticles.bannerImage a;
     bannerImage := ExtractArticles.bannerImage a;
     sourceUrl := ExtractArticles.sourceUrl a;
     isTrending := ExtractArticles.isTrending a;
     isVideo := ExtractArticles.isVideo a;
     videoUrl := ExtractArticles.videoUrl a;
     isJob := false |}.

End MetaScan.

(** ** extract-articles.js: the run over the data file *)

Module ExtractRun.

Import WatchArticles.

(** What reading and parsing [news-data.json] gives: an error thrown by
    [fs.readFile] or [JSON.parse], a document without an [articles] array,
    or the articles. *)
Inductive NewsData :=
| Unusable (message : string)
| NoArticleList
| ArticleList (articles : list ExtractArticles.Article).

(** The record [extractArticles] pushes for an article it wrote. *)
Definition metadataFor (article : ExtractArticles.Article) (filename : string)
  : ArticleRecord :=
  {| id := ExtractArticles.id article;
     title := ExtractArticles.title article;
     filename := filename;
     category := ExtractArticles.category article;
     author := ExtractArticles.author article;
     publishDate := ExtractArticles.publishDate article;
     readTime := ExtractArticles.readTime article;
     excerpt := ExtractArticles.excerpt article;
     thumbnailImage := ExtractArticles.thumbnailImage article;
     bannerImage := ExtractArticles.bannerImage article;
     sourceUrl := ExtractArticles.sourceUrl article;
     isTrending := ExtractArticles.isTrending article;
     isVideo := ExtractArticles.isVideo article;
     videoUrl := ExtractArticles.videoUrl article;
     isJob := ExtractArticles.isJob article |}.

(** The state of the loop over the articles. *)
Record Loop := mkLoop {
  files : list (string * Read);
  articlesMetadata : list ArticleRecord;
  successCount : nat;
  errorCount : nat;
  printed : list Console
}.

Section Run.

(** The message of the error [fs.writeFile] throws on an article file, if
    any, by file name. *)
Variable write_error : string -> option string.

(** The body of [for (const article of articles)]. *)
Definition step (st : Loop) (article : ExtractArticles.Article) : Loop :=
  if Str.is_empty (ExtractArticles.id article)
     || Str.is_empty (ExtractArticles.title article)
  then
    {| files := files st; articlesMetadata := articlesMetadata st;
       successCount := successCount st; errorCount := S (errorCount st);
       printed := (printed st ++ [Log "Skipping article with missing id or title"])%list |}
  else
    let filename := ExtractArticles.filenameOf article in
    match write_error filename with
    | Some m =>
        {| files := files st; articlesMetadata := articlesMetadata st;
           successCount := successCount st; errorCount := S (errorCount st);
           printed := (printed st
                         ++ [Error ("Error processing article "
                                      ++ String Str.dq (ExtractArticles.title article)
                                      ++ String Str.dq ": " ++ m)])%list |}
    | None =>
        {| files := ValidateUrls.store filename
                      (ExtractArticles.generateArticleHTML article) (files st);
           articlesMetadata :=
             (articlesMetadata st ++ [metadataFor article filename])%list;
           successCount := S (successCount st); errorCount := errorCount st;
           printed := (printed st ++ [Log ("Generated: " ++ filename)])%list |}
    end.

Definition loop (existing : list (string * Read)) (out : list Console)
    (articles : list ExtractArticles.Article) : Loop :=
  fold_left step articles
    {| files := existing; articlesMetadata := []; successCount := 0;
       errorCount := 0; printed := out |}.

(** The message of the error [fs.mkdir] throws, if any. *)
Variable mkdir_error : option string.

Definition fatal (fs : FileSystem) (out : list Console) (m : string)
  : FileSystem * list Console * Outcome :=
  (fs, (out ++ [Error ("Fatal error: " ++ m)])%list, Exits 1).

Definition extractArticles (news : NewsData) (fs : FileSystem)
  : FileSystem * list Console * Outcome :=
  let start := [Log "Starting article extraction..."] in
  match news with
  | Unusable m => fatal fs start m
  | NoArticleList => fatal fs start "No articles found in news-data.json"
  | ArticleList articles =>
      let found :=
        (start ++ [Log ("Found " ++ count_string (List.length articles)
                          ++ " articles to process")])%list in
      let ready :=
        match WatchArticles.articles fs with
        | ListOk existing => inl (existing, found)
        | ListFails _ =>
            match mkdir_error with
            | Some m => inr m
            | None => inl ([], (found ++ [Log "Created articles directory"])%list)
            end
        end in
      match ready with
      | inr m => fatal fs found m
      | inl (existing, out) =>
          let st := loop existing out articles in
          let written :=
            {| articles := ListOk (files st); index := index fs;
               index_write_error := index_write_error fs |} in
          match index_write_error fs with
          | Some m => fatal written (printed st) m
          | None =>
              ({| articles := ListOk (files st);
                  index := Some (JSON_stringify (articlesMetadata st));
                  index_write_error := None |},
               (printed st
                  ++ [ Log ("Created articles.json with "
                              ++ count_string (List.length (articlesMetadata st))
                              ++ " articles");
                       Log "Summary:";
                       Log ("  Success: " ++ count_string (successCount st) ++ " articles");
                       Log ("  Errors: " ++ count_string (errorCount st) ++ " articles");
                       Log "  Output: ./articles/";
                       Log "  Metadata: ./articles.json" ])%list,
               Returns)
          end
      end
  end.

End Run.

(** The articles the loop writes a file for: those with an id and a title. *)
Definition usable (a : ExtractArticles.Article) : bool :=
  negb (Str.is_empty (ExtractArticles.id a) || Str.is_empty (ExtractArticles.title a)).

(** The articles a run writes a file for. *)
Definition written (write_error : string -> option string)
    (a : ExtractArticles.Article) : bool :=
  usable a
  && match write_error (ExtractArticles.filenameOf a) with
     | None => true
     | Some _ => false
     end.

(** The entry a written article leaves in the directory. *)
Definition pageOf (a : ExtractArticles.Article) : string * Read :=
  (ExtractArticles.filenameOf a, ReadOk (ExtractArticles.generateArticleHTML a)).

(** The directory is empty, or missing and can be created. *)
Definition fresh (mkdir_error : option string) (fs : FileSystem) : Prop :=
  match WatchArticles.articles fs with
  | ListOk existing => existing = []
  | ListFails _ => mkdir_error = None
  end.

End ExtractRun.

(** ** The verification report: [verifyArticles] *)

Module VerifyArticles.

(** [url && (url.startsWith('data:image/svg+xml') || url.includes('<svg'))],
    as the condition it is used for. *)
Definition isSVGPlaceholder (url : string) : bool :=
  negb (Str.is_empty url)
  && (Str.startsWith "data:image/svg+xml" url || Str.includes "<svg" url).

(** What is left of [s] once the literal text [p] has been read off its
    front. *)
Fixpoint strip_prefix (p s : string) : option string :=
  match p, s with
  | EmptyString, _ => Some s
  | String a p', String b s' => if Ascii.eqb a b then strip_prefix p' s' else None
  | String _ _, EmptyString => None
  end.

(** The longest run of characters other than [stop] at the front of [s]. *)
Fixpoint run (stop : ascii) (s : string) : string :=
  match s with
  | EmptyString => EmptyString
  | String c s' => if Ascii.eqb c stop then EmptyString else String c (run stop s')
  end.

(** A pattern of [extractYouTubeID]: literal text, then a capture of one or
    more characters other than [stop]. *)
Record Pattern := mkPattern {
  literal : string;
  stop : ascii
}.

Definition patterns : list Pattern :=
  [ mkPattern "youtube.com/watch?v=" "&";
    mkPattern "youtu.be/" "?";
    mkPattern "youtube.com/embed/" "?" ].

(** One attempt of the pattern at the front of [s]; the capture is greedy
    and must not be empty. *)
Definition match_here (p : Pattern) (s : string) : option string :=
  match strip_prefix (literal p) s with
  | Some rest =>
      match run (stop p) rest with
      | EmptyString => None
      | v => Some v
      end
  | None => None
  end.

(** [url.match(pattern)], then [match[1]]: the capture at the leftmost
    position at which the pattern matches. *)
Fixpoint regex_match (p : Pattern) (s : string) : option string :=
  match match_here p s with
  | Some v => Some v
  | None =>
      match s with
      | EmptyString => None
      | String _ s' => regex_match p s'
      end
  end.

(** The loop over the patterns. *)
Fixpoint firstMatch (ps : list Pattern) (url : string) : option string :=
  match ps with
  | [] => None
  | p :: rest =>
      match regex_match p url with
      | Some v => Some v
      | None => firstMatch rest url
      end
  end.

(** [None] stands for [undefined] as the argument and for [null] as the
    result. *)
Definition extractYouTubeID (url : option string) : option string :=
  match url with
  | None => None
  | Some u => if Str.is_empty u then None else firstMatch patterns u
  end.

(** What the queries of [analyzeArticle] give on a loaded document. *)
Record Dom := mkDom {
  (** the [content] attribute of [meta[name=og:title]] *)
  ogTitle : option string;
  (** the text of [title] *)
  titleText : string;
  (** the [content] attributes of the [article-source], [article-video] and
      [article-video-url] meta elements *)
  articleSource : option string;
  articleVideo : option string;
  articleVideoUrl : option string;
  (** the [src] attribute of each [img[src]], in document order *)
  imgSrcs : list string;
  (** the number of [iframe] elements whose [src] contains [youtube] *)
  youtubeIframes : nat;
  (** the [length] of the text of [.magazine-main-content] and of
      [.article-content] *)
  magazineContentLength : nat;
  articleContentLength : nat;
  (** the number of [.magazine-article] and of [.magazine-sidebar]
      elements *)
  magazineArticles : nat;
  magazineSidebars : nat;
  (** the text of each [.magazine-image-text] *)
  overlayTexts : list string
}.

Inductive Issue :=
| SVG_PLACEHOLDERS (count : nat) (details : list (nat * string))
| MISSING_VIDEO_EMBED (videoId : option string) (videoUrl : string)
| INSUFFICIENT_CONTENT (length : nat).

Record Analysis := mkAnalysis {
  filename : string;
  title : string;
  sourceUrl : option string;
  hasVideoMeta : bool;
  videoUrl : option string;
  issues : list Issue;
  warnings : list string;
  success : list string
}.

(** What [analyzeArticle] returns: an analysis, or the file name and the
    message of the error caught. *)
Inductive Analysed :=
| Done (analysis : Analysis)
| Failed (filename error : string).

(** A value is truthy: defined and not the empty string. *)
Definition truthy (v : option string) : bool :=
  match v with
  | Some s => negb (Str.is_empty s)
  | None => false
  end.

(** The placeholders among the images, from the image after the [i]-th:
    the position counts from one, the source is cut at a hundred characters
    (of a source of ASCII characters). *)
Fixpoint svgImagesFrom (i : nat) (srcs : list string) : list (nat * string) :=
  match srcs with
  | [] => []
  | src :: rest =>
      if isSVGPlaceholder src
      then (S i, String.substring 0 100 src ++ "...") :: svgImagesFrom (S i) rest
      else svgImagesFrom (S i) rest
  end.

(** [text.split(' ').length]: one more than the number of spaces. *)
Fixpoint pieces (text : string) : nat :=
  match text with
  | EmptyString => 1
  | String c text' => if Ascii.eqb c " "%char then S (pieces text') else pieces text'
  end.

(** A value inside a template literal. *)
Definition shown (v : option string) : string :=
  match v with
  | Some s => s
  | None => "null"
  end.

(** The body of [analyzeArticle] once the file is read and loaded. *)
Definition analysisOf (filePath : string) (d : Dom) : Analysis :=
  let hasVideoMeta :=
    match articleVideo d with
    | Some v => String.eqb v "true"
    | None => false
    end in
  let svgImages := svgImagesFrom 0 (imgSrcs d) in
  let images :=
    match svgImages with
    | [] => ([], ["All images are real (no SVG placeholders)"])
    | _ => ([SVG_PLACEHOLDERS (List.length svgImages) svgImages], [])
    end in
  let video :=
    if hasVideoMeta && truthy (articleVideoUrl d)
    then
      let videoId := extractYouTubeID (articleVideoUrl d) in
      if (0 <? youtubeIframes d)%nat
      then ([], ["YouTube video embedded: " ++ shown videoId])
      else ([MISSING_VIDEO_EMBED videoId (shown (articleVideoUrl d))], [])
    else ([], []) in
  let contentLength := Nat.max (magazineContentLength d) (articleContentLength d) in
  let content :=
    if (500 <? contentLength)%nat
    then ([], ["Substantial content: " ++ WatchArticles.count_string contentLength
                 ++ " characters"])
    else ([INSUFFICIENT_CONTENT contentLength], []) in
  let structure :=
    if (0 <? magazineArticles d)%nat
    then ([], ["Proper magazine structure"])
    else (["Missing magazine article structure"], []) in
  let sidebar :=
    if (0 <? magazineSidebars d)%nat then [] else ["Missing sidebar"] in
  let overlay :=
    match filter (fun text => (6 <? pieces text)%nat) (overlayTexts d) with
    | [] => []
    | long :: _ =>
        ["Image overlay text too long (>6 words): " ++ String Str.dq long
           ++ String Str.dq ""]
    end in
  {| filename := Str.basename filePath;
     title := match ogTitle d with
              | Some t => if Str.is_empty t then titleText d else t
              | None => titleText d
              end;
     sourceUrl := articleSource d;
     hasVideoMeta := hasVideoMeta;
     videoUrl := articleVideoUrl d;
     issues := (fst images ++ fst video ++ fst content)%list;
     warnings := (fst structure ++ sidebar ++ overlay)%list;
     success := (snd images ++ snd video ++ snd content ++ snd structure)%list |}.

Inductive Color := red | green | yellow | blue.

Definition escape (code : string) : string :=
  String (ascii_of_nat 27) ("[" ++ code ++ "m").

Definition colorize (text : string) (color : Color) : string :=
  escape (match color with
          | red => "31"
          | green => "32"
          | yellow => "33"
          | blue => "34"
          end) ++ text ++ escape "0".

Record Results := mkResults {
  total : nat;
  withIssues : nat;
  withWarnings : nat;
  perfect : nat;
  svgPlaceholders : nat;
  missingVideos : nat;
  insufficientContent : nat
}.

Record Report := mkReport {
  timestamp : string;
  summary : Results;
  articles : list Analysed
}.

(** The state of the loop over the files; [thrown] is the message of the
    error that ended the loop, if one did. *)
Record Loop := mkLoop {
  results : Results;
  detailedResults : list Analysed;
  printed : list WatchArticles.Console;
  thrown : option string
}.

Definition isSvg (i : Issue) : bool :=
  match i with SVG_PLACEHOLDERS _ _ => true | _ => false end.
Definition isMissingVideo (i : Issue) : bool :=
  match i with MISSING_VIDEO_EMBED _ _ => true | _ => false end.
Definition isInsufficient (i : Issue) : bool :=
  match i with INSUFFICIENT_CONTENT _ => true | _ => false end.

Definition count (f : Issue -> bool) (l : list Issue) : nat :=
  List.length (filter f l).

(** The line printed for an issue. *)
Definition issueLine (i : Issue) : WatchArticles.Console :=
  WatchArticles.Log
    (colorize
       match i with
       | SVG_PLACEHOLDERS n _ =>
           "   " ++ WatchArticles.count_string n ++ " SVG placeholder(s)"
       | MISSING_VIDEO_EMBED v _ => "   Missing video embed: " ++ shown v
       | INSUFFICIENT_CONTENT n =>
           "   Insufficient content: " ++ WatchArticles.count_string n ++ " chars"
       end red).

Section Verify.

(** [cheerio.load], and the message of the [TypeError] the engine raises
    when a property of [undefined] is read. *)
Variable load : string -> Dom.
Variable typeError : string.

Definition analyzeArticle (fs : WatchArticles.FileSystem) (filePath : string)
  : Analysed :=
  match WatchArticles.readFile fs filePath with
  | WatchArticles.ReadOk content => Done (analysisOf filePath (load content))
  | WatchArticles.ReadFails m => Failed (Str.basename filePath) m
  end.

(** The body of [for (const file of htmlFiles)].  An analysis whose error
    message is empty passes the test on [analysis.error] and fails on
    [analysis.issues.length], which ends the loop. *)
Definition step (fs : WatchArticles.FileSystem) (st : Loop) (file : string) : Loop :=
  let r := results st in
  let analysis := analyzeArticle fs (WatchArticles.articlePath file) in
  let counted :=
    {| total := S (total r); withIssues := withIssues r;
       withWarnings := withWarnings r; perfect := perfect r;
       svgPlaceholders := svgPlaceholders r; missingVideos := missingVideos r;
       insufficientContent := insufficientContent r |} in
  match thrown st, analysis with
  | Some _, _ => st
  | None, Failed name m =>
      if Str.is_empty m
      then
        {| results := counted;
           detailedResults := (detailedResults st ++ [analysis])%list;
           printed := printed st; thrown := Some typeError |}
      else
        {| results :=
             {| total := S (total r); withIssues := S (withIssues r);
                withWarnings := withWarnings r; perfect := perfect r;
                svgPlaceholders := svgPlaceholders r; missingVideos := missingVideos r;
                insufficientContent := insufficientContent r |};
           detailedResults := (detailedResults st ++ [analysis])%list;
           printed := (printed st
                         ++ [ WatchArticles.Log (colorize name red);
                              WatchArticles.Log (colorize ("   Error: " ++ m) red) ])%list;
           thrown := None |}
  | None, Done a =>
      let hasIssues := (0 <? List.length (issues a))%nat in
      let hasWarnings := (0 <? List.length (warnings a))%nat in
      {| results :=
           {| total := S (total r);
              withIssues := if hasIssues then S (withIssues r) else withIssues r;
              withWarnings := if hasWarnings then S (withWarnings r) else withWarnings r;
              perfect := if negb hasIssues && negb hasWarnings
                         then S (perfect r) else perfect r;
              svgPlaceholders := svgPlaceholders r + count isSvg (issues a);
              missingVideos := missingVideos r + count isMissingVideo (issues a);
              insufficientContent :=
                insufficientContent r + count isInsufficient (issues a) |};
         detailedResults := (detailedResults st ++ [analysis])%list;
         printed :=
           (printed st
              ++ (if hasIssues
                  then WatchArticles.Log (colorize (filename a) red)
                         :: map issueLine (issues a)
                  else if hasWarnings
                  then WatchArticles.Log (colorize (filename a) yellow)
                         :: map (fun w => WatchArticles.Log (colorize ("   " ++ w) yellow))
                              (warnings a)
                  else []))%list;
         thrown := None |}
  end.

Definition start : Results :=
  {| total := 0; withIssues := 0; withWarnings := 0; perfect := 0;
     svgPlaceholders := 0; missingVideos := 0; insufficientContent := 0 |}.

Definition loop (fs : WatchArticles.FileSystem) (out : list WatchArticles.Console)
    (htmlFiles : list string) : Loop :=
  fold_left (step fs) htmlFiles
    {| results := start; detailedResults := []; printed := out; thrown := None |}.

(** The time [new Date().toISOString()] gives, and the message of the error
    [fs.writeFile] throws on the report, if any.  A fatal error prints its
    message, then its stack trace, which is left out here. *)
Variable now : string.
Variable report_write_error : option string.

Definition fatal (out : list WatchArticles.Console) (m : string)
  : option Report * list WatchArticles.Console * WatchArticles.Outcome :=
  (None, (out ++ [WatchArticles.Error (colorize "Fatal error:" red ++ " " ++ m)])%list,
   WatchArticles.Exits 1).

(** The report file written, what is printed, and how the call ends. *)
Definition verifyArticles (fs : WatchArticles.FileSystem)
  : option Report * list WatchArticles.Console * WatchArticles.Outcome :=
  let banner := [WatchArticles.Log (colorize "Article Verification Report" blue)] in
  match WatchArticles.articles fs with
  | WatchArticles.ListFails m => fatal banner m
  | WatchArticles.ListOk entries =>
      let htmlFiles := WatchArticles.htmlFilesOf entries in
      let st :=
        loop fs
          (banner ++ [WatchArticles.Log
                        ("Found " ++ WatchArticles.count_string (List.length htmlFiles)
                           ++ " articles to verify")])%list
          htmlFiles in
      let r := results st in
      let out :=
        (printed st
           ++ [ WatchArticles.Log (colorize "Summary:" blue);
                WatchArticles.Log
                  ("  Total articles: " ++ WatchArticles.count_string (total r));
                WatchArticles.Log
                  (colorize ("  Perfect: " ++ WatchArticles.count_string (perfect r)) green);
                WatchArticles.Log
                  (colorize ("  With warnings: "
                               ++ WatchArticles.count_string (withWarnings r)) yellow);
                WatchArticles.Log
                  (colorize ("  With issues: "
                               ++ WatchArticles.count_string (withIssues r)) red);
                WatchArticles.Log "Issue Breakdown:";
                WatchArticles.Log
                  (colorize ("  SVG placeholders: "
                               ++ WatchArticles.count_string (svgPlaceholders r)) red);
                WatchArticles.Log
                  (colorize ("  Missing video embeds: "
                               ++ WatchArticles.count_string (missingVideos r)) red);
                WatchArticles.Log
                  (colorize ("  Insufficient content: "
                               ++ WatchArticles.count_string (insufficientContent r)) red)
              ])%list in
      match thrown st, report_write_error with
      | Some m, _ => fatal (printed st) m
      | None, Some m => fatal out m
      | None, None =>
          (Some {| timestamp := now; summary := r; articles := detailedResults st |},
           (out ++ [WatchArticles.Log
                      (colorize "Detailed report saved to article-verification-report.json"
                         blue)])%list,
           WatchArticles.Returns)
      end
  end.

End Verify.

(** The text holds no [c]. *)
Fixpoint freeOf (c : ascii) (s : string) : bool :=
  match s with
  | EmptyString => true
  | String x s' => negb (Ascii.eqb x c) && freeOf c s'
  end.

(** Reading the file fails. *)
Definition unreadable (fs : WatchArticles.FileSystem) (file : string) : bool :=
  match WatchArticles.readFile fs (WatchArticles.articlePath file) with
  | WatchArticles.ReadOk _ => false
  | WatchArticles.ReadFails _ => true
  end.

(** The number of files that cannot be read. *)
Definition failures (fs : WatchArticles.FileSystem) (files : list string) : nat :=
  List.length (filter (unreadable fs) files).

(** The literal text [p] and the text [s] differ at a position both of
    them have. *)
Fixpoint differs (p s : string) : bool :=
  match p, s with
  | String a p', String b s' => if Ascii.eqb a b then differs p' s' else true
  | _, _ => false
  end.

(** At no position of [c] can the literal text [p] be read, whatever
    follows [c]. *)
Fixpoint clear (p c : string) : bool :=
  match c with
  | EmptyString => true
  | String _ c' => differs p c && clear p c'
  end.

End VerifyArticles.

(** ** Expiry of the trending flag: [expireTrendingArticles] *)

Module ExpireTrending.

Import WatchArticles.

(** What reading [config.json] gives: an error thrown while the file is
    read, parsed or looked into, or the value of [trendingTimeLimit], a
    number of whole days when it is there. *)
Inductive Config :=
| ConfigFails (message : string)
| ConfigOk (trendingTimeLimit : option Z).

(** [config.trendingTimeLimit || 3] *)
Definition limitOf (trendingTimeLimit : option Z) : Z :=
  match trendingTimeLimit with
  | Some n => if (n =? 0)%Z then 3%Z else n
  | None => 3%Z
  end.

(** The element [trendingRegex] describes, and the text that replaces it. *)
Definition tag (value : string) : string :=
  meta_open "article-trending" ++ value ++ String Str.dq ">".

(** One alternative of the capture group, then the end of the element: the
    text captured and the text after the match. *)
Definition value_here (v r : string) : option (string * string) :=
  match Str.strip_prefix_ci v r with
  | Some r1 =>
      match Str.strip_prefix_ci (String Str.dq ">") r1 with
      | Some after => Some (String.substring 0 (String.length v) r, after)
      | None => None
      end
  | None => None
  end.

(** One attempt of [trendingRegex] at the front of [s]. *)
Definition tag_here (s : string) : option (string * string) :=
  match Str.strip_prefix_ci (meta_open "article-trending") s with
  | Some r =>
      match value_here "true" r with
      | Some m => Some m
      | None => value_here "false" r
      end
  | None => None
  end.

(** The leftmost match of [trendingRegex]: the text before it, the capture
    and the text after it. *)
Fixpoint findTag (s : string) : option (string * string * string) :=
  match tag_here s with
  | Some (v, after) => Some (EmptyString, v, after)
  | None =>
      match s with
      | EmptyString => None
      | String c s' =>
          match findTag s' with
          | Some (before, v, after) => Some (String c before, v, after)
          | None => None
          end
      end
  end.

(** [content.match(trendingRegex)?.[1]] *)
Definition currentValue (content : string) : option string :=
  match findTag content with
  | Some (_, v, _) => Some v
  | None => None
  end.

(** [content.replace(trendingRegex, replacement)], for a replacement free
    of [$]. *)
Definition replaceTag (replacement content : string) : string :=
  match findTag content with
  | Some (before, _, after) => before ++ replacement ++ after
  | None => content
  end.

(** [isTooOldForTrending] at the clock reading [now]; a date is a time
    value in milliseconds, [None] for an invalid date, on which the
    comparison is false. *)
Definition isTooOldForTrending (now : Z) (articleDate : option Z)
    (trendingTimeLimitDays : Z) : bool :=
  match articleDate with
  | Some t => (trendingTimeLimitDays * 86400000 <? now - t)%Z
  | None => false
  end.

(** [updateArticleTrending]: whether the file was rewritten, the disk
    afterwards and what is printed. *)
Definition updateArticleTrending (d : ValidateUrls.Disk) (filePath : string)
    (shouldBeTrending : bool) : bool * ValidateUrls.Disk * list Console :=
  let failed m :=
    [Error ("  Error updating " ++ Str.basename filePath ++ ": " ++ m)] in
  match ValidateUrls.readArticle d filePath with
  | ReadFails m => (false, d, failed m)
  | ReadOk content =>
      match currentValue content with
      | None =>
          (false, d,
           [Log ("  No article-trending meta tag found in " ++ Str.basename filePath)])
      | Some current =>
          let newValue := if shouldBeTrending then "true" else "false" in
          if negb (String.eqb current newValue)
          then
            match ValidateUrls.writeArticle d filePath (replaceTag (tag newValue) content) with
            | (d', Some m) => (false, d', failed m)
            | (d', None) => (true, d', [])
            end
          else (false, d, [])
      end
  end.

(** The state of the loop over the files; [clockReads] counts the readings
    of the clock so far. *)
Record Loop := mkLoop {
  disk : ValidateUrls.Disk;
  processedCount : nat;
  expiredCount : nat;
  clockReads : nat;
  printed : list Console
}.

Section Expire.

(** [new Date(s)] as a time value, and the successive readings of the
    clock. *)
Variable Date_parse : string -> option Z.
Variable clock : nat -> Z.
Variable trendingTimeLimit : Z.

(** [getMetaContent] is the pattern of the watcher's [getMeta], with
    [null] where nothing matches. *)
Definition getMetaContent (content name : string) : option string :=
  regex_match name content.

(** The body of [for (const file of htmlFiles)]. *)
Definition step (st : Loop) (file : string) : Loop :=
  let filePath := articlePath file in
  match ValidateUrls.readArticle (disk st) filePath with
  | ReadFails m =>
      {| disk := disk st; processedCount := processedCount st;
         expiredCount := expiredCount st; clockReads := clockReads st;
         printed := (printed st ++ [Error ("Error processing " ++ file ++ ": " ++ m)])%list |}
  | ReadOk content =>
      let isTrending :=
        match getMetaContent content "article-trending" with
        | Some v => String.eqb v "true"
        | None => false
        end in
      match getMetaContent content "article-date" with
      | None | Some EmptyString =>
          {| disk := disk st; processedCount := processedCount st;
             expiredCount := expiredCount st; clockReads := clockReads st;
             printed := (printed st
                           ++ [Log (file ++ ": No article-date found, skipping")])%list |}
      | Some articleDate =>
          let tooOld :=
            isTooOldForTrending (clock (clockReads st)) (Date_parse articleDate)
              trendingTimeLimit in
          if isTrending && tooOld
          then
            match updateArticleTrending (disk st) filePath false with
            | (updated, d', out) =>
                {| disk := d'; processedCount := S (processedCount st);
                   expiredCount := if updated then S (expiredCount st) else expiredCount st;
                   clockReads := S (clockReads st);
                   printed :=
                     (printed st
                        ++ [ Log (file ++ ":"); Log ("   Date: " ++ articleDate);
                             Log "   Status: Expiring trending status" ]
                        ++ out
                        ++ [ Log (if updated then "   Updated successfully"
                                  else "   No update needed") ])%list |}
            end
          else
            {| disk := disk st; processedCount := S (processedCount st);
               expiredCount := expiredCount st; clockReads := S (clockReads st);
               printed :=
                 if isTrending
                 then (printed st
                         ++ [Log (file ++ ": Still trending (" ++ articleDate ++ ")")])%list
                 else printed st |}
      end
  end.

(** The page [c] is one the loop rewrites when it meets it at the clock
    reading [n]. *)
Definition due (n : nat) (c : string) : Prop :=
  exists date t v,
    regex_match "article-trending" c = Some "true"
    /\ regex_match "article-date" c = Some date
    /\ Date_parse date = Some t
    /\ (trendingTimeLimit * 86400000 < clock n - t)%Z
    /\ currentValue c = Some v /\ v <> "false".

(** The articles whose generated pages the loop meets from the clock
    reading [n] on, each with whether its page is to be rewritten. *)
Fixpoint expiry (n : nat) (articles : list ExtractArticles.Article)
  : list (ExtractArticles.Article * bool) :=
  match articles with
  | [] => []
  | a :: rest =>
      if Str.is_empty (ExtractArticles.publishDate a)
      then (a, false) :: expiry n rest
      else (a, ExtractArticles.isTrending a
               && isTooOldForTrending (clock n)
                    (Date_parse (ExtractArticles.publishDate a)) trendingTimeLimit)
             :: expiry (S n) rest
  end.

Definition loop (d : ValidateUrls.Disk) (out : list Console) (htmlFiles : list string)
  : Loop :=
  fold_left step htmlFiles
    {| disk := d; processedCount := 0; expiredCount := 0; clockReads := 0;
       printed := out |}.

End Expire.

Definition fatal (d : ValidateUrls.Disk) (out : list Console) (m : string)
  : ValidateUrls.Disk * list Console * Outcome :=
  (d, (out ++ [Error ("Fatal error: " ++ m)])%list, Exits 1).

Definition expireTrendingArticles (Date_parse : string -> option Z) (clock : nat -> Z)
    (config : Config) (d : ValidateUrls.Disk)
  : ValidateUrls.Disk * list Console * Outcome :=
  let start := [Log "Starting trending articles expiration process..."] in
  match config with
  | ConfigFails m => fatal d start m
  | ConfigOk configured =>
      let trendingTimeLimit := limitOf configured in
      let limit :=
        (start ++ [Log ("Trending time limit: " ++ Str.of_Z trendingTimeLimit
                          ++ " days")])%list in
      match ValidateUrls.dir d with
      | ListFails m => fatal d limit m
      | ListOk entries =>
          let htmlFiles := htmlFilesOf entries in
          let st :=
            loop Date_parse clock trendingTimeLimit d
              (limit ++ [Log ("Found " ++ count_string (List.length htmlFiles)
                                ++ " article files")])%list
              htmlFiles in
          (disk st,
           (printed st
              ++ [ Log "Processing complete";
                   Log ("  Processed: " ++ count_string (processedCount st) ++ " articles");
                   Log ("  Expired: " ++ count_string (expiredCount st)
                          ++ " trending articles") ])%list,
           Returns)
      end
  end.

(** The article with its trending flag off. *)
Definition cooled (a : ExtractArticles.Article) : ExtractArticles.Article :=
  ExtractArticles.mkSource
    (ExtractArticles.id a) (ExtractArticles.title a) (ExtractArticles.author a)
    (ExtractArticles.publishDate a) (ExtractArticles.category a)
    (ExtractArticles.excerpt a) (ExtractArticles.readTime a)
    (ExtractArticles.sourceUrl a) (ExtractArticles.bannerImage a)
    (ExtractArticles.thumbnailImage a) (ExtractArticles.fullContent a)
    false (ExtractArticles.isVideo a) (ExtractArticles.videoUrl a)
    (ExtractArticles.isJob a).

(** The entry of an article's page in the directory, rewritten or not, and
    the record the index is to hold for it. *)
Definition pageAfter (x : ExtractArticles.Article * bool) : string * Read :=
  (ExtractArticles.filenameOf (fst x),
   ReadOk (if snd x
           then replaceTag (tag "false") (ExtractArticles.generateArticleHTML (fst x))
           else ExtractArticles.generateArticleHTML (fst x))).

Definition recordAfter (x : ExtractArticles.Article * bool) : ArticleRecord :=
  MetaScan.recordOf (articlePath (ExtractArticles.filenameOf (fst x)))
    (if snd x then cooled (fst x) else fst x).

(** The match found further on, with [c] put in front of the text before
    it. *)
Definition behind (c : string) (m : option (string * string * string))
  : option (string * string * string) :=
  match m with
  | Some (before, v, after) => Some (c ++ before, v, after)
  | None => None
  end.

(** The text between the value of one meta element and the name of the
    next. *)
Definition lead7 : string := String Str.dq (">" ++ ExtractArticles.nl ++ "    ").

(** The badge the template shows in the body of a trending article. *)
Definition trendingBadge : string := "<span><strong>🔥 Trending</strong></span>".

End ExpireTrending.

(** ** Notions used to state further properties *)

Module Notions.

Import WatchArticles.

(** An event that leads to a call of [regenerateArticlesJSON], at once or
    through the timer. *)
Definition triggers (e : Event) : bool :=
  qualifying e || match kind e with ready => true | _ => false end.

(** Each event comes more than a second after the one before it. *)
Fixpoint spacedOut (t : Z) (events : list Event) : bool :=
  match events with
  | [] => true
  | e :: rest => (t + 1000 <? at_time e)%Z && spacedOut (at_time e) rest
  end.

(** At most one timer is pending, and it is the one whose handle the
    closure holds. *)
Definition oneTimer (w : Watcher) : Prop :=
  timers w = [] \/ exists h t, timers w = [(h, t)] /\ regenerateTimeout w = Some h.

(** The stream is empty or its first event comes after [t]. *)
Definition startsAfter (t : Z) (events : list Event) : bool :=
  match events with
  | [] => true
  | e :: _ => (t <? at_time e)%Z
  end.

(** The qualifying events of the stream come more than a second apart,
    whatever other events stand between them. *)
Definition apart (events : list Event) : bool :=
  match filter qualifying events with
  | [] => true
  | q :: qs => spacedOut (at_time q) qs
  end.

Definition isReady (e : Event) : bool :=
  match kind e with
  | ready => true
  | _ => false
  end.

(** The events come in the order of their times, none before [t]. *)
Fixpoint chronological (t : Z) (events : list Event) : bool :=
  match events with
  | [] => true
  | e :: rest => (t <=? at_time e)%Z && chronological (at_time e) rest
  end.

(** Two watchers with the same timers pending, handles apart, the first
    having made the rebuilds [pre] before those of the second. *)
Definition alike (pre : list Z) (w1 w2 : Watcher) : Prop :=
  oneTimer w1 /\ oneTimer w2
  /\ map snd (timers w1) = map snd (timers w2)
  /\ rebuilds w1 = (pre ++ rebuilds w2)%list.

(** All that the watcher has rebuilt and is still to rebuild. *)
Definition owed (w : Watcher) : list Z := (rebuilds w ++ map snd (timers w))%list.

(** No rebuild was made after [t], and every pending timer is due after
    [t]. *)
Definition upTo (t : Z) (w : Watcher) : Prop :=
  Forall (fun r => r <= t)%Z (rebuilds w)
  /\ Forall (fun x => t < snd x)%Z (timers w)
  /\ StronglySorted Z.le (rebuilds w).

End Notions.

(** ** Sample inputs *)

Module Samples.

Import WatchArticles.

Definition meta (name content : string) : string :=
  "<meta name=" ++ String Str.dq name ++ String Str.dq " content="
    ++ String Str.dq content ++ String Str.dq ">".

Definition page (metas : list (string * string)) : string :=
  "<html><head>" ++ concat "" (map (fun m => meta (fst m) (snd m)) metas)
    ++ "</head><body></body></html>".

Definition onDisk (entries : list (string * Read)) : FileSystem :=
  {| articles := ListOk entries; index := None; index_write_error := None |}.

(** Three article files, one without the id marker, and a stray note. *)
Definition threeFiles : list (string * Read) :=
  [ ("one.html", ReadOk (page [("article-id", "a1"); ("article-date", "2025-11-09");
                               ("og:image", "https://img.example/1.png")]));
    ("two.html", ReadOk (page [("og:title", "No id here")]));
    ("notes.txt", ReadOk "not an article");
    ("three.html", ReadOk (page [("article-id", "a3"); ("article-date", "2025-11-10")])) ].

(** Two article files carrying the same id. *)
Definition sameId : list (string * Read) :=
  [ ("first.html", ReadOk (page [("article-id", "a1"); ("article-date", "2025-11-09")]));
    ("copy.html", ReadOk (page [("article-id", "a1"); ("article-date", "2025-11-10")])) ].

(** An article without a date, scanned before one dated before 1970. *)
Definition undatedAndOld : list (string * Read) :=
  [ ("undated.html", ReadOk (page [("article-id", "u")]));
    ("old.html", ReadOk (page [("article-id", "o"); ("article-date", "1969-07-20")])) ].

(** An article whose date no parser reads, scanned before a dated one. *)
Definition unreadableDate : list (string * Read) :=
  [ ("soon.html", ReadOk (page [("article-id", "s"); ("article-date", "soon")]));
    ("new.html", ReadOk (page [("article-id", "n"); ("article-date", "2025-11-10")])) ].

(** A source article as the data file gives it. *)
Definition launch : ExtractArticles.Article :=
  ExtractArticles.mkSource "a42" "Launch Day: What's Next?" "" "2025-11-10" "Tech"
    "An excerpt" "5" "https://src.example/launch" "https://img.example/b.png"
    "https://img.example/t.png" "<p>Body</p>" true false "" true.

(** Two articles whose titles sanitize to the same file name. *)
Definition hello : ExtractArticles.Article :=
  ExtractArticles.mkSource "a1" "Hello World" "" "" "" "" "" "" "" "" ""
    false false "" false.

Definition helloAgain : ExtractArticles.Article :=
  ExtractArticles.mkSource "a2" "Hello, world!" "" "" "" "" "" "" "" "" ""
    false false "" false.

Definition missingDirectory : FileSystem :=
  {| articles := ListFails "ENOENT: no such file or directory, scandir './articles'";
     index := None; index_write_error := None |}.

(** add, change, add for three files within a second and a half. *)
Definition burst : list Event :=
  [ mkEvent 0 add "articles/a.html";
    mkEvent 700 change "articles/b.html";
    mkEvent 1400 add "articles/c.html" ].

Import ValidateUrls.

(** A network on which exactly the listed addresses answer 200 and every
    other probe fails to complete. *)
Definition alive (live : list string) : Network :=
  fun _ u =>
    if existsb (String.eqb u) live
    then Resolves {| resp_status := 200; resp_redirected := false; resp_url := u |}
    else Rejects "getaddrinfo ENOTFOUND".

(** A network on which every probe completes with the given status. *)
Definition answering (code : Z) : Network :=
  fun _ u => Resolves {| resp_status := code; resp_redirected := false; resp_url := u |}.

Fixpoint upToSlash (s : string) : string :=
  match s with
  | EmptyString => EmptyString
  | String c s' => if Ascii.eqb c "/"%char then EmptyString else String c (upToSlash s')
  end.

(** The host name [new URL] reports for the sample addresses, which are
    of the plain form scheme, host, path; the constructor throws on an
    address without a host. *)
Definition hostOf (u : string) : option string :=
  let rest := if Str.startsWith "https://" u then Str.drop 8 u
              else if Str.startsWith "http://" u then Str.drop 7 u
              else "" in
  if Str.is_empty (upToSlash rest) then None else Some (upToSlash rest).

(** A document whose only URL-carrying elements are images. *)
Definition imagesOnly (srcs : list string) : Cheerio :=
  fun _ sel => match sel with img_src => srcs | _ => [] end.

Definition img (src : string) : string :=
  "<img src=" ++ String Str.dq src ++ String Str.dq ">".

Definition diskOf (entries : list (string * Read)) : Disk :=
  {| dir := ListOk entries; written := []; report := None;
     write_error := fun _ => None |}.

Definition deadHttps : string := "https://dead.example/x.jpg".
Definition deadHttp : string := "http://dead.example/x.jpg".

(** One article with one image, twice in the text. *)
Definition oneImage (src : string) : list (string * Read) :=
  [ ("story.html", ReadOk ("<p>" ++ img src ++ "</p><p>" ++ img src ++ "</p>")) ].

Definition unreadableDisk : Disk :=
  {| dir := ListFails "ENOENT: no such file or directory, scandir './articles'";
     written := []; report := None; write_error := fun _ => None |}.

End Samples.

(** ** Properties of the index regeneration *)

Module WatchFacts.

Import WatchArticles Notions.

(** *** The extractor and the scan *)

Lemma readFile_articles fs fs' p :
  articles fs = articles fs' -> readFile fs p = readFile fs' p.
Proof. unfold readFile. intros ->. reflexivity. Qed.

Lemma extract_articles fs fs' p :
  articles fs = articles fs' ->
  extractMetadataFromHTML fs p = extractMetadataFromHTML fs' p.
Proof.
  intros H. unfold extractMetadataFromHTML. now rewrite (readFile_articles _ _ _ H).
Qed.

Lemma collect_articles fs fs' files :
  articles fs = articles fs' -> collect fs files = collect fs' files.
Proof.
  intros H. induction files as [|f files IH]; simpl; [reflexivity|].
  now rewrite (extract_articles _ _ _ H), IH.
Qed.

(** Every record kept by the scan was built by [metadataOf] and has an id. *)
Lemma collect_kept fs files r :
  In r (fst (collect fs files)) ->
  (exists p c, r = metadataOf p c) /\ Str.is_empty (id r) = false.
Proof.
  induction files as [|f files IH]; simpl; [tauto|].
  unfold extractMetadataFromHTML.
  destruct (readFile fs (articlePath f)) as [c|m];
    destruct (collect fs files) as [kept out']; simpl in *; auto.
  destruct (Str.is_empty (getMeta c "article-id")) eqn:E; simpl; auto.
  intros [<-|H]; auto. split; [eauto|exact E].
Qed.

(** *** The sort *)

Section Sorting.

Variable Date_parse : string -> option Z.

Abbreviation sort := (sort Date_parse).
Abbreviation insert := (insert Date_parse).
Abbreviation timeOf := (timeOf Date_parse).
Abbreviation dated := (dated Date_parse).

Abbreviation newerFirst := (newerFirst Date_parse).

Lemma insert_perm x l : Permutation (insert x l) (x :: l).
Proof.
  induction l as [|y l IH]; simpl; [reflexivity|].
  destruct (sortCompare Date_parse x y <=? 0)%Z; [reflexivity|].
  rewrite IH. apply perm_swap.
Qed.

Lemma sort_perm l : Permutation (sort l) l.
Proof.
  induction l as [|x l IH]; simpl; [reflexivity|].
  rewrite insert_perm. now constructor.
Qed.

Lemma sort_In r l : In r (sort l) <-> In r l.
Proof.
  split; apply Permutation_in; [apply sort_perm | symmetry; apply sort_perm].
Qed.

Lemma sortCompare_dated a b :
  dated a = true -> dated b = true ->
  sortCompare Date_parse a b = (timeOf b - timeOf a)%Z.
Proof.
  unfold dated, sortCompare, compareFn, timeOf.
  destruct (dateOf Date_parse a), (dateOf Date_parse b); congruence.
Qed.

Lemma insert_sorted x l :
  dated x = true -> Forall (fun r => dated r = true) l ->
  StronglySorted newerFirst l -> StronglySorted newerFirst (insert x l).
Proof.
  intros Hx Hl Hs. induction Hs as [|y l Hs IH Hy]; simpl.
  - repeat constructor.
  - inversion Hl as [|? ? Hdy Hl']; subst.
    rewrite (sortCompare_dated _ _ Hx Hdy).
    destruct (timeOf y - timeOf x <=? 0)%Z eqn:E.
    + apply Z.leb_le in E. constructor; [now constructor|].
      constructor; [unfold newerFirst; lia|].
      eapply Forall_impl; [|exact Hy]. unfold newerFirst. intros; lia.
    + apply Z.leb_gt in E. constructor; [auto|].
      eapply Permutation_Forall; [symmetry; apply insert_perm|].
      constructor; [unfold newerFirst; lia|exact Hy].
Qed.

Lemma sort_sorted l :
  Forall (fun r => dated r = true) l -> StronglySorted newerFirst (sort l).
Proof.
  induction 1 as [|x l Hx Hl IH]; simpl; [constructor|].
  apply insert_sorted; auto.
  eapply Permutation_Forall; [symmetry; apply sort_perm|exact Hl].
Qed.

(** Inserting a record leaves it in front of the records of its own
    date: the sort is stable. *)
Lemma insert_stable t x l :
  dated x = true -> Forall (fun r => dated r = true) l ->
  StronglySorted newerFirst l ->
  filter (fun r => timeOf r =? t)%Z (insert x l)
  = filter (fun r => timeOf r =? t)%Z (x :: l).
Proof.
  intros Hx Hl Hs. induction Hs as [|y l Hs IH Hy]; [reflexivity|].
  inversion Hl as [|? ? Hdy Hl']; subst. simpl insert.
  rewrite (sortCompare_dated _ _ Hx Hdy).
  destruct (timeOf y - timeOf x <=? 0)%Z eqn:E; [reflexivity|].
  apply Z.leb_gt in E.
  cbn [filter]. rewrite (IH Hl'). cbn [filter].
  destruct (timeOf y =? t)%Z eqn:Ey, (timeOf x =? t)%Z eqn:Ex; auto.
  apply Z.eqb_eq in Ey, Ex. lia.
Qed.

Lemma sort_stable t l :
  Forall (fun r => dated r = true) l ->
  filter (fun r => timeOf r =? t)%Z (sort l) = filter (fun r => timeOf r =? t)%Z l.
Proof.
  induction 1 as [|x l Hx Hl IH]; [reflexivity|]. simpl sort.
  rewrite insert_stable; auto.
  - simpl. now rewrite IH.
  - eapply Permutation_Forall; [symmetry; apply sort_perm|exact Hl].
  - now apply sort_sorted.
Qed.

Lemma sorted_positions (R : ArticleRecord -> ArticleRecord -> Prop) l :
  StronglySorted R l ->
  forall i j a b, (i < j)%nat ->
    nth_error l i = Some a -> nth_error l j = Some b -> R a b.
Proof.
  induction 1 as [|x l Hs IH Hx]; intros i j a b Hij Ha Hb.
  - destruct i; discriminate.
  - destruct j as [|j]; [lia|]. simpl in Hb. destruct i as [|i].
    + injection Ha as <-. rewrite Forall_forall in Hx.
      apply Hx. eapply nth_error_In; eauto.
    + simpl in Ha. apply (IH i j); auto. lia.
Qed.

End Sorting.

(** *** Reading back what the listing holds *)

Lemma articlePath_read fs entries f :
  articles fs = ListOk entries -> readFile fs (articlePath f) = lookup f entries.
Proof. unfold readFile. intros ->. reflexivity. Qed.

Lemma lookup_own entries n r :
  NoDup (map fst entries) -> In (n, r) entries -> lookup n entries = r.
Proof.
  induction entries as [|[n' r'] entries IH]; simpl; [tauto|].
  intros Hnd [H|H].
  - injection H as -> ->. now rewrite String.eqb_refl.
  - inversion Hnd as [|? ? Hnot Hnd']; subst.
    destruct (String.eqb_spec n' n) as [->|_]; [|auto].
    exfalso. apply Hnot. change n with (fst (n, r)). now apply in_map.
Qed.

(** The ids of the records kept by the scan are those the files carry,
    as soon as reading a listed name gives that entry's own content. *)
Lemma collect_ids fs entries es :
  articles fs = ListOk entries ->
  (forall e, In e es -> lookup (fst e) entries = snd e) ->
  map id (fst (collect fs (htmlFilesOf es))) = fileIds es.
Proof.
  intros Hfs. induction es as [|[n r] es IH]; intros Hown; [reflexivity|].
  unfold htmlFilesOf in *. cbn [map fst filter fileIds flat_map snd].
  assert (IH' := IH (fun e He => Hown e (or_intror He))). clear IH.
  destruct (Str.endsWith ".html" n) eqn:En.
  - pose proof (Hown (n, r) (or_introl eq_refl)) as Hnr. cbn [fst snd] in Hnr.
    cbn [collect]. unfold extractMetadataFromHTML.
    rewrite (articlePath_read _ _ _ Hfs), Hnr.
    destruct (collect fs (filter (Str.endsWith ".html") (map fst es))) as [kept out'].
    cbn [fst] in IH'. unfold fileIds in IH'.
    destruct r as [c|m]; cbn [fst id metadataOf].
    + destruct (Str.is_empty (getMeta c "article-id")) eqn:E; cbn [fst map app].
      * exact IH'.
      * now rewrite IH'.
    + exact IH'.
  - exact IH'.
Qed.

(** *** The claims *)

(** C10. Every record the extractor builds, and therefore every record of
    a regenerated index, has its thumbnailImage equal to its bannerImage:
    both are read from the same og:image marker. *)
Theorem thumbnail_is_banner (Date_parse : string -> option Z)
    (fs : FileSystem) (entries : list (string * Read)) (filePath : string) :
  match fst (extractMetadataFromHTML fs filePath) with
  | Some r => thumbnailImage r = bannerImage r
              /\ bannerImage r = match readFile fs filePath with
                                 | ReadOk c => getMeta c "og:image"
                                 | ReadFails _ => ""
                                 end
  | None => True
  end
  /\ Forall (fun r => thumbnailImage r = bannerImage r)
       (indexRecords Date_parse fs entries).
Proof.
  split.
  - unfold extractMetadataFromHTML.
    destruct (readFile fs filePath); simpl; auto.
  - apply Forall_forall. intros r Hr. unfold indexRecords in Hr.
    apply sort_In in Hr. apply collect_kept in Hr.
    destruct Hr as [(p & c & ->) _]. reflexivity.
Qed.

(** C7, as amended. The ids of the index records are, up to order, the
    non-empty ids carried by the readable article files of the directory,
    each listed once per file carrying it: every such file contributes
    exactly one record, a file whose id is empty or that cannot be read
    contributes none, and an id shared by several files appears once for
    each of them. *)
Theorem index_ids_are_file_ids (Date_parse : string -> option Z)
    (fs : FileSystem) (entries : list (string * Read)) :
  articles fs = ListOk entries ->
  NoDup (map fst entries) ->
  Permutation (map id (indexRecords Date_parse fs entries)) (fileIds entries)
  /\ Forall (fun r => id r <> "") (indexRecords Date_parse fs entries)
  /\ (forall i, count_occ string_dec (map id (indexRecords Date_parse fs entries)) i
                = count_occ string_dec (fileIds entries) i).
Proof.
  intros Hfs Hnd.
  assert (P : Permutation (map id (indexRecords Date_parse fs entries)) (fileIds entries)).
  { unfold indexRecords.
    rewrite <- (collect_ids fs entries entries Hfs).
    - apply Permutation_map, sort_perm.
    - intros [n r] He. now apply lookup_own. }
  split; [exact P|]. split.
  - apply Forall_forall. intros r Hr. unfold indexRecords in Hr.
    apply sort_In in Hr. apply collect_kept in Hr. destruct Hr as [_ E].
    intros H. rewrite H in E. discriminate.
  - intros i. now apply Permutation_count_occ.
Qed.

Ltac distinct := repeat constructor; simpl; intuition discriminate.

Lemma index_ids_are_file_ids_witness :
  Permutation
    (map id (indexRecords Date_parse_iso (Samples.onDisk Samples.threeFiles)
               Samples.threeFiles))
    ["a1"; "a3"].
Proof.
  apply (index_ids_are_file_ids Date_parse_iso (Samples.onDisk Samples.threeFiles)
           Samples.threeFiles).
  - reflexivity.
  - distinct.
Defined.

(** C7 as stated fails: two files carrying the id a1 give an index with two
    records of that id, not exactly one. *)
Lemma shared_id_listed_twice :
  In "a1" (fileIds Samples.sameId)
  /\ count_occ string_dec
       (map id (indexRecords Date_parse_iso (Samples.onDisk Samples.sameId)
                  Samples.sameId)) "a1" = 2%nat.
Proof. split; [left; reflexivity | reflexivity]. Qed.

(** C2, as amended. When the date of every record of the index is either
    missing or one the date parser accepts, a record dated later than
    another stands before it and records of equal date keep their scan
    order; a missing date counts as 1970-01-01, so a record without a date
    comes after those dated later than that day and before those dated
    earlier.  Nothing is said of an index holding a date the parser
    rejects. *)
Theorem index_newest_first (Date_parse : string -> option Z)
    (fs : FileSystem) (entries : list (string * Read)) :
  let scanned := fst (collect fs (htmlFilesOf entries)) in
  let idx := indexRecords Date_parse fs entries in
  Forall (fun r => dated Date_parse r = true) scanned ->
  (forall i j a b,
      nth_error idx i = Some a -> nth_error idx j = Some b ->
      (timeOf Date_parse b < timeOf Date_parse a)%Z -> (i < j)%nat)
  /\ (forall t,
         filter (fun r => timeOf Date_parse r =? t)%Z idx
         = filter (fun r => timeOf Date_parse r =? t)%Z scanned)
  /\ (forall r, Str.is_empty (publishDate r) = true ->
                dateOf Date_parse r = Date_parse "1970-01-01").
Proof.
  intros scanned idx Hd. split; [|split].
  - intros i j a b Ha Hb Hlt.
    pose proof (sort_sorted Date_parse scanned Hd) as Hs.
    fold (indexRecords Date_parse fs entries) in Hs. fold idx in Hs.
    destruct (Nat.lt_trichotomy i j) as [H|[H|H]]; [exact H| |].
    + subst j. rewrite Ha in Hb. injection Hb as ->. lia.
    + pose proof (sorted_positions _ idx Hs j i b a H Hb Ha) as Hba.
      unfold newerFirst in Hba. lia.
  - intros t. apply sort_stable, Hd.
  - intros r Hr. unfold dateOf. now rewrite Hr.
Qed.

Lemma index_newest_first_witness :
  map id (filter (fun r => timeOf Date_parse_iso r =? 1762732800000)%Z
            (indexRecords Date_parse_iso (Samples.onDisk Samples.threeFiles)
               Samples.threeFiles))
  = ["a3"].
Proof.
  pose proof (index_newest_first Date_parse_iso (Samples.onDisk Samples.threeFiles)
                Samples.threeFiles) as H.
  cbv zeta in H.
  assert (Hd : Forall (fun r => dated Date_parse_iso r = true)
                 (fst (collect (Samples.onDisk Samples.threeFiles)
                         (htmlFilesOf Samples.threeFiles)))).
  { repeat constructor. }
  destruct (H Hd) as (_ & Hstable & _).
  rewrite Hstable. reflexivity.
Defined.

(** C2 as stated fails: a record without a date is ordered as 1970-01-01,
    not as the oldest possible date, so it stands before a record whose
    date is parsable and earlier than 1970. *)
Lemma undated_before_older :
  exists a b,
    indexRecords Date_parse_iso (Samples.onDisk Samples.undatedAndOld)
      Samples.undatedAndOld = [a; b]
    /\ publishDate a = ""
    /\ publishDate b = "1969-07-20"
    /\ Date_parse_iso (publishDate b) = Some (-14256000000)%Z.
Proof. do 2 eexists. repeat split. Qed.

(** A date the parser rejects makes the comparison NaN, which the sort
    reads as a tie: the record keeps its scan position, here in front of a
    record with a valid date. *)
Example unreadable_date_keeps_scan_position :
  map id (indexRecords Date_parse_iso (Samples.onDisk Samples.unreadableDate)
            Samples.unreadableDate)
  = ["s"; "n"]
  /\ Date_parse_iso "soon" = None.
Proof. split; reflexivity. Qed.

(** C8. Regenerating the index again, on the file system the first
    regeneration left behind, writes the same bytes: the second run gives
    the same index file, the same console output and the same file
    system. *)
Theorem regenerate_twice (Date_parse : string -> option Z) (fs : FileSystem) :
  let first := regenerateArticlesJSON Date_parse fs in
  let second := regenerateArticlesJSON Date_parse (fst (fst first)) in
  index (fst (fst second)) = index (fst (fst first))
  /\ second = first
  /\ (forall entries,
         articles fs = ListOk entries -> index_write_error fs = None ->
         index (fst (fst first))
         = Some (JSON_stringify (indexRecords Date_parse fs entries))).
Proof.
  cbv zeta.
  assert (E : regenerateArticlesJSON Date_parse
                (fst (fst (regenerateArticlesJSON Date_parse fs)))
              = regenerateArticlesJSON Date_parse fs).
  { unfold regenerateArticlesJSON at 2.
    destruct (articles fs) as [entries|m] eqn:Ha.
    - destruct (collect fs (htmlFilesOf entries)) as [kept out] eqn:Hc.
      destruct (index_write_error fs) as [m|] eqn:Hw; cbn [fst].
      + unfold regenerateArticlesJSON. now rewrite Ha, Hc, Hw.
      + unfold regenerateArticlesJSON. cbn [articles index_write_error].
        rewrite Ha.
        rewrite (collect_articles _ fs (htmlFilesOf entries)); [|now rewrite Ha].
        now rewrite Hc, Hw.
    - cbn [fst]. unfold regenerateArticlesJSON. now rewrite Ha. }
  split; [now rewrite E|]. split; [exact E|].
  intros entries Ha Hw. unfold regenerateArticlesJSON, indexRecords.
  rewrite Ha, Hw. now destruct (collect fs (htmlFilesOf entries)).
Qed.

(** *** The debounce *)

(** The time of the last event of a non-empty sequence. *)
Lemma last_cons_time (events : list Event) :
  forall e d,
    at_time (last (e :: events) d)
    = at_time (last events (mkEvent (at_time e) add "")).
Proof.
  induction events as [|x xs IH]; intros e d; [reflexivity|].
  change (last (e :: x :: xs) d) with (last (x :: xs) d).
  now rewrite (IH x d), (IH x (mkEvent (at_time e) add "")).
Qed.

(** The timer the closure holds. *)

Lemma clearTimeout_own (h : nat) (t : Z) : clearTimeout h [(h, t)] = [].
Proof. unfold clearTimeout. cbn. now rewrite Nat.eqb_refl. Qed.

Lemma advance_oneTimer (now : Z) (w : Watcher) : oneTimer w -> oneTimer (advance now w).
Proof.
  intros [H|(h & t & H & Hh)]; unfold oneTimer, advance; cbn [timers regenerateTimeout];
    rewrite H; cbn [filter snd].
  - now left.
  - destruct (t <=? now)%Z; cbn [negb]; [now left|right; eauto].
Qed.

Lemma schedule_oneTimer (now : Z) (w : Watcher) :
  oneTimer w -> oneTimer (scheduleRegeneration now w).
Proof.
  intros H. right. exists (next_handle w), (now + 1000)%Z.
  unfold scheduleRegeneration. cbn [timers regenerateTimeout]. split; [|reflexivity].
  destruct H as [H|(h & t & H & Hh)].
  - rewrite H. now destruct (regenerateTimeout w).
  - now rewrite Hh, H, clearTimeout_own.
Qed.

Lemma deliver_oneTimer (w : Watcher) (e : Event) : oneTimer w -> oneTimer (deliver w e).
Proof.
  intros H. unfold deliver, handle. apply (advance_oneTimer (at_time e)) in H.
  destruct (kind e); try exact H;
    try (destruct (Str.endsWith ".html" (path e)); [now apply schedule_oneTimer|exact H]).
Qed.

Lemma fold_oneTimer (events : list Event) (w : Watcher) :
  oneTimer w -> oneTimer (fold_left deliver events w).
Proof.
  revert w. induction events as [|e events IH]; intros w Hw; [exact Hw|].
  cbn [fold_left]. apply IH. now apply deliver_oneTimer.
Qed.

Lemma qualifying_handle (e : Event) (w : Watcher) :
  qualifying e = true -> handle e w = scheduleRegeneration (at_time e) w.
Proof.
  unfold qualifying, handle. destruct (kind e); try discriminate; now intros ->.
Qed.

(** A qualifying event leaves exactly its own timer pending. *)
Lemma arrive (w : Watcher) (e : Event) :
  oneTimer w -> qualifying e = true ->
  deliver w e
  = {| regenerateTimeout := Some (next_handle w);
       timers := [(next_handle w, at_time e + 1000)%Z];
       next_handle := S (next_handle w);
       rebuilds := rebuilds (advance (at_time e) w) |}.
Proof.
  intros Hw Hq. unfold deliver. rewrite (qualifying_handle _ _ Hq).
  apply (advance_oneTimer (at_time e)) in Hw.
  unfold scheduleRegeneration.
  change (next_handle (advance (at_time e) w)) with (next_handle w).
  destruct Hw as [H|(h & t & H & Hh)]; rewrite H.
  - now destruct (regenerateTimeout (advance (at_time e) w)).
  - now rewrite Hh, clearTimeout_own.
Qed.

Lemma burst_chain (events : list Event) :
  forall h n t done,
    withinWindow t events = true ->
    forallb qualifying events = true ->
    exists h' n',
      fold_left deliver events
        {| regenerateTimeout := Some h; timers := [(h, t + 1000)%Z];
           next_handle := n; rebuilds := done |}
      = {| regenerateTimeout := Some h';
           timers := [(h', at_time (last events (mkEvent t add "")) + 1000)%Z];
           next_handle := n'; rebuilds := done |}.
Proof.
  induction events as [|e events IH]; intros h n t done Hw Hq.
  - exists h, n. reflexivity.
  - cbn [withinWindow forallb] in Hw, Hq.
    apply andb_prop in Hw as [Hw Hrest]. apply andb_prop in Hw as [Hle Hlt].
    apply andb_prop in Hq as [Hqe Hqs]. apply Z.ltb_lt in Hlt.
    cbn [fold_left]. rewrite arrive; [| right; now exists h, (t + 1000)%Z | exact Hqe].
    unfold advance. cbn [timers filter snd rebuilds next_handle].
    assert (Hdue : (t + 1000 <=? at_time e)%Z = false) by (apply Z.leb_gt; lia).
    rewrite Hdue. cbn [map app]. rewrite app_nil_r.
    destruct (IH n (S n) (at_time e) done Hrest Hqs) as (h' & n' & Hh').
    exists h', n'. rewrite Hh'. now rewrite (last_cons_time events e).
Qed.

Lemma alike_advance (pre : list Z) (w1 w2 : Watcher) (now : Z) :
  alike pre w1 w2 -> alike pre (advance now w1) (advance now w2).
Proof.
  intros (H1 & H2 & Ht & Hr).
  split; [now apply advance_oneTimer|].
  split; [now apply advance_oneTimer|].
  destruct H1 as [E1|(h1 & t1 & E1 & _)], H2 as [E2|(h2 & t2 & E2 & _)];
    rewrite E1, E2 in Ht; try discriminate Ht;
    unfold advance; cbn [timers rebuilds]; rewrite E1, E2, Hr; cbn [filter snd map].
  - now rewrite !app_nil_r.
  - cbn [map snd] in Ht. injection Ht as ->.
    destruct (t2 <=? now)%Z; cbn [negb map snd]; split; try reflexivity.
    + now rewrite app_assoc.
    + now rewrite !app_nil_r.
Qed.

Lemma alike_handle (pre : list Z) (w1 w2 : Watcher) (e : Event) :
  alike pre w1 w2 -> alike pre (handle e w1) (handle e w2).
Proof.
  intros (H1 & H2 & Ht & Hr).
  assert (Hs : alike pre (scheduleRegeneration (at_time e) w1)
                 (scheduleRegeneration (at_time e) w2)).
  { split; [now apply schedule_oneTimer|].
    split; [now apply schedule_oneTimer|].
    split; [|exact Hr].
    assert (S : forall w, oneTimer w ->
                          map snd (timers (scheduleRegeneration (at_time e) w))
                          = [(at_time e + 1000)%Z]).
    { intros w [E|(h & t & E & Hh)]; unfold scheduleRegeneration; cbn [timers]; rewrite E.
      - now destruct (regenerateTimeout w).
      - now rewrite Hh, clearTimeout_own. }
    now rewrite !S. }
  unfold handle.
  destruct (kind e);
    try (destruct (Str.endsWith ".html" (path e)); [exact Hs|now repeat split]);
    [now repeat split|].
  split; [exact H1|]. split; [exact H2|]. split; [exact Ht|].
  cbn [rebuilds]. now rewrite Hr, app_assoc.
Qed.

Lemma alike_fold (pre : list Z) (events : list Event) :
  forall w1 w2,
    alike pre w1 w2 ->
    alike pre (fold_left deliver events w1) (fold_left deliver events w2).
Proof.
  induction events as [|e events IH]; intros w1 w2 H; [exact H|].
  cbn [fold_left]. apply IH. unfold deliver. now apply alike_handle, alike_advance.
Qed.

Lemma alike_settle (pre : list Z) (w1 w2 : Watcher) :
  alike pre w1 w2 -> rebuilds (settle w1) = (pre ++ rebuilds (settle w2))%list.
Proof.
  intros (_ & _ & Ht & Hr). unfold settle. cbn [rebuilds].
  now rewrite Hr, Ht, app_assoc.
Qed.

(** C9. A burst of one or more qualifying change events, each arriving
    less than one second after the one before it, leads to exactly one
    rebuild of the index, one second after the last event of the burst:
    each event clears the pending timer and sets a new one.  This holds
    wherever the burst stands in the stream: after any earlier events (the
    ready event of the start, events on other files, errors, earlier
    bursts), whose timer, if still pending, the burst resets, and before
    any later events, the first of which comes after that rebuild. *)
Theorem debounce_single_rebuild (earlier : list Event) (e : Event)
    (rest later : list Event) :
  forallb qualifying (e :: rest) = true ->
  withinWindow (at_time e) rest = true ->
  startsAfter (lastTime e rest + 1000) later = true ->
  let before := rebuilds (advance (at_time e) (fold_left deliver earlier startWatcher)) in
  rebuilds (watch (earlier ++ e :: rest ++ later))
  = (before ++ [(lastTime e rest + 1000)%Z] ++ rebuilds (watch later))%list.
Proof.
  intros Hq Hw Hl. cbv zeta. cbn [forallb] in Hq. apply andb_prop in Hq as [Hqe Hqs].
  unfold watch. rewrite fold_left_app. cbn [fold_left].
  set (w0 := fold_left deliver earlier startWatcher).
  assert (H0 : oneTimer w0) by (apply fold_oneTimer; now left).
  rewrite (arrive w0 e H0 Hqe). rewrite fold_left_app.
  destruct (burst_chain rest (next_handle w0) (S (next_handle w0)) (at_time e)
              (rebuilds (advance (at_time e) w0)) Hw Hqs) as (h' & n' & Hb).
  rewrite Hb.
  assert (Hlast : at_time (last rest (mkEvent (at_time e) add "")) = lastTime e rest).
  { unfold lastTime. destruct rest as [|x xs]; [reflexivity|].
    now rewrite (last_cons_time xs x e),
      (last_cons_time xs x (mkEvent (at_time e) add "")). }
  rewrite Hlast. set (L := lastTime e rest) in *.
  set (before := rebuilds (advance (at_time e) w0)).
  destruct later as [|l later].
  - cbn [fold_left]. unfold settle. cbn [rebuilds timers map snd startWatcher app].
    reflexivity.
  - cbn [startsAfter] in Hl. apply Z.ltb_lt in Hl. cbn [fold_left].
    assert (Ha : alike (before ++ [(L + 1000)%Z])
                   (deliver {| regenerateTimeout := Some h'; timers := [(h', (L + 1000)%Z)];
                               next_handle := n'; rebuilds := before |} l)
                   (deliver startWatcher l)).
    { unfold deliver. apply alike_handle. unfold advance.
      cbn [timers filter snd rebuilds regenerateTimeout next_handle startWatcher].
      assert (Hdue : (L + 1000 <=? at_time l)%Z = true) by (apply Z.leb_le; lia).
      rewrite Hdue. cbn [negb map snd app].
      split; [now left|]. split; [now left|]. split; [reflexivity|].
      cbn [rebuilds]. now rewrite app_nil_r. }
    rewrite (alike_settle _ _ _ (alike_fold _ later _ _ Ha)).
    now rewrite <- app_assoc.
Qed.

Lemma debounce_single_rebuild_witness :
  rebuilds (watch (mkEvent 0 ready "" :: Samples.burst
                     ++ [mkEvent 5000 unlink "articles/a.html"]))
  = [0%Z; 2400%Z; 6000%Z].
Proof.
  exact (debounce_single_rebuild [mkEvent 0 ready ""]
           (mkEvent 0 add "articles/a.html")
           [ mkEvent 700 change "articles/b.html";
             mkEvent 1400 add "articles/c.html" ]
           [mkEvent 5000 unlink "articles/a.html"] eq_refl eq_refl eq_refl).
Defined.

End WatchFacts.

(** ** Properties of the URL reconciliation *)

Module ValidateFacts.

Import WatchArticles ValidateUrls.

(** *** The liveness checker *)

(** C5, as amended. The GET probe is issued exactly when the HEAD probe
    fails to complete, never because of the status HEAD returned; the
    address is classified reachable exactly when the probe that completed
    ended, redirects followed, on a status from 200 to 299; a final 3xx
    status, any other status, and the failure of both probes are
    classified unreachable. *)
Theorem checkURL_classification (net : Network) (u : string) :
  let result := fst (checkURL net u) in
  let probes := snd (checkURL net u) in
  (probes = [(HEAD, u)] \/ probes = [(HEAD, u); (GET, u)])
  /\ (In (GET, u) probes <-> exists m, net HEAD u = Rejects m)
  /\ (ok result = true <->
      exists r, finalResponse net u = Some r
                /\ (200 <= resp_status r < 300)%Z)
  /\ (finalResponse net u = None -> ok result = false /\ status result = 0%Z).
Proof.
  unfold checkURL, finalResponse.
  destruct (net HEAD u) as [r|m] eqn:Hh.
  - cbn. repeat split.
    + now left.
    + intros [H|[]]. discriminate.
    + intros [m H]. discriminate.
    + intros H. exists r. split; [reflexivity|].
      unfold Response_ok in H. apply andb_prop in H as [H1 H2].
      apply Z.leb_le in H1. apply Z.ltb_lt in H2. lia.
    + intros (r' & H & Hr). injection H as <-. unfold Response_ok.
      apply andb_true_intro. split; [apply Z.leb_le | apply Z.ltb_lt]; lia.
    + discriminate.
    + discriminate.
  - destruct (net GET u) as [r|m'] eqn:Hg; cbn; repeat split.
    + now right.
    + intros _. now exists m.
    + intros _. right. now left.
    + intros H. exists r. split; [reflexivity|].
      unfold Response_ok in H. apply andb_prop in H as [H1 H2].
      apply Z.leb_le in H1. apply Z.ltb_lt in H2. lia.
    + intros (r' & H & Hr). injection H as <-. unfold Response_ok.
      apply andb_true_intro. split; [apply Z.leb_le | apply Z.ltb_lt]; lia.
    + discriminate.
    + discriminate.
    + now right.
    + intros _. now exists m.
    + intros _. right. now left.
    + discriminate.
    + intros (r' & H & _). discriminate.
Qed.

(** C5 as stated fails: a probe that completes on the final status 304, a
    3xx status, is classified unreachable, and without any GET probe. *)
Lemma status_304_unreachable :
  finalResponse (Samples.answering 304) "http://a.example/"
  = Some {| resp_status := 304; resp_redirected := false;
            resp_url := "http://a.example/" |}
  /\ ok (fst (checkURL (Samples.answering 304) "http://a.example/")) = false
  /\ snd (checkURL (Samples.answering 304) "http://a.example/")
     = [(HEAD, "http://a.example/")].
Proof. repeat split. Qed.

(** *** The replacement finder *)

Lemma tryVariations_spec (net : Network) (u : string) (vs : list string) :
  let cs := filter (fun v => negb (String.eqb v u)) vs in
  (exists pre v post,
      cs = (pre ++ v :: post)%list
      /\ rejectedAll net pre = true
      /\ accepted net v = true
      /\ tryVariations net u vs
         = (Some (orElse (finalUrl (fst (checkURL net v))) v),
            probesOf net (pre ++ [v])))
  \/ (rejectedAll net cs = true
      /\ tryVariations net u vs = (None, probesOf net cs)).
Proof.
  induction vs as [|w vs IH]; cbn zeta.
  - right. split; reflexivity.
  - cbn [filter tryVariations].
    destruct (String.eqb w u); cbn [negb]; [exact IH|].
    destruct (checkURL net w) as [result probes] eqn:Hc.
    destruct (ok result) eqn:Hok.
    + left. exists [], w, (filter (fun v => negb (String.eqb v u)) vs).
      unfold accepted, probesOf. cbn [app flat_map rejectedAll forallb].
      rewrite Hc. cbn [fst snd]. rewrite app_nil_r. auto.
    + destruct IH as [(pre & v & post & Hcs & Hpre & Hv & Htry)|[Hall Htry]].
      * left. exists (w :: pre), v, post. rewrite Hcs, Htry.
        unfold rejectedAll, accepted, probesOf in *.
        cbn [app flat_map forallb]. rewrite Hc. cbn [fst snd]. rewrite Hok.
        auto.
      * right. rewrite Htry. unfold rejectedAll, accepted, probesOf in *.
        cbn [flat_map forallb]. rewrite Hc. cbn [fst snd]. rewrite Hok. auto.
Qed.

(** C6, as amended. The finder forms four variations in a fixed order:
    the first https:// turned into http://, the first www. removed
    wherever it stands, the first http:// or https:// turned into
    https://www., and the web-archive address of the original.  It probes
    those that differ from the original, in that order, stops at the first
    one the liveness checker accepts and returns the final address of that
    probe.  When none is accepted it reports no replacement with exactly
    two hints, a search query and the web-archive address.  When the
    original cannot be parsed as a URL it probes nothing and reports no
    replacement with the error and no hint. *)
Theorem findReplacementURL_order (net : Network)
    (URL_hostname : string -> option string) (u context : string) :
  let r := fst (findReplacementURL net URL_hostname u context) in
  let probes := snd (findReplacementURL net URL_hostname u context) in
  variations u
  = [ Str.replace_first "https://" "http://" u;
      Str.replace_first "www." "" u;
      replace_scheme u;
      archiveOf u ]
  /\ match URL_hostname u with
     | None =>
         found r = false /\ newUrl r = None /\ suggestions r = None
         /\ replacement_error r = Some "Invalid URL" /\ probes = []
     | Some domain =>
         (exists pre v post,
             candidates u = (pre ++ v :: post)%list
             /\ rejectedAll net pre = true
             /\ accepted net v = true
             /\ found r = true
             /\ newUrl r = Some (orElse (finalUrl (fst (checkURL net v))) v)
             /\ probes = probesOf net (pre ++ [v]))
         \/ (rejectedAll net (candidates u) = true
             /\ found r = false
             /\ newUrl r = None
             /\ suggestions r
                = Some [ "Search Google: https://www.google.com/search?q="
                           ++ encodeURIComponent (domain ++ " " ++ context);
                         "Archive: " ++ archiveOf u ]
             /\ probes = probesOf net (candidates u))
     end.
Proof.
  cbv zeta. split; [reflexivity|].
  unfold findReplacementURL.
  destruct (URL_hostname u) as [domain|]; [|cbn; auto].
  destruct (tryVariations_spec net u (variations u))
    as [(pre & v & post & Hcs & Hpre & Hv & Htry)|[Hall Htry]]; rewrite Htry.
  - left. exists pre, v, post. cbn. repeat split; auto.
  - right. cbn. repeat split; auto.
Qed.

(** C6 as stated fails twice.  For an http address the third candidate is
    not the address with a www. label added but that address moved to
    https as well: with only http://www.example.com/a alive, an address
    the liveness checker accepts, no replacement is found.  And for an
    address that does not parse as a URL, no replacement is reported
    without any hint. *)
Lemma www_candidate_forces_https :
  (accepted (Samples.alive ["http://www.example.com/a"]) "http://www.example.com/a" = true
   /\ candidates "http://example.com/a"
      = ["https://www.example.com/a";
         "https://web.archive.org/web/*/http://example.com/a"]
   /\ found (fst (findReplacementURL (Samples.alive ["http://www.example.com/a"])
                    Samples.hostOf "http://example.com/a" "story.html")) = false)
  /\ (Samples.hostOf "http://" = None
      /\ findReplacementURL (Samples.alive []) Samples.hostOf "http://" "story.html"
         = ({| found := false; newUrl := None; method := None;
               suggestions := None; replacement_error := Some "Invalid URL" |}, [])).
Proof. repeat split. Qed.

(** *** The global substitution *)

Lemma startsWith_app (p x : string) : Str.startsWith p (p ++ x) = true.
Proof.
  induction p as [|c p IH]; [reflexivity|].
  cbn. now rewrite Ascii.eqb_refl, IH.
Qed.

Lemma includes_unfold (p s : string) :
  Str.includes p s
  = Str.startsWith p s
    || match s with
       | EmptyString => false
       | String _ s' => Str.includes p s'
       end.
Proof. destruct s; reflexivity. Qed.

Lemma expand_plain (new matched before after : string) :
  dollarFree new = true -> expand new matched before after = new.
Proof.
  induction new as [|c new IH]; [reflexivity|]. cbn [dollarFree expand].
  intros H. apply andb_prop in H as [Hc Hn].
  apply negb_true_iff in Hc. rewrite Hc. now rewrite (IH Hn).
Qed.

Section Substitution.

Variables old new : string.
Hypothesis old_not_empty : old <> "".
Hypothesis new_plain : dollarFree new = true.

Lemma old_is_empty : Str.is_empty old = false.
Proof. destruct old; [contradiction|reflexivity]. Qed.

Lemma replace_before (s : string) :
  forall k b b', replace_from old new k b s = replace_from old new k b' s.
Proof.
  induction s as [|c s IH]; intros k b b'; cbn [replace_from].
  - now rewrite !expand_plain.
  - destruct k as [|k]; [|apply IH].
    rewrite !expand_plain by exact new_plain. rewrite old_is_empty.
    rewrite (IH 0%nat (b ++ String c "") (b' ++ String c "")).
    now rewrite (IH (String.length old - 1)%nat (b ++ String c "") (b' ++ String c "")).
Qed.

Lemma replace_skip (s : string) :
  forall k b, replace_from old new k b s = replace_from old new 0 "" (Str.drop k s).
Proof.
  induction s as [|c s IH]; intros k b.
  - destruct k; cbn; now rewrite old_is_empty, ?andb_false_r.
  - destruct k as [|k]; [apply replace_before|].
    cbn [replace_from Str.drop]. apply IH.
Qed.

(** The substitution scans from the left: at an occurrence of the old
    text it writes the new text and goes on after the occurrence,
    elsewhere it copies one character. *)
Lemma replaceURL_scan (s : string) :
  replaceURL s old new
  = if Str.startsWith old s
    then new ++ replaceURL (Str.drop (String.length old) s) old new
    else match s with
         | EmptyString => EmptyString
         | String c s' => String c (replaceURL s' old new)
         end.
Proof.
  unfold replaceURL. destruct s as [|c s].
  - cbn. rewrite old_is_empty. destruct old; [contradiction|reflexivity].
  - cbn [replace_from]. rewrite old_is_empty, expand_plain by exact new_plain.
    destruct (Str.startsWith old (String c s)).
    + f_equal. rewrite replace_skip.
      destruct old as [|a o]; [contradiction|].
      cbn [String.length Str.drop].
      now replace (S (String.length o) - 1)%nat with (String.length o) by lia.
    + f_equal. apply replace_before.
Qed.

Lemma replaceURL_absent (s : string) :
  Str.includes old s = false -> replaceURL s old new = s.
Proof.
  induction s as [|c s IH]; intros H; rewrite replaceURL_scan;
    rewrite includes_unfold in H; apply orb_false_elim in H as [H1 H2]; rewrite H1.
  - reflexivity.
  - now rewrite (IH H2).
Qed.

Lemma replaceURL_present (s : string) :
  Str.includes old s = true -> Str.includes new (replaceURL s old new) = true.
Proof.
  induction s as [|c s IH]; intros H; rewrite replaceURL_scan;
    rewrite includes_unfold in H.
  - destruct (Str.startsWith old ""); [|discriminate].
    rewrite includes_unfold, startsWith_app. reflexivity.
  - destruct (Str.startsWith old (String c s)).
    + rewrite includes_unfold, startsWith_app. reflexivity.
    + cbn [orb] in H. rewrite includes_unfold, (IH H). apply orb_true_r.
Qed.

End Substitution.

(** *** The loop over one file *)

Lemma checkURL_url (net : Network) (u : string) : url (fst (checkURL net u)) = u.
Proof.
  unfold checkURL. destruct (net HEAD u); [reflexivity|].
  destruct (net GET u); reflexivity.
Qed.

Lemma found_newUrl net host u context :
  found (fst (findReplacementURL net host u context)) = true ->
  exists new, newUrl (fst (findReplacementURL net host u context)) = Some new.
Proof.
  unfold findReplacementURL. destruct (host u); [|discriminate].
  destruct (tryVariations net u (variations u)) as [[v|] probes]; cbn; [eauto|discriminate].
Qed.

Lemma batches_In {A} (n fuel : nat) (l : list A) (batch : list A) (x : A) :
  In batch (batches fuel n l) -> In x batch -> In x l.
Proof.
  revert l. induction fuel as [|fuel IH]; intros l Hb Hx.
  - destruct l; contradiction.
  - destruct l as [|a l]; [contradiction|].
    cbn [batches] in Hb. destruct Hb as [<-|Hb].
    + rewrite <- (firstn_skipn n (a :: l)). apply in_or_app. now left.
    + rewrite <- (firstn_skipn n (a :: l)). apply in_or_app. right.
      now apply (IH _ Hb).
Qed.

Lemma set_add_http (acc : list string) (v : string) :
  isHttp v = true -> Forall (fun u => isHttp u = true) acc ->
  Forall (fun u => isHttp u = true) (set_add acc v).
Proof.
  intros Hv Hacc. unfold set_add. destruct (existsb (String.eqb v) acc); [exact Hacc|].
  apply Forall_app. split; [exact Hacc|]. now constructor.
Qed.

Lemma addAll_http (vs acc : list string) :
  Forall (fun u => isHttp u = true) acc ->
  Forall (fun u => isHttp u = true) (addAll acc vs).
Proof.
  unfold addAll. revert acc. induction vs as [|v vs IH]; intros acc Hacc; [exact Hacc|].
  cbn [fold_left]. apply IH. destruct (isHttp v) eqn:Hv; [|exact Hacc].
  now apply set_add_http.
Qed.

(** Every URL the extraction returns starts with http:// or https://. *)
Lemma extractURLs_http (cheerio : Cheerio) (html : string) :
  Forall (fun u => isHttp u = true) (extractURLs cheerio html).
Proof. unfold extractURLs. repeat apply addAll_http. constructor. Qed.

Section LoopFacts.

Variable net : Network.
Variable URL_hostname : string -> option string.

Abbreviation handleCheck := (handleCheck net URL_hostname).
Abbreviation handleBatch := (handleBatch net URL_hostname).
Abbreviation resolveAll := (resolveAll net URL_hostname).

Lemma fixes_snoc (rs : list UrlResult) (r : UrlResult) :
  fixes (rs ++ [r]) = (fixes rs ++ fixes [r])%list.
Proof. unfold fixes. apply flat_map_app. Qed.

Lemma handleCheck_consistent content us file st check :
  In (url check) us ->
  consistent content us st -> consistent content us (handleCheck file st check).
Proof.
  intros Hin (Hc & Hn & Hu). unfold ValidateUrls.handleCheck.
  destruct (ok check); [exact (conj Hc (conj Hn Hu))|].
  destruct (found _) eqn:Hf; [destruct (newUrl _) as [new|] eqn:Hnew|].
  - unfold consistent. cbn [modifiedContent fixedCount results].
    rewrite fixes_snoc. cbn [fixes flat_map r_fixed r_newUrl r_url app].
    unfold applyFixes in *. rewrite fold_left_app, <- Hc. cbn [fold_left fst snd].
    rewrite length_app, Hn. cbn [List.length].
    repeat split; [lia|].
    apply Forall_app. split; [exact Hu|]. now constructor.
  - unfold consistent. cbn [modifiedContent fixedCount results].
    rewrite fixes_snoc. cbn [fixes flat_map r_fixed r_newUrl app].
    rewrite app_nil_r. exact (conj Hc (conj Hn Hu)).
  - unfold consistent. cbn [modifiedContent fixedCount results].
    rewrite fixes_snoc. cbn [fixes flat_map r_fixed r_newUrl app].
    rewrite app_nil_r. exact (conj Hc (conj Hn Hu)).
Qed.

Lemma handleBatch_consistent content us file batch :
  (forall u, In u batch -> In u us) ->
  forall st, consistent content us st ->
             consistent content us (handleBatch file st batch).
Proof.
  unfold ValidateUrls.handleBatch.
  induction batch as [|u batch IH]; intros Hsub st Hst; [exact Hst|].
  cbn [map fold_left]. apply IH; [intros v Hv; apply Hsub; now right|].
  apply handleCheck_consistent; [|exact Hst].
  rewrite checkURL_url. apply Hsub. now left.
Qed.

Lemma resolveAll_consistent content file us :
  consistent content us (resolveAll file content us).
Proof.
  unfold ValidateUrls.resolveAll.
  set (bs := batches (List.length us) MAX_CONCURRENT_CHECKS us).
  assert (Hbs : forall b, In b bs -> forall u, In u b -> In u us).
  { intros b Hb u Hu. exact (batches_In _ _ _ _ _ Hb Hu). }
  set (st0 := {| modifiedContent := content |}).
  assert (H0 : consistent content us st0).
  { repeat split. constructor. }
  clearbody st0 bs. revert st0 H0.
  induction bs as [|b bs IH]; intros st0 H0; [exact H0|].
  cbn [fold_left]. apply IH; [intros b' Hb'; apply Hbs; now right|].
  apply handleBatch_consistent; [apply Hbs; now left|exact H0].
Qed.

End LoopFacts.

(** *** Writes *)

Section RunFacts.

Variable net : Network.
Variable URL_hostname : string -> option string.
Variable cheerio : Cheerio.

Abbreviation validateArticle := (validateArticle net URL_hostname cheerio).
Abbreviation validateEach := (validateEach net URL_hostname cheerio).

Lemma writeArticle_written d path content :
  written (fst (writeArticle d path content))
  = (written d ++ [(path, content)])%list.
Proof.
  unfold writeArticle. destruct (write_error d path); [reflexivity|].
  destruct (dir d); reflexivity.
Qed.

Lemma writeArticle_write_error d path content :
  write_error (fst (writeArticle d path content)) = write_error d.
Proof.
  unfold writeArticle. destruct (write_error d path); [reflexivity|].
  destruct (dir d); reflexivity.
Qed.

(** One file: the only call to [fs.writeFile] comes after the loop, with
    the final working copy, and only when something was fixed. *)
Lemma validateArticle_written d path content :
  readArticle d path = ReadOk content ->
  let st := resolveAll net URL_hostname (Str.basename path) content
              (extractURLs cheerio content) in
  written (snd (fst (validateArticle d path)))
  = (written d ++ if (0 <? fixedCount st)%Z
                  then [(path, modifiedContent st)] else [])%list.
Proof.
  intros Hr. cbv zeta. unfold ValidateUrls.validateArticle. rewrite Hr.
  destruct (extractURLs cheerio content) as [|u us] eqn:Hus.
  - cbn. now rewrite app_nil_r.
  - destruct (0 <? fixedCount _)%Z; [|cbn; now rewrite app_nil_r].
    rewrite <- writeArticle_written.
    destruct (writeArticle d path _) as [d' [m|]]; reflexivity.
Qed.

Lemma validateArticle_writes d path :
  exists ws,
    written (snd (fst (validateArticle d path))) = (written d ++ ws)%list
    /\ (ws = [] \/ exists c, ws = [(path, c)]).
Proof.
  destruct (readArticle d path) as [content|m] eqn:Hr.
  - rewrite (validateArticle_written d path content Hr).
    eexists. split; [reflexivity|].
    destruct (0 <? fixedCount _)%Z; [right; eauto|now left].
  - exists []. unfold ValidateUrls.validateArticle. rewrite Hr. cbn.
    rewrite app_nil_r. auto.
Qed.

Lemma validateArticle_write_error d path :
  write_error (snd (fst (validateArticle d path))) = write_error d.
Proof.
  unfold ValidateUrls.validateArticle.
  destruct (readArticle d path) as [content|m]; [|reflexivity].
  destruct (extractURLs cheerio content) as [|u us]; [reflexivity|].
  destruct (0 <? fixedCount _)%Z; [|reflexivity].
  rewrite <- (writeArticle_write_error d path
                (modifiedContent (resolveAll net URL_hostname (Str.basename path)
                                    content (u :: us)))).
  destruct (writeArticle d path _) as [d' [m|]]; reflexivity.
Qed.

(** One run: the article files written are distinct ones among those
    validated. *)
Lemma validateEach_writes files :
  NoDup files ->
  forall d, exists ws,
    written (snd (fst (validateEach d files))) = (written d ++ ws)%list
    /\ NoDup (map fst ws)
    /\ (forall p, In p (map fst ws) -> In p (map articlePath files)).
Proof.
  induction 1 as [|f files Hf Hnd IH]; intros d.
  - exists []. cbn. rewrite app_nil_r. repeat split; [constructor|tauto].
  - cbn [ValidateUrls.validateEach].
    destruct (validateArticle_writes d (articlePath f)) as (w1 & Hw1 & Hshape).
    destruct (validateArticle d (articlePath f)) as [[r d1] out1].
    cbn [fst snd] in Hw1.
    destruct (IH d1) as (w2 & Hw2 & Hnd2 & Hin2).
    destruct (validateEach d1 files) as [[rs d2] out2].
    cbn [fst snd] in *. exists (w1 ++ w2)%list.
    rewrite Hw2, Hw1, app_assoc. split; [reflexivity|].
    destruct Hshape as [->|[c ->]]; cbn [app map fst].
    + split; [exact Hnd2|]. intros p Hp. right. now apply Hin2.
    + split.
      * constructor; [|exact Hnd2]. intros Hp. apply Hin2 in Hp.
        apply in_map_iff in Hp as (g & Hg & Hgin).
        unfold articlePath in Hg. cbn in Hg. injection Hg as ->. contradiction.
      * intros p [<-|Hp]; [now left|right; now apply Hin2].
Qed.

End RunFacts.

(** *** The claims on the reconciler *)

(** C4, as amended. For a file the reconciler reads, the working copy at
    the end of the loop is the original text with the substitution of
    every URL marked fixed applied in the order they were resolved, each
    substitution being one left-to-right global replacement of the old URL
    (a URL of the file, never empty) by the replacement; the file is
    written at most once, after all its URLs have been resolved, with that
    working copy, and only when something was fixed; and over a run no
    article file is written twice.  A substitution whose replacement holds
    no dollar sign leaves a text without the old URL unchanged and puts
    the replacement into a text that holds the old URL.  Nothing is
    promised about the old URL being absent afterwards: the replacement may
    itself hold it. *)
Theorem rewritten_once_after_all (net : Network)
    (URL_hostname : string -> option string) (cheerio : Cheerio) (now : string)
    (d : Disk) (path content : string) :
  readArticle d path = ReadOk content ->
  let st := resolveAll net URL_hostname (Str.basename path) content
              (extractURLs cheerio content) in
  let after := snd (fst (validateArticle net URL_hostname cheerio d path)) in
  modifiedContent st = applyFixes content (fixes (results st))
  /\ fixedCount st = Z.of_nat (List.length (fixes (results st)))
  /\ Forall (fun f => In (fst f) (extractURLs cheerio content) /\ fst f <> "")
       (fixes (results st))
  /\ written after
     = (written d ++ if (0 <? fixedCount st)%Z
                     then [(path, modifiedContent st)] else [])%list
  /\ (forall entries,
         dir d = ListOk entries -> NoDup (map fst entries) ->
         exists ws,
           written (fst (fst (validateAllArticles net URL_hostname cheerio now d)))
           = (written d ++ ws)%list
           /\ NoDup (map fst ws))
  /\ (forall html old new,
         old <> "" -> dollarFree new = true ->
         replaceURL html old new
         = (if Str.startsWith old html
            then new ++ replaceURL (Str.drop (String.length old) html) old new
            else match html with
                 | EmptyString => EmptyString
                 | String c rest => String c (replaceURL rest old new)
                 end)
         /\ (Str.includes old html = false -> replaceURL html old new = html)
         /\ (Str.includes old html = true ->
             Str.includes new (replaceURL html old new) = true)).
Proof.
  intros Hr st after.
  destruct (resolveAll_consistent net URL_hostname content (Str.basename path)
              (extractURLs cheerio content)) as (Hc & Hn & Hu).
  fold st in Hc, Hn, Hu.
  split; [exact Hc|]. split; [exact Hn|]. split; [|split; [|split]].
  - pose proof (extractURLs_http cheerio content) as Hhttp.
    rewrite Forall_forall in *. intros f Hf. split; [now apply Hu|].
    intros E. specialize (Hhttp _ (Hu _ Hf)). rewrite E in Hhttp. discriminate.
  - apply validateArticle_written, Hr.
  - intros entries Hd Hnd. unfold validateAllArticles. rewrite Hd.
    assert (Hfiles : NoDup (htmlFilesOf entries)).
    { unfold htmlFilesOf. now apply NoDup_filter. }
    destruct (validateEach_writes net URL_hostname cheerio _ Hfiles d)
      as (ws & Hws & Hnd' & _).
    destruct (validateEach net URL_hostname cheerio d (htmlFilesOf entries))
      as [[rs d'] out].
    cbn [fst snd] in Hws. exists ws. split; [|exact Hnd'].
    destruct (write_error d' REPORT_PATH); exact Hws.
  - intros html old new Ho Hn'. split; [|split].
    + now apply replaceURL_scan.
    + now apply replaceURL_absent.
    + now apply replaceURL_present.
Qed.

Lemma rewritten_once_after_all_witness :
  written (snd (fst (validateArticle (Samples.alive [Samples.deadHttp]) Samples.hostOf
                       (Samples.imagesOnly [Samples.deadHttps])
                       (Samples.diskOf (Samples.oneImage Samples.deadHttps))
                       "articles/story.html")))
  = [("articles/story.html",
      "<p>" ++ Samples.img Samples.deadHttp ++ "</p><p>"
        ++ Samples.img Samples.deadHttp ++ "</p>")].
Proof.
  destruct (rewritten_once_after_all (Samples.alive [Samples.deadHttp]) Samples.hostOf
              (Samples.imagesOnly [Samples.deadHttps]) "2025-11-10T00:00:00.000Z"
              (Samples.diskOf (Samples.oneImage Samples.deadHttps))
              "articles/story.html"
              ("<p>" ++ Samples.img Samples.deadHttps ++ "</p><p>"
                 ++ Samples.img Samples.deadHttps ++ "</p>")
              eq_refl) as (_ & _ & _ & Hw & _).
  rewrite Hw. reflexivity.
Defined.

(** C4 as stated fails: the URL is marked fixed with its web-archive
    address, which holds the old URL, so the text written back still
    contains the old URL. *)
Lemma archive_replacement_keeps_old_url :
  let run := validateArticle (Samples.alive [archiveOf Samples.deadHttp]) Samples.hostOf
               (Samples.imagesOnly [Samples.deadHttp])
               (Samples.diskOf (Samples.oneImage Samples.deadHttp))
               "articles/story.html" in
  fixed (fst (fst run)) = Some 1%Z
  /\ broken (fst (fst run)) = Some []
  /\ exists c,
       written (snd (fst run)) = [("articles/story.html", c)]
       /\ readArticle (snd (fst run)) "articles/story.html" = ReadOk c
       /\ Str.includes Samples.deadHttp c = true.
Proof. cbv zeta. split; [reflexivity|]. split; [reflexivity|]. eexists. repeat split. Qed.

(** C1, on the code. For a run over a directory holding one article file
    with exactly one embedded URL, that URL unreachable and a replacement
    found, the report counts 1 URL checked and 1 fixed, but 0 broken and
    -1 still broken: the per-file broken list leaves the fixed URL out
    while the summary still subtracts the fixed count from it.  The claim
    expects 1 broken and 0 still broken. *)
Theorem fixed_url_missing_from_broken_total (net : Network)
    (URL_hostname : string -> option string) (cheerio : Cheerio) (now : string)
    (d : Disk) (name content u : string) :
  dir d = ListOk [(name, ReadOk content)] ->
  Str.endsWith ".html" name = true ->
  extractURLs cheerio content = [u] ->
  accepted net u = false ->
  found (fst (findReplacementURL net URL_hostname u
                (Str.basename (articlePath name)))) = true ->
  write_error d (articlePath name) = None ->
  write_error d REPORT_PATH = None ->
  option_map summary
    (report (fst (fst (validateAllArticles net URL_hostname cheerio now d))))
  = Some {| totalArticles := 1; totalUrls := inr 1%Z; totalBroken := 0;
            totalFixed := 1; stillBroken := -1 |}.
Proof.
  intros Hd Hhtml Hus Hdead Hfound Hw Hwr.
  destruct (found_newUrl _ _ _ _ Hfound) as [new Hnew].
  assert (Hread : readArticle d (articlePath name) = ReadOk content).
  { unfold readArticle, readFile. cbn [articles]. rewrite Hd. cbn.
    now rewrite String.eqb_refl. }
  assert (Hst : resolveAll net URL_hostname (Str.basename (articlePath name)) content [u]
                = {| modifiedContent := replaceURL content u new;
                     fixedCount := 1;
                     results := [{| r_url := u; r_status := status (fst (checkURL net u));
                                    r_fixed := true; r_newUrl := Some new |}];
                     printed := printed (resolveAll net URL_hostname
                                           (Str.basename (articlePath name)) content [u]) |}).
  { unfold resolveAll, handleBatch. cbn [List.length batches firstn skipn fold_left map
                                           MAX_CONCURRENT_CHECKS].
    unfold handleCheck. unfold accepted in Hdead. rewrite Hdead, checkURL_url.
    rewrite Hfound, Hnew. reflexivity. }
  unfold validateAllArticles. rewrite Hd.
  unfold htmlFilesOf. cbn [map fst filter]. rewrite Hhtml.
  cbn [validateEach]. unfold validateArticle. rewrite Hread, Hus, Hst.
  cbn [fixedCount modifiedContent results Z.ltb Z.compare].
  pose proof (writeArticle_write_error d (articlePath name) (replaceURL content u new)) as He.
  unfold writeArticle in *. rewrite Hw, Hd in *. cbn [fst] in He.
  cbn [write_error]. rewrite Hwr. reflexivity.
Qed.

Lemma fixed_url_missing_from_broken_total_witness :
  option_map summary
    (report (fst (fst (validateAllArticles (Samples.alive [Samples.deadHttp])
                         Samples.hostOf (Samples.imagesOnly [Samples.deadHttps])
                         "2025-11-10T00:00:00.000Z"
                         (Samples.diskOf (Samples.oneImage Samples.deadHttps))))))
  = Some {| totalArticles := 1; totalUrls := inr 1%Z; totalBroken := 0;
            totalFixed := 1; stillBroken := -1 |}.
Proof.
  apply (fixed_url_missing_from_broken_total (Samples.alive [Samples.deadHttp])
           Samples.hostOf (Samples.imagesOnly [Samples.deadHttps])
           "2025-11-10T00:00:00.000Z"
           (Samples.diskOf (Samples.oneImage Samples.deadHttps))
           "story.html"
           ("<p>" ++ Samples.img Samples.deadHttps ++ "</p><p>"
              ++ Samples.img Samples.deadHttps ++ "</p>")
           Samples.deadHttps); reflexivity.
Defined.

(** C3, as amended. When the articles directory cannot be read, the
    reconciler logs the cause, ends the process with status 1 and writes
    neither a report nor any article; the index regeneration logs the
    cause and writes no index either, but it returns to its caller: it
    does not end the process and sets no exit status. *)
Theorem unreadable_directory (Date_parse : string -> option Z) (fs : FileSystem)
    (net : Network) (URL_hostname : string -> option string) (cheerio : Cheerio)
    (now : string) (d : Disk) (m : string) :
  articles fs = ListFails m ->
  dir d = ListFails m ->
  regenerateArticlesJSON Date_parse fs
  = (fs, [Log "Regenerating articles.json...";
          Error ("Error regenerating articles.json: " ++ m)], Returns)
  /\ validateAllArticles net URL_hostname cheerio now d
     = (d, [Log "Starting URL validation..."; Error ("Fatal error: " ++ m)], Exits 1).
Proof.
  intros Hfs Hd. unfold regenerateArticlesJSON, validateAllArticles.
  now rewrite Hfs, Hd.
Qed.

Lemma unreadable_directory_witness :
  snd (validateAllArticles (Samples.alive []) Samples.hostOf (Samples.imagesOnly [])
         "2025-11-10T00:00:00.000Z" Samples.unreadableDisk)
  = Exits 1.
Proof.
  destruct (unreadable_directory Date_parse_iso Samples.missingDirectory
              (Samples.alive []) Samples.hostOf (Samples.imagesOnly [])
              "2025-11-10T00:00:00.000Z" Samples.unreadableDisk
              "ENOENT: no such file or directory, scandir './articles'"
              eq_refl eq_refl) as [_ H].
  rewrite H. reflexivity.
Defined.

(** C3 as stated fails for the index regeneration: with the articles
    directory missing it logs the error and returns, without ending the
    process on a non-zero status. *)
Lemma regeneration_returns_on_missing_directory :
  regenerateArticlesJSON Date_parse_iso Samples.missingDirectory
  = (Samples.missingDirectory,
     [Log "Regenerating articles.json...";
      Error "Error regenerating articles.json: ENOENT: no such file or directory, scandir './articles'"],
     Returns)
  /\ forall code, snd (regenerateArticlesJSON Date_parse_iso Samples.missingDirectory)
                  <> Exits code.
Proof. split; [reflexivity|]. intros code. cbn. discriminate. Qed.

End ValidateFacts.

(** ** The generator and the extractor agree on the markers *)

Module GeneratorFacts.

Import WatchArticles MetaScan.

Lemma regex_match_unfold (name s : string) :
  regex_match name s
  = match match_here name s with
    | Some v => Some v
    | None =>
        match s with
        | EmptyString => None
        | String _ s' => regex_match name s'
        end
    end.
Proof. destruct s; reflexivity. Qed.

Lemma eqb_ci_refl (a : ascii) : Str.eqb_ci a a = true.
Proof. unfold Str.eqb_ci. apply Ascii.eqb_refl. Qed.

Lemma eqb_ci_quote (a : ascii) :
  Ascii.eqb a Str.dq = false ->
  Str.eqb_ci a Str.dq = false /\ Str.eqb_ci Str.dq a = false.
Proof.
  destruct a as [b0 b1 b2 b3 b4 b5 b6 b7].
  destruct b0, b1, b2, b3, b4, b5, b6, b7; intros H;
    first [discriminate H | split; reflexivity].
Qed.

Lemma mismatch_sound (p c t : string) :
  mismatch p c = true -> Str.strip_prefix_ci p (c ++ t) = None.
Proof.
  revert c. induction p as [|a p IH]; intros c H; [discriminate|].
  destruct c as [|b c]; [discriminate|]. cbn in *.
  destruct (Str.eqb_ci a b); [now apply IH|reflexivity].
Qed.

Lemma strip_app (p c r t : string) :
  Str.strip_prefix_ci p c = Some r -> Str.strip_prefix_ci p (c ++ t) = Some (r ++ t).
Proof.
  revert c. induction p as [|a p IH]; intros c H.
  - cbn in *. now injection H as ->.
  - destruct c as [|b c]; [discriminate|]. cbn in *.
    destruct (Str.eqb_ci a b); [now apply IH|discriminate].
Qed.

Lemma until_quote_value (v t : string) :
  quoteFree v = true -> Str.startsWith (String Str.dq "") t = true ->
  Str.until_quote (v ++ t) = Some v.
Proof.
  intros Hv Ht. induction v as [|c v IH].
  - destruct t as [|d t]; [discriminate|]. cbn [Str.startsWith] in Ht.
    apply andb_prop in Ht as [Hd _]. apply Ascii.eqb_eq in Hd. subst d.
    cbn [append Str.until_quote]. now rewrite Ascii.eqb_refl.
  - cbn [quoteFree] in Hv. apply andb_prop in Hv as [Hc Hv].
    apply negb_true_iff in Hc. cbn [append Str.until_quote].
    rewrite Hc, (IH Hv). reflexivity.
Qed.

(** Fixed text at no position of which the pattern can match is passed
    over. *)
Lemma skip_fixed (name c t : string) :
  clearb (meta_open name) c = true ->
  regex_match name (c ++ t) = regex_match name t.
Proof.
  induction c as [|x c IH]; intros H; [reflexivity|].
  cbn [clearb] in H. apply andb_prop in H as [Hm Hc].
  rewrite regex_match_unfold. unfold match_here at 1.
  rewrite (mismatch_sound _ _ t Hm). cbn [append]. now apply IH.
Qed.

(** The pattern matches where the fixed text ends: the capture is the value
    that follows, up to its closing quote. *)
Lemma hit (name c v t : string) :
  hitb (meta_open name) c = true ->
  quoteFree v = true ->
  Str.startsWith (String Str.dq "") t = true ->
  regex_match name (c ++ (v ++ t)) = Some v.
Proof.
  intros H Hv Ht. induction c as [|x c IH].
  - cbn [hitb] in H.
    destruct (Str.strip_prefix_ci (meta_open name) "") as [[|? ?]|] eqn:E;
      try discriminate H.
    rewrite regex_match_unfold. unfold match_here.
    rewrite (strip_app _ _ _ (v ++ t) E). cbn [append].
    now rewrite until_quote_value.
  - cbn [hitb] in H. rewrite regex_match_unfold. unfold match_here at 1.
    destruct (Str.strip_prefix_ci (meta_open name) (String x c)) as [[|y r]|] eqn:E.
    + rewrite (strip_app _ _ _ (v ++ t) E). cbn [append].
      now rewrite until_quote_value.
    + apply andb_prop in H as [Hm Hc].
      rewrite (mismatch_sound _ _ (v ++ t) Hm). cbn [append]. now apply IH.
    + apply andb_prop in H as [Hm Hc].
      rewrite (mismatch_sound _ _ (v ++ t) Hm). cbn [append]. now apply IH.
Qed.

(** A pattern whose first quote stands after quote-free text cannot match
    inside a quote-free value unless what follows the value's closing quote
    matches the rest of the pattern. *)
Lemma strip_quote_align (a v r t : string) :
  quoteFree a = true -> quoteFree v = true ->
  Str.strip_prefix_ci r t = None ->
  Str.strip_prefix_ci (a ++ String Str.dq r) (v ++ String Str.dq t) = None.
Proof.
  revert v. induction a as [|x a IH]; intros v Ha Hv Hr.
  - destruct v as [|c v]; cbn [append Str.strip_prefix_ci].
    + now rewrite eqb_ci_refl.
    + cbn [quoteFree] in Hv. apply andb_prop in Hv as [Hc _].
      apply negb_true_iff in Hc.
      now rewrite (proj2 (eqb_ci_quote c Hc)).
  - cbn [quoteFree] in Ha. apply andb_prop in Ha as [Hx Ha].
    apply negb_true_iff in Hx.
    destruct v as [|c v]; cbn [append Str.strip_prefix_ci].
    + now rewrite (proj1 (eqb_ci_quote x Hx)).
    + cbn [quoteFree] in Hv. apply andb_prop in Hv as [_ Hv].
      destruct (Str.eqb_ci x c); [now apply IH|reflexivity].
Qed.

(** A quote-free value followed by the end of its meta element is passed
    over. *)
Lemma skip_value (name v t : string) :
  quoteFree v = true ->
  lead name = true ->
  Str.startsWith (String Str.dq ">") t = true ->
  regex_match name (v ++ t) = regex_match name t.
Proof.
  intros Hv Hl Ht.
  destruct t as [|d t]; [discriminate Ht|].
  cbn [Str.startsWith] in Ht. apply andb_prop in Ht as [Hd Ht].
  destruct t as [|g t]; [discriminate Ht|].
  cbn [Str.startsWith] in Ht. apply andb_prop in Ht as [Hg _].
  apply Ascii.eqb_eq in Hd, Hg. subst d g.
  destruct name as [|n name]; [discriminate|]. cbn [lead] in Hl.
  apply negb_true_iff in Hl.
  induction v as [|c v IH]; [reflexivity|].
  rewrite regex_match_unfold. unfold match_here at 1.
  change (meta_open (String n name))
    with ("<meta name=" ++ String Str.dq (String n (name ++ String Str.dq " content="
                                                     ++ String Str.dq ""))).
  rewrite (strip_quote_align "<meta name=" (String c v)); [| reflexivity | exact Hv |].
  - cbn [append]. apply IH. cbn [quoteFree] in Hv.
    now apply andb_prop in Hv as [_ Hv].
  - cbn [append Str.strip_prefix_ci]. now rewrite Hl.
Qed.

Lemma quoteFree_showBool (b : bool) : quoteFree (ExtractArticles.showBool b) = true.
Proof. destruct b; reflexivity. Qed.

Lemma quoteFree_orDefault (v d : string) :
  quoteFree v = true -> quoteFree d = true ->
  quoteFree (ExtractArticles.orDefault v d) = true.
Proof. unfold ExtractArticles.orDefault. now destruct (Str.is_empty v). Qed.

(** The head of a generated page: fixed text, then the meta elements. *)
Lemma generated_head (a : ExtractArticles.Article) :
  exists rest,
    ExtractArticles.generateArticleHTML a
    = headPrefix ++ metaLines (metaFields a) (String Str.dq (String ">"%char rest)).
Proof. eexists. reflexivity. Qed.

(** Scanning a run of meta elements whose values hold no quote: the first
    element the pattern matches gives the capture. *)
Lemma scan_metaLines (name : string) (fields : list (string * string)) (rest v : string) :
  lead name = true ->
  forallb (fun f => quoteFree (snd f)) fields = true ->
  separated name fields = true ->
  fieldOf name fields = Some v ->
  regex_match name (metaLines fields (String Str.dq (String ">"%char rest))) = Some v.
Proof.
  intros Hl. induction fields as [|[n w] fs IH]; intros Hq Hs Hf; [discriminate|].
  cbn [forallb snd fst separated] in Hq, Hs. unfold separated in IH.
  apply andb_prop in Hq as [Hw Hq]. apply andb_prop in Hs as [Hn Hs].
  cbn [fieldOf metaLines] in *.
  assert (Hnext : Str.startsWith (String Str.dq ">")
                    (metaLines fs (String Str.dq (String ">"%char rest))) = true).
  { destruct fs as [|[n' w'] fs']; cbn [metaLines]; unfold gap;
      cbn [append Str.startsWith]; now rewrite !Ascii.eqb_refl. }
  destruct (hitb (meta_open name) (gap n)) eqn:Hh.
  - injection Hf as ->. apply hit; [exact Hh|exact Hw|].
    destruct (metaLines fs _) as [|d t]; [discriminate|].
    cbn [Str.startsWith] in *. apply andb_prop in Hnext as [-> _]. reflexivity.
  - cbn [orb] in Hn.
    rewrite (skip_fixed _ _ _ Hn), (skip_value _ _ _ Hw Hl Hnext).
    now apply IH.
Qed.

Lemma plain_metaFields (a : ExtractArticles.Article) :
  plainFields a = true ->
  forallb (fun f => quoteFree (snd f)) (metaFields a) = true.
Proof.
  unfold plainFields. intros H.
  repeat match type of H with
         | (_ && _ = true) => let H1 := fresh "Hp" in apply andb_prop in H as [H H1]
         end.
  cbn [metaFields forallb snd].
  rewrite !quoteFree_showBool, !quoteFree_orDefault by (assumption || reflexivity).
  repeat match goal with Hx : quoteFree _ = true |- _ => rewrite Hx; clear Hx end.
  reflexivity.
Qed.

(** What the extractor's pattern for [name] captures on a generated page. *)
Lemma getMeta_generated (a : ExtractArticles.Article) (name v : string) :
  plainFields a = true ->
  lead name = true ->
  clearb (meta_open name) headPrefix = true ->
  separated name (metaFields a) = true ->
  fieldOf name (metaFields a) = Some v ->
  getMeta (ExtractArticles.generateArticleHTML a) name = v.
Proof.
  intros Hp Hl Hc Hs Hf. destruct (generated_head a) as [rest E].
  unfold getMeta. rewrite E, (skip_fixed _ _ _ Hc).
  now rewrite (scan_metaLines name (metaFields a) rest v Hl (plain_metaFields a Hp) Hs Hf).
Qed.

Ltac read_field := first [assumption | vm_compute; reflexivity].

Lemma metadataOf_generated (a : ExtractArticles.Article) (path : string) :
  plainFields a = true ->
  metadataOf path (ExtractArticles.generateArticleHTML a) = recordOf path a.
Proof.
  intros H. unfold metadataOf, recordOf.
  rewrite (getMeta_generated a "article-id" (ExtractArticles.id a)) by read_field.
  rewrite (getMeta_generated a "og:title"
             (ExtractArticles.orDefault (ExtractArticles.title a) "Untitled Article"))
    by read_field.
  rewrite (getMeta_generated a "article-category" (ExtractArticles.category a)) by read_field.
  rewrite (getMeta_generated a "article-author"
             (ExtractArticles.orDefault (ExtractArticles.author a) "Unknown"))
    by read_field.
  rewrite (getMeta_generated a "article-date" (ExtractArticles.publishDate a)) by read_field.
  rewrite (getMeta_generated a "article-readtime" (ExtractArticles.readTime a)) by read_field.
  rewrite (getMeta_generated a "description" (ExtractArticles.excerpt a)) by read_field.
  rewrite (getMeta_generated a "og:image" (ExtractArticles.bannerImage a)) by read_field.
  rewrite (getMeta_generated a "article-source" (ExtractArticles.sourceUrl a)) by read_field.
  rewrite (getMeta_generated a "article-trending"
             (ExtractArticles.showBool (ExtractArticles.isTrending a))) by read_field.
  rewrite (getMeta_generated a "article-video"
             (ExtractArticles.showBool (ExtractArticles.isVideo a))) by read_field.
  rewrite (getMeta_generated a "article-video-url" (ExtractArticles.videoUrl a)) by read_field.
  f_equal; [destruct (ExtractArticles.isTrending a) | destruct (ExtractArticles.isVideo a)];
    reflexivity.
Qed.

(** X1. The extractor reads back what the generator wrote: for an article
    whose meta fields hold no double quote, the record extracted from the
    generated page carries the article's id, category, date, read time,
    excerpt, source and video URL and flags unchanged, the title and author
    with the generator's defaults, the banner image in both image fields,
    and never the job flag; reading the page from disk gives that record and
    prints nothing. *)
Theorem extract_generated (a : ExtractArticles.Article) (path : string) :
  plainFields a = true ->
  metadataOf path (ExtractArticles.generateArticleHTML a) = recordOf path a
  /\ (forall fs,
         readFile fs path = ReadOk (ExtractArticles.generateArticleHTML a) ->
         extractMetadataFromHTML fs path = (Some (recordOf path a), [])).
Proof.
  intros H. split; [now apply metadataOf_generated|].
  intros fs Hr. unfold extractMetadataFromHTML. rewrite Hr.
  now rewrite metadataOf_generated.
Qed.

Lemma extract_generated_witness :
  metadataOf "articles/launch-day-what-s-next.html"
    (ExtractArticles.generateArticleHTML Samples.launch)
  = {| id := "a42"; title := "Launch Day: What's Next?";
       filename := "launch-day-what-s-next.html"; category := "Tech";
       author := "Unknown"; publishDate := "2025-11-10"; readTime := "5";
       excerpt := "An excerpt"; thumbnailImage := "https://img.example/b.png";
       bannerImage := "https://img.example/b.png";
       sourceUrl := "https://src.example/launch"; isTrending := true;
       isVideo := false; videoUrl := ""; isJob := false |}.
Proof.
  rewrite (proj1 (extract_generated Samples.launch
                    "articles/launch-day-what-s-next.html" eq_refl)).
  reflexivity.
Defined.

Lemma append_assoc (a b c : string) : (a ++ b) ++ c = a ++ (b ++ c).
Proof. induction a as [|x a IH]; cbn; [reflexivity|now rewrite IH]. Qed.

(** X2. The generator does not escape its values: when the article id holds
    a double quote, the id the extractor reads from the generated page stops
    in front of that quote. *)
Theorem quoted_id_is_cut (a : ExtractArticles.Article) (before after : string) :
  ExtractArticles.id a = before ++ String Str.dq after ->
  quoteFree before = true ->
  getMeta (ExtractArticles.generateArticleHTML a) "article-id" = before.
Proof.
  intros Hid Hb. destruct (generated_head a) as [rest E].
  unfold getMeta. rewrite E. rewrite skip_fixed by (vm_compute; reflexivity).
  cbn [metaFields metaLines]. rewrite Hid, append_assoc.
  rewrite hit; [reflexivity | vm_compute; reflexivity | exact Hb |].
  cbn [append Str.startsWith]. now rewrite Ascii.eqb_refl.
Qed.

Lemma quoted_id_is_cut_witness :
  getMeta (ExtractArticles.generateArticleHTML
             (ExtractArticles.mkSource ("a" ++ String Str.dq "b") "T" "" "" "" "" "" ""
                "" "" "" false false "" false))
    "article-id"
  = "a".
Proof.
  apply (quoted_id_is_cut _ "a" "b"); reflexivity.
Defined.

Lemma until_quote_free (s v : string) :
  Str.until_quote s = Some v -> quoteFree v = true.
Proof.
  revert v. induction s as [|c s IH]; intros v H; [discriminate|].
  cbn [Str.until_quote] in H. destruct (Ascii.eqb c Str.dq) eqn:Ec.
  - now injection H as <-.
  - destruct (Str.until_quote s) as [w|]; [|discriminate].
    injection H as <-. cbn [quoteFree]. now rewrite Ec, (IH w eq_refl).
Qed.

(** X3. Whatever the page, a value the extractor reads holds no double
    quote. *)
Theorem getMeta_quote_free (content name : string) :
  quoteFree (getMeta content name) = true.
Proof.
  unfold getMeta.
  assert (H : forall v, regex_match name content = Some v -> quoteFree v = true).
  { induction content as [|c content IH]; intros v; rewrite regex_match_unfold;
      unfold match_here.
    - destruct (Str.strip_prefix_ci (meta_open name) "") as [r|]; [|discriminate].
      destruct (Str.until_quote r) as [w|] eqn:E; [|discriminate].
      intros H. injection H as <-. now apply (until_quote_free r).
    - destruct (Str.strip_prefix_ci (meta_open name) (String c content)) as [r|];
        [destruct (Str.until_quote r) as [w|] eqn:E|].
      + intros H. injection H as <-. now apply (until_quote_free r).
      + apply IH.
      + apply IH. }
  destruct (regex_match name content) as [v|]; [now apply H|reflexivity].
Qed.

(** *** File names *)

Lemma isAlnum_not_dash (c : ascii) :
  ExtractArticles.isAlnum c = true -> Ascii.eqb c ExtractArticles.dash = false.
Proof.
  intros H. destruct (Ascii.eqb_spec c ExtractArticles.dash) as [->|]; [|reflexivity].
  discriminate H.
Qed.

Lemma dashRuns_allowed (l : list ascii) :
  forall b, forallb ExtractArticles.allowed (ExtractArticles.dashRuns b l) = true.
Proof.
  induction l as [|c l IH]; intros b; [reflexivity|]. cbn [ExtractArticles.dashRuns].
  destruct (ExtractArticles.isAlnum c) eqn:Ec.
  - cbn [forallb]. unfold ExtractArticles.allowed at 1. now rewrite Ec, IH.
  - destruct b; [apply IH|]. cbn [forallb]. now rewrite IH.
Qed.

(** After the runs are replaced, dashes stand alone, and none comes first
    when the text continues a run already replaced. *)
Lemma dashRuns_pairs (l : list ascii) :
  forall b,
    ExtractArticles.noDashPair (ExtractArticles.dashRuns b l) = true
    /\ (b = true ->
        forall c r, ExtractArticles.dashRuns b l = c :: r ->
                    Ascii.eqb c ExtractArticles.dash = false).
Proof.
  induction l as [|c l IH]; intros b; [split; [reflexivity|discriminate]|].
  cbn [ExtractArticles.dashRuns].
  destruct (ExtractArticles.isAlnum c) eqn:Ec.
  - destruct (IH false) as [Hp _]. split.
    + cbn [ExtractArticles.noDashPair].
      destruct (ExtractArticles.dashRuns false l) as [|x r]; [reflexivity|].
      now rewrite (isAlnum_not_dash c Ec), Hp.
    + intros _ c' r E. injection E as <- _. now apply isAlnum_not_dash.
  - destruct b.
    + destruct (IH true) as [Hp Hh]. split; [exact Hp|]. intros _. now apply Hh.
    + destruct (IH true) as [Hp Hh]. split; [|discriminate].
      cbn [ExtractArticles.noDashPair].
      destruct (ExtractArticles.dashRuns true l) as [|x r] eqn:E; [reflexivity|].
      now rewrite (Hh eq_refl x r eq_refl), andb_false_r, Hp.
Qed.

Lemma dropDashes_suffix (l : list ascii) :
  exists pre, l = (pre ++ ExtractArticles.dropDashes l)%list.
Proof.
  induction l as [|c l [pre IH]]; [now exists []|]. cbn [ExtractArticles.dropDashes].
  destruct (Ascii.eqb c ExtractArticles.dash).
  - exists (c :: pre). cbn. now rewrite <- IH.
  - now exists [].
Qed.

Lemma dropTrailing_prefix (l : list ascii) :
  exists post, l = (ExtractArticles.dropTrailing l ++ post)%list.
Proof.
  induction l as [|c l [post IH]]; [now exists []|]. cbn [ExtractArticles.dropTrailing].
  destruct (ExtractArticles.dropTrailing l) as [|x r].
  - destruct (Ascii.eqb c ExtractArticles.dash).
    + exists (c :: l). reflexivity.
    + exists post. cbn in *. now rewrite <- IH.
  - exists post. cbn in *. now rewrite <- IH.
Qed.

Lemma noDashPair_app (l1 l2 : list ascii) :
  ExtractArticles.noDashPair (l1 ++ l2) = true ->
  ExtractArticles.noDashPair l1 = true /\ ExtractArticles.noDashPair l2 = true.
Proof.
  induction l1 as [|a l1 IH]; intros H; [split; [reflexivity|exact H]|].
  destruct l1 as [|b l1].
  - split; [reflexivity|]. destruct l2 as [|x l2]; [reflexivity|].
    cbn [app ExtractArticles.noDashPair] in H. now apply andb_prop in H as [_ H].
  - change (ExtractArticles.noDashPair ((a :: b :: l1) ++ l2))
      with (negb (Ascii.eqb a ExtractArticles.dash && Ascii.eqb b ExtractArticles.dash)
            && ExtractArticles.noDashPair ((b :: l1) ++ l2)) in H.
    apply andb_prop in H as [H1 H2].
    destruct (IH H2) as [Ha Hb]. split; [|exact Hb].
    change (ExtractArticles.noDashPair (a :: b :: l1))
      with (negb (Ascii.eqb a ExtractArticles.dash && Ascii.eqb b ExtractArticles.dash)
            && ExtractArticles.noDashPair (b :: l1)).
    now rewrite H1, Ha.
Qed.

Lemma dropTrailing_last (l : list ascii) (c : ascii) :
  last (ExtractArticles.dropTrailing l) c = ExtractArticles.dash ->
  ExtractArticles.dropTrailing l = [].
Proof.
  induction l as [|x l IH]; [reflexivity|]. cbn [ExtractArticles.dropTrailing].
  destruct (ExtractArticles.dropTrailing l) as [|y r] eqn:E.
  - destruct (Ascii.eqb_spec x ExtractArticles.dash) as [->|Hx]; [reflexivity|].
    cbn. intros H. contradiction.
  - intros H. change (last (x :: y :: r) c) with (last (y :: r) c) in H.
    discriminate (IH H).
Qed.

Lemma dropDashes_head (l : list ascii) :
  hd_error (ExtractArticles.dropDashes l) <> Some ExtractArticles.dash.
Proof.
  induction l as [|c l IH]; [discriminate|]. cbn [ExtractArticles.dropDashes].
  destruct (Ascii.eqb_spec c ExtractArticles.dash) as [_|Hc]; [exact IH|].
  cbn. intros H. injection H as H. contradiction.
Qed.

Lemma prefix_head (l1 l2 : list ascii) (c : ascii) :
  hd_error (l1 ++ l2) <> Some c -> hd_error l1 <> Some c.
Proof. destruct l1; [discriminate|exact (fun H => H)]. Qed.

Lemma string_length_of_list (l : list ascii) :
  String.length (string_of_list_ascii l) = List.length l.
Proof. induction l as [|x l IH]; cbn; [reflexivity|now rewrite IH]. Qed.

(** What trimming keeps and what it gives. *)
Lemma trimDashes_facts (runs : list ascii) :
  forallb ExtractArticles.allowed runs = true ->
  ExtractArticles.noDashPair runs = true ->
  forallb ExtractArticles.allowed (ExtractArticles.trimDashes runs) = true
  /\ ExtractArticles.noDashPair (ExtractArticles.trimDashes runs) = true
  /\ hd_error (ExtractArticles.trimDashes runs) <> Some ExtractArticles.dash.
Proof.
  intros Ha Hp. unfold ExtractArticles.trimDashes.
  destruct (dropDashes_suffix runs) as [pre Hpre].
  destruct (dropTrailing_prefix (ExtractArticles.dropDashes runs)) as [post Hpost].
  pose proof (dropDashes_head runs) as Hh.
  rewrite Hpre in Ha, Hp. rewrite forallb_app in Ha.
  apply andb_prop in Ha as [_ Ha]. apply noDashPair_app in Hp as [_ Hp].
  rewrite Hpost in Ha, Hp, Hh. rewrite forallb_app in Ha.
  apply andb_prop in Ha as [Ha _]. apply noDashPair_app in Hp as [Hp _].
  apply prefix_head in Hh. auto.
Qed.

(** X4. A sanitized name is made of lower-case letters, digits and dashes
    only, is at most 100 characters long, never starts with a dash and never
    holds two dashes in a row; it ends with a dash only when the cleaned
    title was cut at 100 characters. *)
Theorem sanitizeFilename_shape (title : string) :
  let cleaned := ExtractArticles.trimDashes
                   (ExtractArticles.dashRuns false
                      (ExtractArticles.toLowerCase (list_ascii_of_string title))) in
  let sanitized := list_ascii_of_string (ExtractArticles.sanitizeFilename title) in
  forallb ExtractArticles.allowed sanitized = true
  /\ (String.length (ExtractArticles.sanitizeFilename title) <= 100)%nat
  /\ hd_error sanitized <> Some ExtractArticles.dash
  /\ ExtractArticles.noDashPair sanitized = true
  /\ ((List.length cleaned <= 100)%nat ->
      sanitized = cleaned
      /\ (sanitized <> [] -> last sanitized "a"%char <> ExtractArticles.dash)).
Proof.
  intros cleaned sanitized.
  assert (Es : sanitized = firstn 100 cleaned).
  { unfold sanitized, ExtractArticles.sanitizeFilename.
    now rewrite list_ascii_of_string_of_list_ascii. }
  destruct (trimDashes_facts
              (ExtractArticles.dashRuns false (ExtractArticles.toLowerCase (list_ascii_of_string title))))
    as (Ha & Hp & Hh); [apply dashRuns_allowed | apply dashRuns_pairs |].
  fold cleaned in Ha, Hp, Hh.
  rewrite <- (firstn_skipn 100 cleaned) in Ha, Hp, Hh. rewrite <- Es in Ha, Hp, Hh.
  rewrite forallb_app in Ha. apply andb_prop in Ha as [Ha _].
  apply noDashPair_app in Hp as [Hp _]. apply prefix_head in Hh.
  split; [exact Ha|]. split; [|split; [exact Hh|split; [exact Hp|]]].
  - unfold ExtractArticles.sanitizeFilename. fold cleaned.
    rewrite string_length_of_list. apply firstn_le_length.
  - intros Hlen. rewrite Es, firstn_all2 by exact Hlen. split; [reflexivity|].
    intros Hne Hlast. apply Hne. unfold cleaned, ExtractArticles.trimDashes in *.
    now apply (dropTrailing_last _ "a"%char).
Qed.

End GeneratorFacts.

(** ** The index is derived from the article files *)

Module IndexFacts.

Import WatchArticles.

Lemma collect_In (fs : FileSystem) (files : list string) (r : ArticleRecord) :
  In r (fst (collect fs files)) <->
  exists f c,
    In f files
    /\ readFile fs (articlePath f) = ReadOk c
    /\ Str.is_empty (getMeta c "article-id") = false
    /\ r = metadataOf (articlePath f) c.
Proof.
  induction files as [|g files IH].
  - cbn. split; [tauto|]. intros (f & c & [] & _).
  - cbn [collect]. unfold extractMetadataFromHTML.
    destruct (readFile fs (articlePath g)) as [cg|m] eqn:Hg;
      destruct (collect fs files) as [kept out']; cbn [fst] in *.
    + assert (Hhere : forall f c, f = g -> readFile fs (articlePath f) = ReadOk c -> c = cg).
      { intros f c -> H. rewrite Hg in H. now injection H as <-. }
      cbn [id metadataOf].
      destruct (Str.is_empty (getMeta cg "article-id")) eqn:E; cbn [fst].
      * rewrite IH. split.
        -- intros (f & c & Hf & Hr & He & ->). exists f, c. cbn. auto.
        -- intros (f & c & [<-|Hf] & Hr & He & ->); [|exists f, c; auto].
           rewrite (Hhere g c eq_refl Hr) in He. congruence.
      * cbn [In]. rewrite IH. split.
        -- intros [<-|(f & c & Hf & Hr & He & ->)].
           ++ exists g, cg. cbn. auto.
           ++ exists f, c. cbn. auto.
        -- intros (f & c & [<-|Hf] & Hr & He & ->).
           ++ left. now rewrite (Hhere g c eq_refl Hr).
           ++ right. exists f, c. auto.
    + rewrite IH. split.
      * intros (f & c & Hf & Hr & He & ->). exists f, c. cbn. auto.
      * intros (f & c & [<-|Hf] & Hr & He & ->); [congruence|exists f, c; auto].
Qed.

Lemma lookup_ReadOk (entries : list (string * Read)) (n c : string) :
  lookup n entries = ReadOk c -> In (n, ReadOk c) entries.
Proof.
  induction entries as [|[n' r'] entries IH]; cbn [lookup]; [discriminate|].
  destruct (String.eqb_spec n' n) as [->|_].
  - intros ->. now left.
  - intros H. right. now apply IH.
Qed.

Lemma basename_from_noSlash (s acc : string) :
  ExtractArticles.noSlash s = true -> Str.basename_from acc s = acc.
Proof.
  revert acc. induction s as [|c s IH]; intros acc H; [reflexivity|].
  cbn [ExtractArticles.noSlash] in H. apply andb_prop in H as [Hc Hs].
  apply negb_true_iff in Hc. cbn [Str.basename_from]. rewrite Hc. now apply IH.
Qed.

Lemma basename_articlePath (f : string) :
  ExtractArticles.noSlash f = true -> Str.basename (articlePath f) = f.
Proof.
  intros H. unfold Str.basename, articlePath.
  cbn [append Str.basename_from Ascii.eqb Bool.eqb]. now apply basename_from_noSlash.
Qed.

(** The records of the index are exactly those of the readable article
    files that carry an id. *)
Lemma indexed_iff (Date_parse : string -> option Z) (fs : FileSystem)
    (entries : list (string * Read)) (r : ArticleRecord) :
  articles fs = ListOk entries ->
  NoDup (map fst entries) ->
  In r (indexRecords Date_parse fs entries) <->
  exists f c,
    In (f, ReadOk c) entries
    /\ Str.endsWith ".html" f = true
    /\ Str.is_empty (getMeta c "article-id") = false
    /\ r = metadataOf (articlePath f) c.
Proof.
  intros Hfs Hnd. unfold indexRecords. rewrite WatchFacts.sort_In, collect_In.
  split; intros (f & c & H1 & H2 & H3 & H4); exists f, c.
  - unfold htmlFilesOf in H1. apply filter_In in H1 as [_ Hh].
    rewrite (WatchFacts.articlePath_read _ _ _ Hfs) in H2.
    apply lookup_ReadOk in H2. auto.
  - split; [|split; [|auto]].
    + unfold htmlFilesOf. apply filter_In. split; [|exact H2].
      change f with (fst (f, ReadOk c)). now apply in_map.
    + rewrite (WatchFacts.articlePath_read _ _ _ Hfs).
      now apply WatchFacts.lookup_own.
Qed.

(** X5. The index holds nothing that the article files do not: a record is
    in the index exactly when some readable [.html] file of the directory
    carries a non-empty id and the record is what the extractor reads from
    that file; its filename is then the name of that file. *)
Theorem index_is_derived (Date_parse : string -> option Z) (fs : FileSystem)
    (entries : list (string * Read)) :
  articles fs = ListOk entries ->
  NoDup (map fst entries) ->
  forall r,
    In r (indexRecords Date_parse fs entries) <->
    exists f c,
      In (f, ReadOk c) entries
      /\ Str.endsWith ".html" f = true
      /\ getMeta c "article-id" <> ""
      /\ r = metadataOf (articlePath f) c
      /\ (ExtractArticles.noSlash f = true -> filename r = f).
Proof.
  intros Hfs Hnd r. rewrite (indexed_iff Date_parse fs entries r Hfs Hnd).
  split; intros (f & c & H1 & H2 & H3 & H4); exists f, c.
  - repeat split; auto.
    + intros E. rewrite E in H3. discriminate.
    + intros Hs. subst r. cbn [filename metadataOf]. now apply basename_articlePath.
  - destruct H4 as [H4 _]. repeat split; auto.
    destruct (getMeta c "article-id"); [contradiction|reflexivity].
Qed.

Lemma index_is_derived_witness :
  exists r,
    In r (indexRecords Date_parse_iso (Samples.onDisk Samples.threeFiles)
            Samples.threeFiles)
    /\ id r = "a3" /\ filename r = "three.html".
Proof.
  eexists. split.
  - apply (index_is_derived Date_parse_iso (Samples.onDisk Samples.threeFiles)
             Samples.threeFiles eq_refl); [WatchFacts.distinct|].
    exists "three.html". eexists. split; [do 3 right; left; reflexivity|].
    split; [reflexivity|]. split; [discriminate|]. split; [reflexivity|].
    intros _. reflexivity.
  - split; reflexivity.
Defined.

(** X6. A regeneration never touches the article files, and what it writes
    does not depend on the index that was there before: two file systems
    with the same readable articles directory, both writable, end in the
    same state, with the same index file and the same console output. *)
Theorem regeneration_overwrites (Date_parse : string -> option Z) (fs fs' : FileSystem)
    (entries : list (string * Read)) :
  articles fs = ListOk entries ->
  articles fs' = ListOk entries ->
  index_write_error fs = None ->
  index_write_error fs' = None ->
  regenerateArticlesJSON Date_parse fs = regenerateArticlesJSON Date_parse fs'
  /\ articles (fst (fst (regenerateArticlesJSON Date_parse fs))) = ListOk entries
  /\ index (fst (fst (regenerateArticlesJSON Date_parse fs)))
     = Some (JSON_stringify (indexRecords Date_parse fs entries)).
Proof.
  intros Ha Ha' Hw Hw'. unfold regenerateArticlesJSON, indexRecords.
  rewrite Hw, Hw', Ha, Ha'.
  rewrite (WatchFacts.collect_articles fs' fs) by (now rewrite Ha, Ha').
  destruct (collect fs (htmlFilesOf entries)) as [kept out]. cbn. auto.
Qed.

Lemma regeneration_overwrites_witness :
  index (fst (fst (regenerateArticlesJSON Date_parse_iso
                     {| articles := ListOk Samples.sameId; index := Some "stale";
                        index_write_error := None |})))
  = index (fst (fst (regenerateArticlesJSON Date_parse_iso
                       (Samples.onDisk Samples.sameId)))).
Proof.
  now rewrite (proj1 (regeneration_overwrites Date_parse_iso
                        {| articles := ListOk Samples.sameId; index := Some "stale";
                           index_write_error := None |}
                        (Samples.onDisk Samples.sameId) Samples.sameId
                        eq_refl eq_refl eq_refl eq_refl)).
Defined.

End IndexFacts.

(** ** Generated pages in the index *)

Module PipelineFacts.

Import WatchArticles MetaScan.

Lemma string_length_app (a b : string) :
  String.length (a ++ b) = (String.length a + String.length b)%nat.
Proof. induction a as [|x a IH]; cbn; [reflexivity|now rewrite IH]. Qed.

Lemma drop_app (a b : string) : Str.drop (String.length a) (a ++ b) = b.
Proof. induction a as [|x a IH]; [now destruct b|exact IH]. Qed.

Lemma endsWith_app (a p : string) : Str.endsWith p (a ++ p) = true.
Proof.
  unfold Str.endsWith. rewrite string_length_app.
  replace (String.length a + String.length p - String.length p)%nat
    with (String.length a) by lia.
  rewrite drop_app, String.eqb_refl, andb_true_r. apply Nat.leb_le. lia.
Qed.

Lemma noSlash_app (a b : string) :
  ExtractArticles.noSlash (a ++ b)
  = ExtractArticles.noSlash a && ExtractArticles.noSlash b.
Proof.
  induction a as [|x a IH]; [reflexivity|]. cbn [append ExtractArticles.noSlash].
  now rewrite IH, andb_assoc.
Qed.

Lemma noSlash_allowed (l : list ascii) :
  forallb ExtractArticles.allowed l = true ->
  ExtractArticles.noSlash (string_of_list_ascii l) = true.
Proof.
  induction l as [|c l IH]; [reflexivity|]. cbn [forallb]. intros H.
  apply andb_prop in H as [Hc Hl]. cbn [string_of_list_ascii ExtractArticles.noSlash].
  rewrite (IH Hl), andb_true_r. destruct (Ascii.eqb_spec c "/"%char) as [->|]; [|reflexivity].
  discriminate Hc.
Qed.

(** X7. A page the generator wrote under the name it gives the article is
    picked up by the index regeneration: for an article with a non-empty id
    and quote-free meta fields, a directory holding that file yields an
    index record that carries the article's fields and whose filename is
    the generated file name. *)
Theorem generated_page_is_indexed (Date_parse : string -> option Z) (fs : FileSystem)
    (entries : list (string * Read)) (a : ExtractArticles.Article) :
  articles fs = ListOk entries ->
  NoDup (map fst entries) ->
  In (ExtractArticles.filenameOf a, ReadOk (ExtractArticles.generateArticleHTML a)) entries ->
  plainFields a = true ->
  ExtractArticles.id a <> "" ->
  let r := recordOf (articlePath (ExtractArticles.filenameOf a)) a in
  In r (indexRecords Date_parse fs entries)
  /\ filename r = ExtractArticles.filenameOf a
  /\ id r = ExtractArticles.id a
  /\ Str.endsWith ".html" (ExtractArticles.filenameOf a) = true.
Proof.
  intros Hfs Hnd Hin Hp Hid r.
  assert (Hext : Str.endsWith ".html" (ExtractArticles.filenameOf a) = true)
    by apply endsWith_app.
  split; [|split; [|split; [reflexivity|exact Hext]]].
  - apply (IndexFacts.indexed_iff Date_parse fs entries r Hfs Hnd).
    exists (ExtractArticles.filenameOf a), (ExtractArticles.generateArticleHTML a).
    split; [exact Hin|]. split; [exact Hext|]. split.
    + rewrite (GeneratorFacts.getMeta_generated a "article-id" (ExtractArticles.id a));
        try (vm_compute; reflexivity); [|exact Hp].
      destruct (ExtractArticles.id a); [contradiction|reflexivity].
    + unfold r. symmetry. now apply GeneratorFacts.metadataOf_generated.
  - unfold r. cbn [filename recordOf]. apply IndexFacts.basename_articlePath.
    unfold ExtractArticles.filenameOf. rewrite noSlash_app, andb_true_r.
    unfold ExtractArticles.sanitizeFilename. apply noSlash_allowed.
    destruct (GeneratorFacts.trimDashes_facts
                (ExtractArticles.dashRuns false
                   (ExtractArticles.toLowerCase (list_ascii_of_string (ExtractArticles.title a)))))
      as (Ha & _); [apply GeneratorFacts.dashRuns_allowed
                   | apply GeneratorFacts.dashRuns_pairs |].
    set (c := ExtractArticles.trimDashes _) in *.
    rewrite <- (firstn_skipn 100 c) in Ha. rewrite forallb_app in Ha.
    now apply andb_prop in Ha as [Ha _].
Qed.

Lemma generated_page_is_indexed_witness :
  exists r,
    In r (indexRecords Date_parse_iso
            (Samples.onDisk [(ExtractArticles.filenameOf Samples.launch,
                              ReadOk (ExtractArticles.generateArticleHTML Samples.launch))])
            [(ExtractArticles.filenameOf Samples.launch,
              ReadOk (ExtractArticles.generateArticleHTML Samples.launch))])
    /\ filename r = "launch-day-what-s-next.html" /\ id r = "a42".
Proof.
  eexists. split.
  - apply (generated_page_is_indexed Date_parse_iso
             (Samples.onDisk [(ExtractArticles.filenameOf Samples.launch,
                               ReadOk (ExtractArticles.generateArticleHTML Samples.launch))])
             _ Samples.launch eq_refl).
    + repeat constructor. intros [].
    + left. reflexivity.
    + reflexivity.
    + discriminate.
  - split; reflexivity.
Defined.

End PipelineFacts.

(** ** The watcher's timer *)

Module WatcherFacts.

Import WatchArticles Notions.

(** X8. Whatever events the watcher receives, in whatever order and at
    whatever times, at most one regeneration timer is pending after each of
    them, and it is the timer whose handle the watcher holds. *)
Theorem one_timer_pending (events : list Event) :
  let w := fold_left deliver events startWatcher in
  (List.length (timers w) <= 1)%nat
  /\ (forall h t, In (h, t) (timers w) -> regenerateTimeout w = Some h).
Proof.
  cbv zeta.
  assert (H : oneTimer (fold_left deliver events startWatcher)).
  { assert (H0 : oneTimer startWatcher) by now left.
    revert H0. generalize startWatcher as w.
    induction events as [|e events IH]; intros w Hw; [exact Hw|].
    cbn [fold_left]. apply IH. now apply WatchFacts.deliver_oneTimer. }
  destruct H as [H|(h & t & H & Hh)]; rewrite H; cbn [List.length In].
  - split; [lia|tauto].
  - split; [lia|]. intros h' t' [E|[]]. now injection E as <- _.
Qed.

Lemma filter_split_length {A} (f : A -> bool) (l : list A) :
  (List.length (filter f l) + List.length (filter (fun x => negb (f x)) l))%nat
  = List.length l.
Proof.
  induction l as [|x l IH]; [reflexivity|]. cbn [filter].
  destruct (f x); cbn [negb List.length]; lia.
Qed.

(** The calls made and the timers pending never outnumber the events that
    trigger a regeneration. *)
Lemma deliver_budget (w : Watcher) (e : Event) :
  (List.length (rebuilds (deliver w e)) + List.length (timers (deliver w e))
   <= List.length (rebuilds w) + List.length (timers w)
      + (if triggers e then 1 else 0))%nat.
Proof.
  assert (Ha : (List.length (rebuilds (advance (at_time e) w))
                + List.length (timers (advance (at_time e) w))
                = List.length (rebuilds w) + List.length (timers w))%nat).
  { unfold advance. cbn [rebuilds timers]. rewrite length_app, length_map.
    pose proof (filter_split_length (fun t => (snd t <=? at_time e)%Z) (timers w)). lia. }
  unfold deliver. set (w' := advance (at_time e) w) in *. clearbody w'.
  assert (Hs : (List.length (rebuilds (scheduleRegeneration (at_time e) w'))
                + List.length (timers (scheduleRegeneration (at_time e) w'))
                <= List.length (rebuilds w') + List.length (timers w') + 1)%nat).
  { unfold scheduleRegeneration. cbn [rebuilds timers]. rewrite length_app. cbn [List.length].
    destruct (regenerateTimeout w') as [h|]; [|lia].
    pose proof (filter_length_le (fun t => negb (Nat.eqb (fst t) h)) (timers w')).
    unfold clearTimeout. lia. }
  unfold handle, triggers, qualifying.
  destruct (kind e); rewrite ?orb_false_r, ?orb_true_r;
    try (destruct (Str.endsWith ".html" (path e)); cbv iota; lia); cbv iota; try lia.
  cbn [rebuilds timers]. rewrite length_app. cbn [List.length]. lia.
Qed.

(** X9. The index is never rebuilt more often than there were qualifying
    change events and ready events; a stream holding neither (changes to
    files that are not article files, watcher errors) rebuilds nothing. *)
Theorem rebuilds_bounded (events : list Event) :
  (List.length (rebuilds (watch events)) <= List.length (filter triggers events))%nat
  /\ (forallb (fun e => negb (triggers e)) events = true -> rebuilds (watch events) = []).
Proof.
  assert (H : forall w,
             (List.length (rebuilds (fold_left deliver events w))
              + List.length (timers (fold_left deliver events w))
              <= List.length (rebuilds w) + List.length (timers w)
                 + List.length (filter triggers events))%nat).
  { induction events as [|e events IH]; intros w; cbn [fold_left filter]; [lia|].
    specialize (IH (deliver w e)). pose proof (deliver_budget w e).
    destruct (triggers e); cbn [List.length]; lia. }
  assert (B : (List.length (rebuilds (watch events))
               <= List.length (filter triggers events))%nat).
  { unfold watch, settle. cbn [rebuilds]. rewrite length_app, length_map.
    specialize (H startWatcher). cbn [startWatcher rebuilds timers List.length] in H. lia. }
  split; [exact B|]. intros Hnone.
  assert (E : filter triggers events = []).
  { clear - Hnone. induction events as [|e events IH]; [reflexivity|].
    cbn [forallb filter] in *. apply andb_prop in Hnone as [He Hn].
    apply negb_true_iff in He. rewrite He. now apply IH. }
  rewrite E in B. destruct (rebuilds (watch events)); [reflexivity|cbn in B; lia].
Qed.

(** *** Events more than a second apart *)

Lemma advance_owed (now : Z) (w : Watcher) :
  oneTimer w -> owed (advance now w) = owed w.
Proof.
  intros [E|(h & t & E & _)]; unfold owed, advance; cbn [rebuilds timers]; rewrite E;
    cbn [filter snd map].
  - now rewrite !app_nil_r.
  - destruct (t <=? now)%Z; cbn [negb map snd]; now rewrite ?app_nil_r.
Qed.

(** A timer that is due has run when the event is handled. *)
Lemma advance_due (now t : Z) (w : Watcher) :
  (timers w = [] \/ exists h, timers w = [(h, t)]) -> (t <= now)%Z ->
  timers (advance now w) = [].
Proof.
  intros [E|(h & E)] Hle; unfold advance; cbn [timers]; rewrite E; [reflexivity|].
  cbn [filter snd]. apply Z.leb_le in Hle. now rewrite Hle.
Qed.

Lemma advance_pending (now t : Z) (w : Watcher) :
  (timers w = [] \/ exists h, timers w = [(h, t)]) ->
  timers (advance now w) = [] \/ exists h, timers (advance now w) = [(h, t)].
Proof.
  intros [E|(h & E)]; unfold advance; cbn [timers]; rewrite E; [now left|].
  cbn [filter snd]. destruct (t <=? now)%Z; cbn [negb]; [now left|right; now exists h].
Qed.

Lemma handle_other (e : Event) (w : Watcher) :
  qualifying e = false -> isReady e = false -> handle e w = w.
Proof.
  unfold qualifying, isReady, handle.
  destruct (kind e); try discriminate; try reflexivity; now intros ->.
Qed.

Lemma spaced_owed (events : list Event) :
  forall (w : Watcher) (t : Z),
    oneTimer w ->
    (timers w = [] \/ exists h, timers w = [(h, (t + 1000)%Z)]) ->
    spacedOut t (filter qualifying events) = true ->
    Permutation (owed (fold_left deliver events w))
      (owed w ++ map at_time (filter isReady events)
         ++ map (fun x => (at_time x + 1000)%Z) (filter qualifying events)).
Proof.
  induction events as [|e events IH]; intros w t Hw Ht Hs.
  - cbn [fold_left filter map app]. now rewrite app_nil_r.
  - cbn [fold_left filter] in *.
    destruct (qualifying e) eqn:Hq.
    + assert (Hr : isReady e = false)
        by (unfold qualifying, isReady in *; now destruct (kind e)).
      rewrite Hr. cbn [spacedOut] in Hs. apply andb_prop in Hs as [Hlt Hs].
      apply Z.ltb_lt in Hlt.
      assert (Hd : timers (advance (at_time e) w) = [])
        by (apply (advance_due _ (t + 1000)%Z); [exact Ht|lia]).
      pose proof (advance_owed (at_time e) w Hw) as Ho.
      unfold owed in Ho at 1. rewrite Hd in Ho. cbn [map] in Ho. rewrite app_nil_r in Ho.
      rewrite (WatchFacts.arrive w e Hw Hq), Ho.
      etransitivity.
      * apply (IH _ (at_time e)); [| right; eexists; reflexivity | exact Hs].
        right. eexists _, _. split; reflexivity.
      * unfold owed at 1. cbn [rebuilds timers map snd].
        rewrite <- !app_assoc. apply Permutation_app_head. cbn [app].
        apply Permutation_cons_app. reflexivity.
    + unfold deliver.
      pose proof (WatchFacts.advance_oneTimer (at_time e) w Hw) as Hw'.
      pose proof (advance_pending (at_time e) _ w Ht) as Ht'.
      pose proof (advance_owed (at_time e) w Hw) as Ho.
      set (w' := advance (at_time e) w) in *. clearbody w'.
      destruct (isReady e) eqn:Hr.
      * assert (Hh : handle e w'
                     = {| regenerateTimeout := regenerateTimeout w'; timers := timers w';
                          next_handle := next_handle w';
                          rebuilds := (rebuilds w' ++ [at_time e])%list |}).
        { unfold isReady in Hr. unfold handle. now destruct (kind e). }
        rewrite Hh. etransitivity.
        -- apply (IH _ t); [| exact Ht' | exact Hs].
           destruct Hw' as [E|(h & d & E & Hh')]; [now left|right; now exists h, d].
        -- unfold owed at 1. cbn [rebuilds timers map]. rewrite <- Ho. unfold owed.
           rewrite <- !app_assoc. apply Permutation_app_head. cbn [app].
           rewrite <- ?app_assoc. apply Permutation_middle.
      * rewrite (handle_other e w' Hq Hr), <- Ho. now apply (IH _ t).
Qed.

Lemma advance_upTo (t now : Z) (w : Watcher) :
  oneTimer w -> upTo t w -> (t <= now)%Z -> upTo now (advance now w).
Proof.
  intros Hone (Hr & Hd & Hsorted) Hle.
  assert (Hr' : Forall (fun r => (r <= now)%Z) (rebuilds w)).
  { eapply Forall_impl; [|exact Hr]. cbn. intros; lia. }
  destruct Hone as [E|(h & d & E & _)]; unfold upTo, advance; cbn [rebuilds timers];
    rewrite E in *; cbn [filter snd map].
  - rewrite app_nil_r. now repeat split.
  - destruct (d <=? now)%Z eqn:Ed; cbn [negb map snd].
    + apply Z.leb_le in Ed. inversion Hd as [|? ? Htd _]; subst. cbn [snd] in Htd.
      split; [|split; [constructor|]].
      * apply Forall_app. split; [exact Hr'|]. now repeat constructor.
      * clear - Hsorted Hr Htd. induction Hsorted as [|a l Hs IH Ha].
        -- repeat constructor.
        -- cbn [app]. inversion Hr; subst. constructor; [now apply IH|].
           apply Forall_app. split; [exact Ha|]. repeat constructor. lia.
    + apply Z.leb_gt in Ed. rewrite app_nil_r.
      split; [exact Hr'|]. split; [|exact Hsorted]. repeat constructor. cbn. lia.
Qed.

Lemma sorted_snoc (l : list Z) (x : Z) :
  StronglySorted Z.le l -> Forall (fun r => (r <= x)%Z) l -> StronglySorted Z.le (l ++ [x]).
Proof.
  induction 1 as [|a l Hs IH Ha]; intros Hx; [repeat constructor|].
  inversion Hx; subst. cbn [app]. constructor; [now apply IH|].
  apply Forall_app. split; [exact Ha|]. now repeat constructor.
Qed.

Lemma deliver_upTo (t : Z) (w : Watcher) (e : Event) :
  oneTimer w -> upTo t w -> (t <= at_time e)%Z -> upTo (at_time e) (deliver w e).
Proof.
  intros Hone Hup Hle. unfold deliver.
  pose proof (advance_upTo t (at_time e) w Hone Hup Hle) as (Hr & Hd & Hsorted).
  pose proof (WatchFacts.advance_oneTimer (at_time e) w Hone) as Hone'.
  set (w' := advance (at_time e) w) in *. clearbody w'.
  assert (Hs : upTo (at_time e) (scheduleRegeneration (at_time e) w')).
  { unfold upTo, scheduleRegeneration. cbn [rebuilds timers].
    split; [exact Hr|]. split; [|exact Hsorted].
    apply Forall_app. split; [|repeat constructor; cbn; lia].
    destruct (regenerateTimeout w'); [|exact Hd].
    unfold clearTimeout. clear - Hd. induction Hd as [|x l Hx _ IH]; [constructor|].
    cbn [filter]. destruct (negb _); [now constructor|exact IH]. }
  unfold handle.
  destruct (kind e);
    try (destruct (Str.endsWith ".html" (path e)); [exact Hs|now repeat split]);
    [now repeat split|].
  unfold upTo. cbn [rebuilds timers]. split; [|split; [exact Hd|]].
  - apply Forall_app. split; [exact Hr|]. repeat constructor. lia.
  - now apply sorted_snoc.
Qed.

Lemma fold_upTo (events : list Event) :
  forall (t : Z) (w : Watcher),
    oneTimer w -> upTo t w -> chronological t events = true ->
    StronglySorted Z.le (owed (fold_left deliver events w)).
Proof.
  induction events as [|e events IH]; intros t w Hone (Hr & Hd & Hsorted) Hc.
  - cbn [fold_left]. unfold owed.
    destruct Hone as [E|(h & d & E & _)]; rewrite E in *; cbn [map snd].
    + now rewrite app_nil_r.
    + apply sorted_snoc; [exact Hsorted|]. inversion Hd; subst. cbn [snd] in *.
      eapply Forall_impl; [|exact Hr]. cbn. intros; lia.
  - cbn [chronological] in Hc. apply andb_prop in Hc as [Hle Hc]. apply Z.leb_le in Hle.
    cbn [fold_left]. apply (IH (at_time e)); [|apply (deliver_upTo t)|exact Hc];
      try assumption; try (now repeat split).
    now apply WatchFacts.deliver_oneTimer.
Qed.

(** X10. Qualifying change events that come more than a second apart are
    not merged, whatever else the stream holds (the ready event, events on
    other files, errors): the rebuilds made are, one for one, those of the
    ready events, at their times, and those of the qualifying events, each
    one second after its event; when the events come in the order of their
    times, the rebuilds are made in the order of theirs. *)
Theorem spaced_events_rebuild_each (events : list Event) :
  apart events = true ->
  Permutation (rebuilds (watch events))
    (map at_time (filter isReady events)
       ++ map (fun x => (at_time x + 1000)%Z) (filter qualifying events))
  /\ (forall t, chronological t events = true ->
                StronglySorted Z.le (rebuilds (watch events))).
Proof.
  intros Ha.
  assert (E : forall w, rebuilds (settle w) = owed w) by reflexivity.
  assert (H0 : oneTimer startWatcher) by now left.
  unfold watch. rewrite E. split.
  - unfold apart in Ha.
    destruct (filter qualifying events) as [|q qs] eqn:Eq.
    + pose proof (spaced_owed events startWatcher 0 H0 (or_introl eq_refl)) as H.
      rewrite Eq in H. now apply H.
    + pose proof (spaced_owed events startWatcher (at_time q - 1001) H0 (or_introl eq_refl))
        as H.
      rewrite Eq in H. apply H. cbn [spacedOut]. rewrite Ha, andb_true_r.
      apply Z.ltb_lt. lia.
  - intros t Hc. apply (fold_upTo events t); [exact H0| |exact Hc].
    unfold upTo, startWatcher. cbn [rebuilds timers]. repeat constructor.
Qed.

Lemma spaced_events_rebuild_each_witness :
  Permutation
    (rebuilds (watch [ mkEvent 0 ready "";
                       mkEvent 10 add "articles/a.html";
                       mkEvent 50 change "notes.txt";
                       mkEvent 1500 change "articles/a.html";
                       mkEvent 2000 error "";
                       mkEvent 4000 unlink "articles/b.html" ]))
    [0%Z; 1010%Z; 2500%Z; 5000%Z].
Proof.
  exact (proj1 (spaced_events_rebuild_each
                  [ mkEvent 0 ready "";
                    mkEvent 10 add "articles/a.html";
                    mkEvent 50 change "notes.txt";
                    mkEvent 1500 change "articles/a.html";
                    mkEvent 2000 error "";
                    mkEvent 4000 unlink "articles/b.html" ] eq_refl)).
Defined.

End WatcherFacts.

(** ** Further properties of the URL reconciliation *)

Module ReconcilerFacts.

Import WatchArticles ValidateUrls.

(** *** Extraction *)

Lemma set_add_In (acc : list string) (v u : string) :
  In u (set_add acc v) <-> In u acc \/ u = v.
Proof.
  unfold set_add. destruct (existsb (String.eqb v) acc) eqn:E.
  - split; [auto|]. intros [H| ->]; [exact H|].
    apply existsb_exists in E as (x & Hx & Ex). apply String.eqb_eq in Ex. now subst.
  - rewrite in_app_iff. cbn. intuition.
Qed.

Lemma set_add_NoDup (acc : list string) (v : string) :
  NoDup acc -> NoDup (set_add acc v).
Proof.
  intros H. unfold set_add. destruct (existsb (String.eqb v) acc) eqn:E; [exact H|].
  apply NoDup_app; [exact H | repeat constructor; intros [] |].
  intros x Hx. cbn. intros [<-|[]].
  assert (Hex : existsb (String.eqb v) acc = true).
  { apply existsb_exists. exists v. split; [exact Hx|apply String.eqb_refl]. }
  congruence.
Qed.

Lemma addAll_In (vs acc : list string) (u : string) :
  In u (addAll acc vs) <-> In u acc \/ (In u vs /\ isHttp u = true).
Proof.
  unfold addAll. revert acc. induction vs as [|v vs IH]; intros acc; cbn [fold_left In].
  - tauto.
  - rewrite IH. destruct (isHttp v) eqn:Hv.
    + rewrite set_add_In. split.
      * intros [[H| ->]|[H1 H2]]; auto.
      * intros [H|[[<-|H1] H2]]; auto.
    + split.
      * intros [H|[H1 H2]]; auto.
      * intros [H|[[<-|H1] H2]]; auto. congruence.
Qed.

Lemma addAll_NoDup (vs acc : list string) : NoDup acc -> NoDup (addAll acc vs).
Proof.
  unfold addAll. revert acc. induction vs as [|v vs IH]; intros acc H; [exact H|].
  cbn [fold_left]. apply IH. destruct (isHttp v); [now apply set_add_NoDup|exact H].
Qed.

(** X11. The URLs extracted from a page are exactly the values of the image,
    link and frame attributes that start with http:// or https://, each
    listed once. *)
Theorem extractURLs_exact (cheerio : Cheerio) (html : string) :
  NoDup (extractURLs cheerio html)
  /\ forall u,
       In u (extractURLs cheerio html) <->
       isHttp u = true
       /\ (In u (cheerio html img_src) \/ In u (cheerio html a_href)
           \/ In u (cheerio html iframe_src)).
Proof.
  unfold extractURLs. split.
  - repeat apply addAll_NoDup. constructor.
  - intros u. rewrite !addAll_In. cbn [In]. tauto.
Qed.

(** *** The replacement finder *)

Lemma checkURL_probes (net : Network) (w : string) (m : Method) (v : string) :
  In (m, v) (snd (checkURL net w)) -> v = w.
Proof.
  unfold checkURL. destruct (net HEAD w); [|destruct (net GET w)]; cbn;
    intuition congruence.
Qed.

Lemma checkURL_probe_count (net : Network) (w : string) :
  (List.length (snd (checkURL net w)) <= 2)%nat
  /\ In (HEAD, w) (snd (checkURL net w)).
Proof.
  unfold checkURL. destruct (net HEAD w); [|destruct (net GET w)]; cbn; auto.
Qed.

Lemma probesOf_In (net : Network) (vs : list string) (m : Method) (v : string) :
  In (m, v) (probesOf net vs) -> In v vs.
Proof.
  unfold probesOf. rewrite in_flat_map. intros (w & Hw & H).
  now rewrite (checkURL_probes net w m v H).
Qed.

Lemma probesOf_length (net : Network) (vs : list string) :
  (List.length (probesOf net vs) <= 2 * List.length vs)%nat.
Proof.
  unfold probesOf. induction vs as [|w vs IH]; [cbn; lia|].
  cbn [flat_map List.length]. rewrite length_app.
  pose proof (proj1 (checkURL_probe_count net w)). lia.
Qed.

Lemma candidates_facts (u : string) :
  (List.length (candidates u) <= 4)%nat
  /\ (forall v, In v (candidates u) -> v <> u /\ In v (variations u))
  /\ In (archiveOf u) (candidates u).
Proof.
  unfold candidates. split; [|split].
  - etransitivity; [apply filter_length_le|]. cbn. lia.
  - intros v Hv. apply filter_In in Hv as [Hin Hne]. split; [|exact Hin].
    apply negb_true_iff in Hne. intros ->. now rewrite String.eqb_refl in Hne.
  - apply filter_In. split; [cbn; auto|]. apply negb_true_iff.
    destruct (String.eqb_spec (archiveOf u) u) as [E|]; [|reflexivity].
    exfalso. apply (f_equal String.length) in E. unfold archiveOf in E.
    rewrite PipelineFacts.string_length_app in E. cbn in E. lia.
Qed.

(** X12. The replacement finder probes only variations of the URL it was
    given, never that URL itself, and issues at most eight probes. *)
Theorem finder_probes_variations (net : Network)
    (URL_hostname : string -> option string) (u context : string) :
  let probes := snd (findReplacementURL net URL_hostname u context) in
  (forall m v, In (m, v) probes -> v <> u /\ In v (variations u))
  /\ (List.length probes <= 8)%nat.
Proof.
  cbv zeta. unfold findReplacementURL.
  destruct (URL_hostname u) as [domain|]; [|cbn; split; [tauto|lia]].
  destruct (candidates_facts u) as (Hlen & Hcand & _).
  destruct (ValidateFacts.tryVariations_spec net u (variations u))
    as [(pre & v & post & Hcs & _ & _ & Htry)|[_ Htry]]; fold (candidates u) in *;
    rewrite Htry; cbn [snd].
  - assert (Hsub : forall w, In w (pre ++ [v]) -> In w (candidates u)).
    { intros w Hw. rewrite Hcs. apply in_app_or in Hw as [Hw|[<-|[]]];
        apply in_or_app; [now left|right; now left]. }
    split.
    + intros m w Hw. apply Hcand, Hsub. now apply (probesOf_In net _ m).
    + pose proof (probesOf_length net (pre ++ [v])) as Hp.
      rewrite Hcs, !length_app in *. cbn [List.length] in *. lia.
  - split.
    + intros m w Hw. apply Hcand. now apply (probesOf_In net _ m).
    + pose proof (probesOf_length net (candidates u)). lia.
Qed.

(** X13. Before it reports that no replacement was found for a URL that
    parses, the finder has probed the web-archive address of that URL. *)
Theorem archive_tried_before_giving_up (net : Network)
    (URL_hostname : string -> option string) (u context domain : string) :
  URL_hostname u = Some domain ->
  found (fst (findReplacementURL net URL_hostname u context)) = false ->
  In (HEAD, archiveOf u) (snd (findReplacementURL net URL_hostname u context))
  /\ accepted net (archiveOf u) = false.
Proof.
  intros Hh. unfold findReplacementURL. rewrite Hh.
  destruct (candidates_facts u) as (_ & _ & Harch).
  destruct (ValidateFacts.tryVariations_spec net u (variations u))
    as [(pre & v & post & Hcs & _ & _ & Htry)|[Hall Htry]]; fold (candidates u) in *;
    rewrite Htry; cbn [fst snd found]; [discriminate|]. intros _. split.
  - unfold probesOf. apply in_flat_map. exists (archiveOf u). split; [exact Harch|].
    apply checkURL_probe_count.
  - unfold rejectedAll in Hall. rewrite forallb_forall in Hall.
    apply negb_true_iff. now apply Hall.
Qed.

Lemma archive_tried_before_giving_up_witness :
  In (HEAD, "https://web.archive.org/web/*/http://example.com/a")
    (snd (findReplacementURL (Samples.alive ["http://www.example.com/a"]) Samples.hostOf
            "http://example.com/a" "story.html")).
Proof.
  apply (archive_tried_before_giving_up (Samples.alive ["http://www.example.com/a"])
           Samples.hostOf "http://example.com/a" "story.html" "example.com");
    reflexivity.
Defined.

(** *** The loop, one URL after the other *)

Lemma concat_batches {A} (n : nat) (l : list A) :
  forall fuel, (List.length l <= fuel)%nat -> List.concat (batches fuel (S n) l) = l.
Proof.
  intros fuel. revert l. induction fuel as [|fuel IH]; intros l Hl.
  - destruct l; [reflexivity|cbn in Hl; lia].
  - destruct l as [|a l]; [reflexivity|].
    cbn [batches List.concat]. rewrite IH.
    + apply firstn_skipn.
    + cbn [skipn List.length] in *. pose proof (length_skipn n l). lia.
Qed.

Section OneByOne.

Variable net : Network.
Variable URL_hostname : string -> option string.

(** Batching changes nothing in the outcome: the loop over the batches is
    the loop over the URLs. *)
Lemma resolveAll_flat (file content : string) (us : list string) :
  resolveAll net URL_hostname file content us
  = fold_left (handleCheck net URL_hostname file)
      (map (fun u => fst (checkURL net u)) us)
      {| modifiedContent := content; fixedCount := 0; results := [];
         printed := [Log ("Checking " ++ file ++ " ("
                            ++ Str.of_Z (Z.of_nat (List.length us)) ++ " URLs)")] |}.
Proof.
  unfold resolveAll. unfold MAX_CONCURRENT_CHECKS.
  rewrite <- (concat_batches 4 us (List.length us) (Nat.le_refl _)) at 4.
  generalize (batches (List.length us) 5 us) as bs. intros bs.
  generalize {| modifiedContent := content; fixedCount := 0; results := [];
                printed := [Log ("Checking " ++ file ++ " ("
                                   ++ Str.of_Z (Z.of_nat (List.length us)) ++ " URLs)")] |}
    as st.
  induction bs as [|b bs IH]; intros st; [reflexivity|].
  cbn [List.concat fold_left]. rewrite map_app, fold_left_app. apply IH.
Qed.

Lemma fold_invariant {S X} (P : S -> list X -> Prop) (f : S -> X -> S) :
  (forall st done x, P st done -> P (f st x) (done ++ [x])%list) ->
  forall xs st done, P st done -> P (fold_left f xs st) (done ++ xs)%list.
Proof.
  intros Hstep xs. induction xs as [|x xs IH]; intros st done H.
  - now rewrite app_nil_r.
  - cbn [fold_left]. replace (done ++ x :: xs)%list with ((done ++ [x]) ++ xs)%list
      by (now rewrite <- app_assoc).
    apply IH, Hstep, H.
Qed.

(** The [results] array lists the URLs found unreachable, in order; the
    count of fixes is the number of entries marked fixed. *)
Lemma results_are_unreachable (file content : string) (us : list string) :
  let st := resolveAll net URL_hostname file content us in
  map r_url (results st) = filter (fun u => negb (accepted net u)) us
  /\ fixedCount st = Z.of_nat (List.length (filter r_fixed (results st))).
Proof.
  cbv zeta. rewrite resolveAll_flat.
  set (st0 := {| modifiedContent := content |}).
  pose (P := fun (st : Loop) (done : list CheckResult) =>
               map r_url (results st)
               = map url (filter (fun c => negb (ok c)) done)
               /\ fixedCount st = Z.of_nat (List.length (filter r_fixed (results st)))).
  assert (H : P (fold_left (handleCheck net URL_hostname file)
                   (map (fun u => fst (checkURL net u)) us) st0)
                ([] ++ map (fun u => fst (checkURL net u)) us)%list).
  { apply fold_invariant; [|split; reflexivity].
    intros st done c [H1 H2]. unfold P, handleCheck.
    rewrite filter_app, map_app. cbn [filter].
    destruct (ok c); cbn [negb]; [rewrite app_nil_r; now split|].
    destruct (found _); [destruct (newUrl _)|]; cbn [results fixedCount];
      rewrite map_app, filter_app, length_app, H1; cbn [map r_url filter r_fixed List.length];
      (split; [reflexivity|]); rewrite H2; lia. }
  destruct H as [H1 H2]. split; [|exact H2]. rewrite H1. cbn [app].
  clear. induction us as [|u us IH]; [reflexivity|]. cbn [map filter].
  unfold accepted at 1. destruct (ok (fst (checkURL net u))); cbn [negb map];
    [exact IH|]. now rewrite IH, ValidateFacts.checkURL_url.
Qed.

(** When no unreachable URL of the list finds a replacement, the loop
    leaves the working copy as it was and counts no fix. *)
Lemma nothing_fixed (file content : string) (us : list string) :
  (forall u, In u us ->
             accepted net u = true
             \/ found (fst (findReplacementURL net URL_hostname u file)) = false) ->
  let st := resolveAll net URL_hostname file content us in
  modifiedContent st = content /\ fixedCount st = 0%Z.
Proof.
  intros Hus. cbv zeta. rewrite resolveAll_flat.
  set (st0 := {| modifiedContent := content |}).
  assert (H0 : modifiedContent st0 = content /\ fixedCount st0 = 0%Z) by now split.
  clearbody st0. revert st0 H0.
  induction us as [|u us IH]; intros st0 H0; [exact H0|].
  cbn [map fold_left]. apply IH; [intros v Hv; apply Hus; now right|].
  unfold handleCheck. rewrite ValidateFacts.checkURL_url.
  destruct (Hus u (or_introl eq_refl)) as [Hok|Hnf].
  - unfold accepted in Hok. now rewrite Hok.
  - destruct (ok (fst (checkURL net u))); [exact H0|]. now rewrite Hnf.
Qed.

End OneByOne.

(** *** What a run leaves on disk *)

(** X14. A file none of whose unreachable URLs finds a replacement is not
    written: the disk is left exactly as it was, no write call is made, and
    the result reports zero fixes and every unreachable URL as broken. *)
Theorem unfixable_leaves_disk (net : Network) (URL_hostname : string -> option string)
    (cheerio : Cheerio) (d : Disk) (path content : string) :
  readArticle d path = ReadOk content ->
  (forall u, In u (extractURLs cheerio content) ->
             accepted net u = true
             \/ found (fst (findReplacementURL net URL_hostname u (Str.basename path)))
                = false) ->
  let run := validateArticle net URL_hostname cheerio d path in
  snd (fst run) = d
  /\ fixed (fst (fst run)) = Some 0%Z
  /\ result_error (fst (fst run)) = None
  /\ option_map (map r_url) (broken (fst (fst run)))
     = Some (filter (fun u => negb (accepted net u)) (extractURLs cheerio content)).
Proof.
  intros Hr Hus. cbv zeta. unfold validateArticle. rewrite Hr.
  destruct (extractURLs cheerio content) as [|u us] eqn:E; [cbn; auto|].
  destruct (nothing_fixed net URL_hostname (Str.basename path) content (u :: us) Hus)
    as [_ Hz].
  destruct (results_are_unreachable net URL_hostname (Str.basename path) content (u :: us))
    as [Hres Hcount].
  rewrite Hz in *. cbn [Z.ltb Z.compare fst snd fixed result_error broken option_map].
  repeat split. f_equal. rewrite <- Hres.
  assert (Hnone : filter r_fixed
                    (results (resolveAll net URL_hostname (Str.basename path) content
                                (u :: us))) = []).
  { destruct (filter r_fixed _); [reflexivity|cbn in Hcount; lia]. }
  clear - Hnone.
  induction (results (resolveAll net URL_hostname (Str.basename path) content (u :: us)))
    as [|r rs IH]; [reflexivity|].
  cbn [filter] in *. destruct (r_fixed r); [discriminate|]. cbn [negb map].
  now rewrite IH.
Qed.

Lemma unfixable_leaves_disk_witness :
  snd (fst (validateArticle (Samples.alive []) Samples.hostOf
              (Samples.imagesOnly [Samples.deadHttp])
              (Samples.diskOf (Samples.oneImage Samples.deadHttp))
              "articles/story.html"))
  = Samples.diskOf (Samples.oneImage Samples.deadHttp).
Proof.
  apply (unfixable_leaves_disk (Samples.alive []) Samples.hostOf
           (Samples.imagesOnly [Samples.deadHttp])
           (Samples.diskOf (Samples.oneImage Samples.deadHttp))
           "articles/story.html"
           ("<p>" ++ Samples.img Samples.deadHttp ++ "</p><p>"
              ++ Samples.img Samples.deadHttp ++ "</p>")
           eq_refl).
  intros u [<-|[]]. right. reflexivity.
Defined.

Lemma lookup_store_other (entries : list (string * Read)) (name content n : string) :
  n <> name -> lookup n (store name content entries) = lookup n entries.
Proof.
  intros Hn. induction entries as [|[m r] entries IH]; cbn [store lookup].
  - destruct (String.eqb_spec name n); [congruence|reflexivity].
  - destruct (String.eqb_spec m name) as [->|Hm]; cbn [lookup].
    + destruct (String.eqb_spec name n); [congruence|reflexivity].
    + now rewrite IH.
Qed.

Lemma writeArticle_other (d : Disk) (g content f : string) :
  f <> g ->
  readArticle (fst (writeArticle d (articlePath g) content)) (articlePath f)
  = readArticle d (articlePath f).
Proof.
  intros Hfg. unfold writeArticle.
  destruct (write_error d (articlePath g)); [reflexivity|].
  destruct (dir d) as [entries|m] eqn:E; [|unfold readArticle, readFile; cbn; now rewrite E].
  unfold readArticle, readFile. cbn [articles dir fst]. rewrite E.
  cbn. now apply lookup_store_other.
Qed.

Lemma validateArticle_other (net : Network) (URL_hostname : string -> option string)
    (cheerio : Cheerio) (d : Disk) (f g : string) :
  f <> g ->
  readArticle (snd (fst (validateArticle net URL_hostname cheerio d (articlePath g))))
    (articlePath f)
  = readArticle d (articlePath f).
Proof.
  intros Hfg. unfold validateArticle.
  destruct (readArticle d (articlePath g)) as [content|m]; [|reflexivity].
  destruct (extractURLs cheerio content) as [|u us]; [reflexivity|].
  destruct (0 <? fixedCount _)%Z; [|reflexivity].
  rewrite <- (writeArticle_other d g
                (modifiedContent (resolveAll net URL_hostname
                                    (Str.basename (articlePath g)) content (u :: us)))
                f Hfg).
  destruct (writeArticle d (articlePath g) _) as [d' [m|]]; reflexivity.
Qed.

(** X15. Validating one article never changes what any other article file
    holds. *)
Theorem other_articles_untouched (net : Network) (URL_hostname : string -> option string)
    (cheerio : Cheerio) (d : Disk) (f g : string) :
  f <> g ->
  readArticle (snd (fst (validateArticle net URL_hostname cheerio d (articlePath g))))
    (articlePath f)
  = readArticle d (articlePath f).
Proof. intros Hfg. now apply validateArticle_other. Qed.

Lemma other_articles_untouched_witness :
  readArticle
    (snd (fst (validateArticle (Samples.alive [Samples.deadHttp]) Samples.hostOf
                 (Samples.imagesOnly [Samples.deadHttps])
                 (Samples.diskOf (Samples.oneImage Samples.deadHttps
                                    ++ [("other.html", ReadOk Samples.deadHttps)])%list)
                 (articlePath "story.html"))))
    (articlePath "other.html")
  = ReadOk Samples.deadHttps.
Proof.
  rewrite (other_articles_untouched (Samples.alive [Samples.deadHttp]) Samples.hostOf
             (Samples.imagesOnly [Samples.deadHttps]) _ "other.html" "story.html");
    [reflexivity|discriminate].
Defined.

(** X16. In the result of a file that was read and, if need be, written
    back, the fixes and the broken entries together account for every
    unreachable URL of the file, once each: their numbers add up to the
    number of unreachable URLs, and each broken entry is an unreachable URL
    of the file that is not marked fixed. *)
Theorem result_accounts_for_unreachable (net : Network)
    (URL_hostname : string -> option string) (cheerio : Cheerio)
    (d : Disk) (path content : string) :
  readArticle d path = ReadOk content ->
  let res := fst (fst (validateArticle net URL_hostname cheerio d path)) in
  let unreachable := filter (fun u => negb (accepted net u)) (extractURLs cheerio content) in
  result_error res = None ->
  exists k b,
    fixed res = Some k /\ broken res = Some b
    /\ (k + Z.of_nat (List.length b) = Z.of_nat (List.length unreachable))%Z
    /\ (0 <= k)%Z
    /\ Forall (fun r => r_fixed r = false /\ In (r_url r) unreachable) b.
Proof.
  intros Hr. cbv zeta.
  destruct (results_are_unreachable net URL_hostname (Str.basename path) content
              (extractURLs cheerio content)) as [Hres Hcount].
  set (st := resolveAll net URL_hostname (Str.basename path) content
               (extractURLs cheerio content)) in *.
  assert (Hgoal : exists k b,
             Some (fixedCount st) = Some k
             /\ Some (filter (fun r => negb (r_fixed r)) (results st)) = Some b
             /\ (k + Z.of_nat (List.length b)
                 = Z.of_nat (List.length
                               (filter (fun u => negb (accepted net u))
                                  (extractURLs cheerio content))))%Z
             /\ (0 <= k)%Z
             /\ Forall (fun r => r_fixed r = false
                                 /\ In (r_url r)
                                      (filter (fun u => negb (accepted net u))
                                         (extractURLs cheerio content))) b).
  { exists (fixedCount st), (filter (fun r => negb (r_fixed r)) (results st)).
    split; [reflexivity|]. split; [reflexivity|]. rewrite <- Hres, length_map, Hcount.
    split; [|split; [lia|]].
    - pose proof (WatcherFacts.filter_split_length r_fixed (results st)). lia.
    - apply Forall_forall. intros r Hin. apply filter_In in Hin as [Hin Hf].
      apply negb_true_iff in Hf. split; [exact Hf|]. now apply in_map. }
  unfold validateArticle. rewrite Hr. fold st.
  destruct (extractURLs cheerio content) as [|u us] eqn:E.
  - intros _. exists 0%Z, []. cbn. repeat split; auto; lia.
  - destruct (0 <? fixedCount st)%Z.
    + destruct (writeArticle d path (modifiedContent st)) as [d' [m|]];
        cbn [fst result_error fixed broken]; [discriminate|]. intros _. exact Hgoal.
    + cbn [fst result_error fixed broken]. intros _. exact Hgoal.
Qed.

Lemma result_accounts_for_unreachable_witness :
  exists k b,
    fixed (fst (fst (validateArticle (Samples.alive [Samples.deadHttp]) Samples.hostOf
                       (Samples.imagesOnly [Samples.deadHttps; Samples.deadHttp;
                                            "http://gone.example/"])
                       (Samples.diskOf (Samples.oneImage Samples.deadHttps))
                       "articles/story.html"))) = Some k
    /\ broken (fst (fst (validateArticle (Samples.alive [Samples.deadHttp]) Samples.hostOf
                           (Samples.imagesOnly [Samples.deadHttps; Samples.deadHttp;
                                                "http://gone.example/"])
                           (Samples.diskOf (Samples.oneImage Samples.deadHttps))
                           "articles/story.html"))) = Some b
    /\ (k + Z.of_nat (List.length b) = 2)%Z.
Proof.
  destruct (result_accounts_for_unreachable (Samples.alive [Samples.deadHttp])
              Samples.hostOf
              (Samples.imagesOnly [Samples.deadHttps; Samples.deadHttp;
                                   "http://gone.example/"])
              (Samples.diskOf (Samples.oneImage Samples.deadHttps))
              "articles/story.html"
              ("<p>" ++ Samples.img Samples.deadHttps ++ "</p><p>"
                 ++ Samples.img Samples.deadHttps ++ "</p>")
              eq_refl eq_refl) as (k & b & Hk & Hb & Hsum & _).
  exists k, b. repeat split; assumption.
Defined.

(** *** The summary *)

Section RunSummary.

Variable net : Network.
Variable URL_hostname : string -> option string.
Variable cheerio : Cheerio.

Lemma validateEach_write_error (files : list string) :
  forall d,
    write_error (snd (fst (validateEach net URL_hostname cheerio d files)))
    = write_error d.
Proof.
  induction files as [|f files IH]; intros d; [reflexivity|].
  cbn [validateEach].
  pose proof (ValidateFacts.validateArticle_write_error net URL_hostname cheerio d
                (articlePath f)) as H1.
  destruct (validateArticle net URL_hostname cheerio d (articlePath f)) as [[r d1] out1].
  specialize (IH d1).
  destruct (validateEach net URL_hostname cheerio d1 files) as [[rs d2] out2].
  cbn [fst snd] in *. congruence.
Qed.

Lemma validateEach_report (files : list string) :
  forall d,
    report (snd (fst (validateEach net URL_hostname cheerio d files))) = report d.
Proof.
  induction files as [|f files IH]; intros d; [reflexivity|].
  cbn [validateEach].
  assert (H1 : report (snd (fst (validateArticle net URL_hostname cheerio d (articlePath f))))
               = report d).
  { unfold validateArticle. destruct (readArticle d (articlePath f)); [|reflexivity].
    destruct (extractURLs cheerio content); [reflexivity|].
    destruct (0 <? fixedCount _)%Z; [|reflexivity].
    unfold writeArticle. destruct (write_error d (articlePath f)); [reflexivity|].
    destruct (dir d); reflexivity. }
  destruct (validateArticle net URL_hostname cheerio d (articlePath f)) as [[r d1] out1].
  specialize (IH d1).
  destruct (validateEach net URL_hostname cheerio d1 files) as [[rs d2] out2].
  cbn [fst snd] in *. congruence.
Qed.

Lemma validateEach_length (files : list string) :
  forall d,
    List.length (fst (fst (validateEach net URL_hostname cheerio d files)))
    = List.length files.
Proof.
  induction files as [|f files IH]; intros d; [reflexivity|].
  cbn [validateEach].
  destruct (validateArticle net URL_hostname cheerio d (articlePath f)) as [[r d1] out1].
  specialize (IH d1).
  destruct (validateEach net URL_hostname cheerio d1 files) as [[rs d2] out2].
  cbn [fst snd List.length] in *. now rewrite IH.
Qed.

(** A readable file without URLs gives a result whose [urls] is the empty
    array, whatever was validated before it. *)
Lemma validateEach_empty (files : list string) (f c : string) :
  NoDup files -> In f files ->
  extractURLs cheerio c = [] ->
  forall d,
    readArticle d (articlePath f) = ReadOk c ->
    exists r,
      In r (fst (fst (validateEach net URL_hostname cheerio d files)))
      /\ urls r = UrlsEmptyArray.
Proof.
  intros Hnd Hin He. induction Hnd as [|g files Hg Hnd IH]; [contradiction|].
  intros d Hr. cbn [validateEach].
  destruct Hin as [->|Hin].
  - assert (H : urls (fst (fst (validateArticle net URL_hostname cheerio d (articlePath f))))
                = UrlsEmptyArray).
    { unfold validateArticle. now rewrite Hr, He. }
    destruct (validateArticle net URL_hostname cheerio d (articlePath f)) as [[r d1] out1].
    destruct (validateEach net URL_hostname cheerio d1 files) as [[rs d2] out2].
    exists r. split; [now left|exact H].
  - assert (Hfg : f <> g) by (intros ->; contradiction).
    pose proof (validateArticle_other net URL_hostname cheerio d f g Hfg) as Hsame.
    destruct (validateArticle net URL_hostname cheerio d (articlePath g)) as [[r d1] out1].
    cbn [fst snd] in Hsame. rewrite Hr in Hsame.
    destruct (IH Hin d1 Hsame) as (r' & Hr' & Hu).
    destruct (validateEach net URL_hostname cheerio d1 files) as [[rs d2] out2].
    exists r'. split; [now right|exact Hu].
Qed.

Lemma plusUrls_sticky (rs : list ArticleResult) :
  forall s, exists s', fold_left plusUrls rs (inl s) = inl s'.
Proof.
  induction rs as [|r rs IH]; intros s; [now exists s|].
  cbn [fold_left]. unfold plusUrls at 2. destruct (urls r); apply IH.
Qed.

Lemma plusUrls_empty (rs : list ArticleResult) (r : ArticleResult) :
  In r rs -> urls r = UrlsEmptyArray ->
  forall acc, exists s, fold_left plusUrls rs acc = inl s.
Proof.
  induction rs as [|x rs IH]; intros Hin Hu acc; [contradiction|].
  cbn [fold_left]. destruct Hin as [->|Hin]; [|now apply IH].
  unfold plusUrls at 2. rewrite Hu. destruct acc as [s|a]; apply plusUrls_sticky.
Qed.

(** X17. As soon as one readable article file of the directory holds no
    URL, the total of URLs checked in the report is no longer a number but
    a string of digits put end to end: the empty array that file returns is
    taken for a truthy value and added as text. *)
Theorem total_urls_becomes_text (now : string) (d : Disk)
    (entries : list (string * Read)) (f c : string) :
  dir d = ListOk entries ->
  NoDup (map fst entries) ->
  In (f, ReadOk c) entries ->
  Str.endsWith ".html" f = true ->
  extractURLs cheerio c = [] ->
  write_error d REPORT_PATH = None ->
  exists rep s,
    report (fst (fst (validateAllArticles net URL_hostname cheerio now d))) = Some rep
    /\ totalUrls (summary rep) = inl s.
Proof.
  intros Hd Hnd Hin Hext He Hw. unfold validateAllArticles. rewrite Hd.
  assert (Hfiles : NoDup (htmlFilesOf entries)).
  { unfold htmlFilesOf. now apply NoDup_filter. }
  assert (Hf : In f (htmlFilesOf entries)).
  { unfold htmlFilesOf. apply filter_In. split; [|exact Hext].
    change f with (fst (f, ReadOk c)). now apply in_map. }
  assert (Hr : readArticle d (articlePath f) = ReadOk c).
  { unfold readArticle, readFile. cbn [articles]. rewrite Hd. cbn.
    now apply WatchFacts.lookup_own. }
  destruct (validateEach_empty _ f c Hfiles Hf He d Hr) as (r & Hrin & Hu).
  pose proof (validateEach_write_error (htmlFilesOf entries) d) as Hwe.
  destruct (validateEach net URL_hostname cheerio d (htmlFilesOf entries)) as [[rs d'] out].
  cbn [fst snd] in *. rewrite Hwe, Hw. cbn [fst report].
  destruct (plusUrls_empty rs r Hrin Hu (inr 0%Z)) as [s Hs].
  eexists. exists s. split; [reflexivity|]. cbn [summary totalUrls summarise]. exact Hs.
Qed.

(** X18. Errors on single files never stop a run: with the directory
    readable and the report writable, the run returns normally and writes a
    report holding one detail entry per article file, whatever happened to
    each file.  When the report itself cannot be written the process ends
    with status 1 and no report, while the article files stay as the run
    left them. *)
Theorem run_completes (now : string) (d : Disk) (entries : list (string * Read)) :
  dir d = ListOk entries ->
  let run := validateAllArticles net URL_hostname cheerio now d in
  let each := validateEach net URL_hostname cheerio d (htmlFilesOf entries) in
  match write_error d REPORT_PATH with
  | None =>
      snd run = Returns
      /\ exists rep,
           report (fst (fst run)) = Some rep
           /\ timestamp rep = now
           /\ List.length (details rep) = List.length (htmlFilesOf entries)
           /\ totalArticles (summary rep) = Z.of_nat (List.length (htmlFilesOf entries))
  | Some m =>
      snd run = Exits 1
      /\ report (fst (fst run)) = report d
      /\ dir (fst (fst run)) = dir (snd (fst each))
  end.
Proof.
  intros Hd. cbv zeta. unfold validateAllArticles. rewrite Hd.
  pose proof (validateEach_write_error (htmlFilesOf entries) d) as Hwe.
  pose proof (validateEach_report (htmlFilesOf entries) d) as Hrep.
  pose proof (validateEach_length (htmlFilesOf entries) d) as Hlen.
  destruct (validateEach net URL_hostname cheerio d (htmlFilesOf entries)) as [[rs d'] out].
  cbn [fst snd] in *. rewrite Hwe.
  destruct (write_error d REPORT_PATH) as [m|]; cbn [fst snd report dir].
  - auto.
  - split; [reflexivity|]. eexists. split; [reflexivity|].
    cbn [timestamp details summary totalArticles summarise]. auto.
Qed.

End RunSummary.

Lemma run_completes_witness :
  snd (validateAllArticles (Samples.alive []) Samples.hostOf (fun _ _ => [])
         "2025-11-10T00:00:00.000Z"
         (Samples.diskOf [("broken.html", ReadFails "EISDIR: illegal operation on a directory")]))
  = Returns.
Proof.
  exact (proj1 (run_completes (Samples.alive []) Samples.hostOf (fun _ _ => [])
                  "2025-11-10T00:00:00.000Z"
                  (Samples.diskOf
                     [("broken.html", ReadFails "EISDIR: illegal operation on a directory")])
                  [("broken.html", ReadFails "EISDIR: illegal operation on a directory")]
                  eq_refl)).
Defined.

Lemma total_urls_becomes_text_witness :
  exists rep s,
    report (fst (fst (validateAllArticles (Samples.alive []) Samples.hostOf
                        (fun _ _ => []) "2025-11-10T00:00:00.000Z"
                        (Samples.diskOf [("plain.html", ReadOk "<p>No links</p>")])))) 
    = Some rep
    /\ totalUrls (summary rep) = inl s.
Proof.
  apply (total_urls_becomes_text (Samples.alive []) Samples.hostOf (fun _ _ => [])
           "2025-11-10T00:00:00.000Z"
           (Samples.diskOf [("plain.html", ReadOk "<p>No links</p>")])
           [("plain.html", ReadOk "<p>No links</p>")] "plain.html" "<p>No links</p>");
    try reflexivity.
  - repeat constructor. intros [].
  - now left.
Defined.

(** *** Substitution *)

Lemma startsWith_split (p s : string) :
  Str.startsWith p s = true -> s = p ++ Str.drop (String.length p) s.
Proof.
  revert s. induction p as [|a p IH]; intros s H; [now destruct s|].
  destruct s as [|b s]; [discriminate|]. cbn [Str.startsWith] in H.
  apply andb_prop in H as [Hab Hp]. apply Ascii.eqb_eq in Hab. subst b.
  cbn [String.length Str.drop append]. now rewrite <- (IH s Hp).
Qed.

Lemma drop_length (n : nat) (s : string) :
  (String.length (Str.drop n s) <= String.length s - n)%nat.
Proof.
  revert s. induction n as [|n IH]; intros s; [cbn; lia|].
  destruct s as [|c s]; [cbn; lia|]. cbn [Str.drop String.length]. apply IH.
Qed.

(** X19. Substituting a URL for itself changes nothing: when the address
    accepted as replacement is the old address again, the text written back
    is the text that was read. *)
Theorem replaceURL_same (html u : string) :
  u <> "" -> dollarFree u = true -> replaceURL html u u = html.
Proof.
  intros Hu Hd.
  assert (H : forall n s, (String.length s <= n)%nat -> replaceURL s u u = s).
  { induction n as [|n IH]; intros s Hs.
    - destruct s; [|cbn in Hs; lia].
      rewrite (ValidateFacts.replaceURL_scan u u Hu Hd).
      destruct u; [contradiction|reflexivity].
    - rewrite (ValidateFacts.replaceURL_scan u u Hu Hd).
      destruct (Str.startsWith u s) eqn:E.
      + rewrite IH; [symmetry; now apply startsWith_split|].
        pose proof (drop_length (String.length u) s).
        destruct u; [contradiction|]. cbn [String.length] in *. lia.
      + destruct s as [|c s]; [reflexivity|]. rewrite IH; [reflexivity|].
        cbn [String.length] in Hs. lia. }
  now apply (H (String.length html)).
Qed.

Lemma replaceURL_same_witness :
  replaceURL ("<a href=" ++ Samples.deadHttp ++ ">") Samples.deadHttp Samples.deadHttp
  = "<a href=" ++ Samples.deadHttp ++ ">".
Proof.
  apply replaceURL_same; [discriminate|reflexivity].
Defined.

End ReconcilerFacts.

(** * The extraction run *)

Module ExtractRunFacts.

Import WatchArticles ExtractRun MetaScan.

Lemma step_written (write_error : string -> option string) (st : Loop)
    (a : ExtractArticles.Article) :
  written write_error a = true ->
  step write_error st a
  = {| files := ValidateUrls.store (ExtractArticles.filenameOf a)
                  (ExtractArticles.generateArticleHTML a) (files st);
       articlesMetadata :=
         (articlesMetadata st ++ [metadataFor a (ExtractArticles.filenameOf a)])%list;
       successCount := S (successCount st); errorCount := errorCount st;
       printed := (printed st
                     ++ [Log ("Generated: " ++ ExtractArticles.filenameOf a)])%list |}.
Proof.
  unfold written, usable, step. intros H. apply andb_prop in H as [Hu Hw].
  apply negb_true_iff in Hu. rewrite Hu.
  now destruct (write_error (ExtractArticles.filenameOf a)).
Qed.

Lemma step_skipped (write_error : string -> option string) (st : Loop)
    (a : ExtractArticles.Article) :
  written write_error a = false ->
  files (step write_error st a) = files st
  /\ articlesMetadata (step write_error st a) = articlesMetadata st
  /\ successCount (step write_error st a) = successCount st
  /\ errorCount (step write_error st a) = S (errorCount st).
Proof.
  unfold written, usable, step. intros H.
  destruct (Str.is_empty (ExtractArticles.id a) || Str.is_empty (ExtractArticles.title a));
    [cbn; auto|].
  destruct (write_error (ExtractArticles.filenameOf a)); [cbn; auto|discriminate].
Qed.

Lemma loop_tally (write_error : string -> option string)
    (articles : list ExtractArticles.Article) (st : Loop) :
  let st' := fold_left (step write_error) articles st in
  (successCount st' + errorCount st'
   = successCount st + errorCount st + List.length articles)%nat
  /\ (successCount st'
      = successCount st + List.length (filter (written write_error) articles))%nat
  /\ articlesMetadata st'
     = (articlesMetadata st
          ++ map (fun a => metadataFor a (ExtractArticles.filenameOf a))
               (filter (written write_error) articles))%list.
Proof.
  revert st. induction articles as [|a articles IH]; intros st; cbv zeta.
  - cbn. rewrite app_nil_r. repeat split; lia.
  - cbn [fold_left filter List.length]. specialize (IH (step write_error st a)).
    cbv zeta in IH. destruct IH as (I1 & I2 & I4).
    destruct (written write_error a) eqn:Hw.
    + rewrite (step_written _ st a Hw) in *.
      cbn [successCount errorCount articlesMetadata List.length map] in *.
      rewrite I4, <- app_assoc. cbn [app]. repeat split; lia.
    + destruct (step_skipped _ st a Hw) as (_ & S2 & S3 & S4).
      rewrite S2, S3, S4 in *. rewrite I4. repeat split; lia.
Qed.

(** X20. The loop of extractArticles accounts for every article of the data
    file: successes and errors add up to the number of articles; the
    metadata it collects holds one record per article that has an id and a
    title and whose file could be written, in the order of the data file,
    with the article's id and the name of the file written for it. *)
Theorem extract_loop_tally (write_error : string -> option string)
    (existing : list (string * Read)) (out : list Console)
    (articles : list ExtractArticles.Article) :
  let st := loop write_error existing out articles in
  (successCount st + errorCount st = List.length articles)%nat
  /\ List.length (articlesMetadata st) = successCount st
  /\ articlesMetadata st
     = map (fun a => metadataFor a (ExtractArticles.filenameOf a))
         (filter (written write_error) articles).
Proof.
  cbv zeta. unfold loop.
  destruct (loop_tally write_error articles
              {| files := existing; articlesMetadata := []; successCount := 0;
                 errorCount := 0; printed := out |}) as (H1 & H2 & H4).
  cbv zeta in H1, H2, H4.
  cbn [successCount errorCount articlesMetadata List.length app] in *.
  rewrite H4, length_map. repeat split; lia.
Qed.

(** *** Generation, then regeneration *)

Lemma store_fresh (entries : list (string * Read)) (name content : string) :
  ~ In name (map fst entries) ->
  ValidateUrls.store name content entries = (entries ++ [(name, ReadOk content)])%list.
Proof.
  induction entries as [|[n r] entries IH]; intros H; [reflexivity|].
  cbn [ValidateUrls.store map fst In app] in *.
  destruct (String.eqb_spec n name) as [->|_]; [tauto|]. rewrite IH; tauto.
Qed.

Lemma loop_files (write_error : string -> option string)
    (articles : list ExtractArticles.Article) :
  forallb (written write_error) articles = true ->
  forall st,
    NoDup (map fst (files st) ++ map ExtractArticles.filenameOf articles) ->
    files (fold_left (step write_error) articles st)
    = (files st ++ map pageOf articles)%list.
Proof.
  induction articles as [|a articles IH]; intros Hw st Hnd.
  - cbn. now rewrite app_nil_r.
  - cbn [forallb map fold_left] in *. apply andb_prop in Hw as [Ha Hw].
    rewrite (IH Hw); rewrite (step_written _ st a Ha); cbn [files].
    + rewrite store_fresh.
      * now rewrite <- app_assoc.
      * apply NoDup_remove_2 in Hnd. intros H. apply Hnd, in_or_app. now left.
    + rewrite store_fresh.
      * rewrite map_app, <- app_assoc. cbn [map fst app pageOf].
        apply NoDup_remove in Hnd as [Hnd Hnot].
        clear - Hnd Hnot. revert Hnd Hnot.
        generalize (map fst (files st)) as l1.
        generalize (ExtractArticles.filenameOf a) as x.
        generalize (map ExtractArticles.filenameOf articles) as l2.
        intros l2 x l1 Hnd Hnot. apply NoDup_Add with (a := x) (l := (l1 ++ l2)%list).
        -- apply Add_app.
        -- now constructor.
           
      * apply NoDup_remove_2 in Hnd. intros H. apply Hnd, in_or_app. now left.
Qed.

Lemma usable_id (a : ExtractArticles.Article) :
  usable a = true -> Str.is_empty (ExtractArticles.id a) = false.
Proof.
  unfold usable. intros H. apply negb_true_iff in H. now apply orb_false_elim in H as [H _].
Qed.

Lemma written_usable (write_error : string -> option string) (a : ExtractArticles.Article) :
  written write_error a = true -> usable a = true.
Proof. unfold written. intros H. now apply andb_prop in H as [H _]. Qed.

(** Scanning the pages of written articles gives their records, in order. *)
Lemma collect_pages (fs : FileSystem) (entries : list (string * Read))
    (articles : list ExtractArticles.Article) :
  WatchArticles.articles fs = ListOk entries ->
  (forall a, In a articles ->
             lookup (ExtractArticles.filenameOf a) entries
             = ReadOk (ExtractArticles.generateArticleHTML a)
             /\ usable a = true /\ plainFields a = true) ->
  fst (collect fs (map ExtractArticles.filenameOf articles))
  = map (fun a => recordOf (articlePath (ExtractArticles.filenameOf a)) a) articles.
Proof.
  intros Hfs. induction articles as [|a articles IH]; intros H; [reflexivity|].
  cbn [map collect]. unfold extractMetadataFromHTML.
  destruct (H a (or_introl eq_refl)) as (Hl & Hu & Hp).
  rewrite (WatchFacts.articlePath_read _ _ _ Hfs), Hl.
  rewrite (GeneratorFacts.metadataOf_generated a _ Hp).
  specialize (IH (fun b Hb => H b (or_intror Hb))).
  destruct (collect fs (map ExtractArticles.filenameOf articles)) as [kept out'].
  cbn [fst] in *. cbn [id recordOf]. now rewrite (usable_id a Hu), IH.
Qed.

Lemma all_html (articles : list ExtractArticles.Article) :
  htmlFilesOf (map pageOf articles) = map ExtractArticles.filenameOf articles.
Proof.
  unfold htmlFilesOf. rewrite map_map. cbn [pageOf fst].
  induction articles as [|a articles IH]; [reflexivity|]. cbn [map filter].
  unfold ExtractArticles.filenameOf at 1. rewrite PipelineFacts.endsWith_app.
  now rewrite IH.
Qed.

(** X21. Generation followed by regeneration is consistent: when the data
    file's articles all have an id, a title and quote-free meta fields, get
    distinct file names and are written without error into a fresh
    directory, the directory holds exactly their pages, the index
    extractArticles writes lists them in the order of the data file, and the
    records of a later regeneration are, up to order, the records of the
    same articles as the extractor reads them back. *)
Theorem generate_then_regenerate (Date_parse : string -> option Z)
    (write_error : string -> option string) (mkdir_error : option string)
    (fs : FileSystem) (articles : list ExtractArticles.Article) :
  fresh mkdir_error fs ->
  index_write_error fs = None ->
  forallb (written write_error) articles = true ->
  forallb plainFields articles = true ->
  NoDup (map ExtractArticles.filenameOf articles) ->
  let run := extractArticles write_error mkdir_error (ArticleList articles) fs in
  let fs' := fst (fst run) in
  snd run = Returns
  /\ WatchArticles.articles fs' = ListOk (map pageOf articles)
  /\ index fs'
     = Some (JSON_stringify
               (map (fun a => metadataFor a (ExtractArticles.filenameOf a)) articles))
  /\ Permutation
       (indexRecords Date_parse fs' (map pageOf articles))
       (map (fun a => recordOf (articlePath (ExtractArticles.filenameOf a)) a) articles).
Proof.
  intros Hfresh Hiw Hw Hp Hnd. cbv zeta.
  assert (Hfilter : filter (written write_error) articles = articles).
  { clear - Hw. induction articles as [|a l IH]; [reflexivity|].
    cbn [forallb filter] in *. apply andb_prop in Hw as [Ha Hl]. now rewrite Ha, IH. }
  assert (Hrun : forall out,
             let st := loop write_error [] out articles in
             files st = map pageOf articles
             /\ articlesMetadata st
                = map (fun a => metadataFor a (ExtractArticles.filenameOf a)) articles).
  { intros out. cbv zeta. split.
    - unfold loop. rewrite (loop_files write_error articles Hw); [reflexivity|exact Hnd].
    - unfold loop.
      destruct (loop_tally write_error articles
                  {| files := []; articlesMetadata := []; successCount := 0;
                     errorCount := 0; printed := out |}) as (_ & _ & H).
      cbv zeta in H. cbn [articlesMetadata app] in H. now rewrite H, Hfilter. }
  assert (Hidx : forall fs',
             WatchArticles.articles fs' = ListOk (map pageOf articles) ->
             Permutation
               (indexRecords Date_parse fs' (map pageOf articles))
               (map (fun a => recordOf (articlePath (ExtractArticles.filenameOf a)) a)
                  articles)).
  { intros fs' Hfs'. unfold indexRecords. rewrite all_html.
    rewrite (collect_pages fs' (map pageOf articles) articles Hfs').
    - apply WatchFacts.sort_perm.
    - intros a Ha. rewrite forallb_forall in Hw, Hp. split; [|split; auto].
      + apply WatchFacts.lookup_own.
        * rewrite map_map. exact Hnd.
        * now apply (in_map pageOf).
      + now apply (written_usable write_error), Hw. }
  unfold extractArticles, fresh in *. rewrite Hiw.
  destruct (WatchArticles.articles fs) as [existing|m].
  - subst existing. cbv zeta.
    destruct (Hrun [Log "Starting article extraction...";
                    Log ("Found " ++ count_string (List.length articles)
                           ++ " articles to process")]) as [Hf Hm].
    cbn [app] in *. cbn [fst snd]. rewrite Hf, Hm.
    repeat split. now apply Hidx.
  - subst mkdir_error. cbv zeta.
    destruct (Hrun [Log "Starting article extraction...";
                    Log ("Found " ++ count_string (List.length articles)
                           ++ " articles to process");
                    Log "Created articles directory"]) as [Hf Hm].
    cbn [app] in *. cbn [fst snd]. rewrite Hf, Hm.
    repeat split. now apply Hidx.
Qed.

Lemma generate_then_regenerate_witness :
  Permutation
    (indexRecords Date_parse_iso
       (fst (fst (extractArticles (fun _ => None) None (ArticleList [Samples.launch])
                    Samples.missingDirectory)))
       (map pageOf [Samples.launch]))
    (map (fun a => recordOf (articlePath (ExtractArticles.filenameOf a)) a)
       [Samples.launch]).
Proof.
  apply (generate_then_regenerate Date_parse_iso (fun _ => None) None
           Samples.missingDirectory [Samples.launch]); try reflexivity.
  repeat constructor. intros [].
Defined.

(** X22. Two articles whose titles sanitize to the same file name collide:
    the later page overwrites the earlier one, so the directory holds one
    file while the index extractArticles writes lists both articles under
    that same file name; a later regeneration keeps only the later article. *)
Theorem same_name_overwrites (Date_parse : string -> option Z)
    (write_error : string -> option string) (out : list Console)
    (a b : ExtractArticles.Article) :
  ExtractArticles.filenameOf a = ExtractArticles.filenameOf b ->
  written write_error a = true ->
  written write_error b = true ->
  plainFields b = true ->
  let st := loop write_error [] out [a; b] in
  let fs' := {| articles := ListOk (files st); index := None; index_write_error := None |} in
  files st = [pageOf b]
  /\ map id (articlesMetadata st) = [ExtractArticles.id a; ExtractArticles.id b]
  /\ map filename (articlesMetadata st)
     = [ExtractArticles.filenameOf b; ExtractArticles.filenameOf b]
  /\ indexRecords Date_parse fs' (files st)
     = [recordOf (articlePath (ExtractArticles.filenameOf b)) b].
Proof.
  intros Hsame Ha Hb Hp. cbv zeta. unfold loop. cbn [fold_left].
  rewrite (step_written _ _ a Ha). rewrite (step_written _ _ b Hb).
  cbn [files articlesMetadata app ValidateUrls.store]. rewrite Hsame, String.eqb_refl.
  cbn [map id filename metadataFor]. rewrite ?Hsame.
  split; [reflexivity|]. split; [reflexivity|]. split; [reflexivity|].
  unfold indexRecords. change [(ExtractArticles.filenameOf b,
                                ReadOk (ExtractArticles.generateArticleHTML b))]
    with (map pageOf [b]).
  rewrite all_html. erewrite collect_pages; [reflexivity|reflexivity|].
  intros x [<-|[]]. cbn [map pageOf lookup]. rewrite String.eqb_refl.
  split; [reflexivity|]. split; [now apply (written_usable write_error)|exact Hp].
Qed.

Lemma same_name_overwrites_witness :
  files (loop (fun _ => None) [] [] [Samples.hello; Samples.helloAgain])
  = [pageOf Samples.helloAgain].
Proof.
  apply (same_name_overwrites Date_parse_iso (fun _ => None) []
           Samples.hello Samples.helloAgain); reflexivity.
Defined.

End ExtractRunFacts.

(** * The verification report *)

Module VerifyFacts.

Import VerifyArticles.

(** *** Reading a video id *)

Lemma youtube_match_unfold (p : Pattern) (s : string) :
  regex_match p s
  = match match_here p s with
    | Some v => Some v
    | None =>
        match s with
        | EmptyString => None
        | String _ s' => regex_match p s'
        end
    end.
Proof. destruct s; reflexivity. Qed.

Lemma differs_sound (p c t : string) :
  differs p c = true -> strip_prefix p (c ++ t) = None.
Proof.
  revert c. induction p as [|a p IH]; intros c H; [discriminate|].
  destruct c as [|b c]; [discriminate|]. cbn [differs append strip_prefix] in *.
  destruct (Ascii.eqb a b); [now apply IH|reflexivity].
Qed.

Lemma regex_skip (p : Pattern) (c t : string) :
  clear (literal p) c = true -> regex_match p (c ++ t) = regex_match p t.
Proof.
  induction c as [|x c IH]; intros H; [reflexivity|].
  cbn [clear] in H. apply andb_prop in H as [Hd Hc].
  rewrite youtube_match_unfold. unfold match_here at 1.
  rewrite (differs_sound _ _ t Hd). cbn [append]. now apply IH.
Qed.

Lemma strip_prefix_app (p t : string) : strip_prefix p (p ++ t) = Some t.
Proof.
  induction p as [|a p IH]; cbn [append strip_prefix]; [now destruct t|].
  now rewrite Ascii.eqb_refl.
Qed.

Lemma strip_prefix_inv (p s r : string) : strip_prefix p s = Some r -> s = p ++ r.
Proof.
  revert s. induction p as [|a p IH]; intros s H.
  - cbn [strip_prefix] in H. injection H as <-. reflexivity.
  - destruct s as [|b s]; [discriminate|]. cbn [strip_prefix] in H.
    destruct (Ascii.eqb a b) eqn:E; [|discriminate].
    apply Ascii.eqb_eq in E. subst b. cbn [append]. now rewrite (IH s H).
Qed.

Lemma run_value (c : ascii) (v t : string) :
  freeOf c v = true -> (t = "" \/ exists q, t = String c q) -> run c (v ++ t) = v.
Proof.
  intros Hv Ht. induction v as [|x v IH].
  - destruct Ht as [->|[q ->]]; [reflexivity|]. cbn [append run].
    now rewrite Ascii.eqb_refl.
  - cbn [freeOf] in Hv. apply andb_prop in Hv as [Hx Hv]. apply negb_true_iff in Hx.
    cbn [append run]. now rewrite Hx, (IH Hv).
Qed.

Lemma regex_hit (p : Pattern) (v t : string) :
  v <> "" -> freeOf (stop p) v = true -> (t = "" \/ exists q, t = String (stop p) q) ->
  regex_match p (literal p ++ (v ++ t)) = Some v.
Proof.
  intros Hn Hv Ht. rewrite youtube_match_unfold. unfold match_here.
  rewrite strip_prefix_app, (run_value _ _ _ Hv Ht).
  destruct v; [contradiction|reflexivity].
Qed.

Lemma regex_no_slash (p : Pattern) (s : string) :
  ExtractArticles.noSlash (literal p) = false -> ExtractArticles.noSlash s = true ->
  regex_match p s = None.
Proof.
  intros Hp. induction s as [|c s IH]; intros Hs; rewrite youtube_match_unfold;
    unfold match_here.
  - destruct (strip_prefix (literal p) "") as [r|] eqn:E; [|reflexivity].
    apply strip_prefix_inv in E. destruct (literal p); [discriminate Hp|discriminate E].
  - destruct (strip_prefix (literal p) (String c s)) as [r|] eqn:E.
    + apply strip_prefix_inv in E. rewrite E, PipelineFacts.noSlash_app, Hp in Hs.
      discriminate Hs.
    + apply IH. cbn [ExtractArticles.noSlash] in Hs. now apply andb_prop in Hs as [_ Hs].
Qed.

Ltac fixed_text := vm_compute; reflexivity.

(** X23. A video id is read back from the three URL shapes the patterns are
    written for. An id that is not empty and holds no slash, followed by
    nothing or by a separator and text without a slash, is returned as it
    stands: after [watch?v=] when it holds no [&] and the separator is [&],
    after [youtu.be/] and after [embed/] when it holds no [?] and the
    separator is [?]. *)
Theorem youtube_id_read_back (id t : string) (sep : ascii) :
  id <> "" ->
  ExtractArticles.noSlash id = true ->
  ExtractArticles.noSlash t = true ->
  freeOf sep id = true ->
  (t = "" \/ exists q, t = String sep q) ->
  (sep = "&"%char ->
   extractYouTubeID (Some ("https://www.youtube.com/watch?v=" ++ id ++ t)) = Some id)
  /\ (sep = "?"%char ->
      extractYouTubeID (Some ("https://youtu.be/" ++ id ++ t)) = Some id
      /\ extractYouTubeID (Some ("https://www.youtube.com/embed/" ++ id ++ t)) = Some id).
Proof.
  intros Hn Hid Ht Hf Hsep.
  assert (Hs : ExtractArticles.noSlash (id ++ t) = true)
    by now rewrite PipelineFacts.noSlash_app, Hid, Ht.
  split; intros ->; [|split]; unfold extractYouTubeID;
    change (Str.is_empty _) with false; cbv iota; unfold patterns; cbn [firstMatch].
  - change ("https://www.youtube.com/watch?v=" ++ id ++ t)
      with ("https://www." ++ (literal (mkPattern "youtube.com/watch?v=" "&") ++ (id ++ t))).
    rewrite regex_skip by fixed_text.
    now rewrite regex_hit by (cbn [stop]; assumption).
  - change ("https://youtu.be/" ++ id ++ t)
      with ("https://youtu.be/" ++ (id ++ t)) at 1.
    rewrite (regex_skip (mkPattern "youtube.com/watch?v=" "&")) by fixed_text.
    rewrite regex_no_slash by (reflexivity || exact Hs).
    change ("https://youtu.be/" ++ id ++ t)
      with ("https://" ++ (literal (mkPattern "youtu.be/" "?") ++ (id ++ t))).
    rewrite regex_skip by fixed_text.
    now rewrite regex_hit by (cbn [stop]; assumption).
  - change ("https://www.youtube.com/embed/" ++ id ++ t)
      with ("https://www.youtube.com/embed/" ++ (id ++ t)) at 1 2.
    rewrite (regex_skip (mkPattern "youtube.com/watch?v=" "&")) by fixed_text.
    rewrite regex_no_slash by (reflexivity || exact Hs).
    rewrite (regex_skip (mkPattern "youtu.be/" "?")) by fixed_text.
    rewrite regex_no_slash by (reflexivity || exact Hs).
    change ("https://www.youtube.com/embed/" ++ id ++ t)
      with ("https://www." ++ (literal (mkPattern "youtube.com/embed/" "?") ++ (id ++ t))).
    rewrite regex_skip by fixed_text.
    now rewrite regex_hit by (cbn [stop]; assumption).
Qed.

Lemma youtube_id_read_back_witness :
  extractYouTubeID (Some "https://www.youtube.com/watch?v=dQw4w9WgXcQ&t=42s")
  = Some "dQw4w9WgXcQ".
Proof.
  apply (youtube_id_read_back "dQw4w9WgXcQ" "&t=42s" "&"%char);
    [discriminate | reflexivity | reflexivity | reflexivity
     | right; exists "t=42s"; reflexivity | reflexivity].
Defined.

Lemma run_free (c : ascii) (s : string) : freeOf c (run c s) = true.
Proof.
  induction s as [|x s IH]; [reflexivity|]. cbn [run].
  destruct (Ascii.eqb x c) eqn:E; [reflexivity|]. cbn [freeOf]. now rewrite E, IH.
Qed.

Lemma run_prefix (c : ascii) (s : string) : exists after, s = run c s ++ after.
Proof.
  induction s as [|x s [after IH]]; [now exists ""|]. cbn [run].
  destruct (Ascii.eqb x c); [now exists (String x s)|].
  exists after. cbn [append]. now rewrite <- IH.
Qed.

Lemma regex_match_shape (p : Pattern) (s v : string) :
  regex_match p s = Some v ->
  v <> "" /\ freeOf (stop p) v = true
  /\ exists before after, s = before ++ literal p ++ v ++ after.
Proof.
  induction s as [|c s IH]; rewrite youtube_match_unfold; unfold match_here.
  - destruct (strip_prefix (literal p) "") as [r|] eqn:E; [|discriminate].
    destruct (run (stop p) r) as [|y w] eqn:Er; [discriminate|].
    intros H. injection H as <-. split; [discriminate|]. split.
    + rewrite <- Er. apply run_free.
    + destruct (run_prefix (stop p) r) as [after Ha]. exists "", after.
      rewrite <- Er, <- Ha. exact (strip_prefix_inv _ _ _ E).
  - destruct (strip_prefix (literal p) (String c s)) as [r|] eqn:E.
    + destruct (run (stop p) r) as [|y w] eqn:Er.
      * intros H. destruct (IH H) as (Hv & Hf & before & after & ->).
        split; [exact Hv|]. split; [exact Hf|]. now exists (String c before), after.
      * intros H. injection H as <-. split; [discriminate|]. split.
        -- rewrite <- Er. apply run_free.
        -- destruct (run_prefix (stop p) r) as [after Ha]. exists "", after.
           rewrite <- Er, <- Ha. exact (strip_prefix_inv _ _ _ E).
    + intros H. destruct (IH H) as (Hv & Hf & before & after & ->).
      split; [exact Hv|]. split; [exact Hf|]. now exists (String c before), after.
Qed.

(** X24. An id [extractYouTubeID] returns is never empty and is cut out of
    the URL: it stands right after the literal text of one of the three
    patterns and holds no character at which that pattern stops. *)
Theorem youtube_id_is_cut_from_url (url : option string) (v : string) :
  extractYouTubeID url = Some v ->
  v <> ""
  /\ exists u p before after,
       url = Some u /\ In p patterns
       /\ u = before ++ literal p ++ v ++ after
       /\ freeOf (stop p) v = true.
Proof.
  unfold extractYouTubeID. destruct url as [u|]; [|discriminate].
  destruct (Str.is_empty u); [discriminate|].
  assert (H : forall ps, firstMatch ps u = Some v ->
                         exists p, In p ps /\ regex_match p u = Some v).
  { induction ps as [|p ps IH]; [discriminate|]. cbn [firstMatch].
    destruct (regex_match p u) as [w|] eqn:E.
    - intros Hw. injection Hw as ->. exists p. split; [now left|exact E].
    - intros Hw. destruct (IH Hw) as (q & Hq & Hm). exists q. split; [now right|exact Hm]. }
  intros Hv. destruct (H _ Hv) as (p & Hp & Hm).
  destruct (regex_match_shape p u v Hm) as (Hn & Hf & before & after & Hu).
  split; [exact Hn|]. now exists u, p, before, after.
Qed.

Lemma youtube_id_is_cut_from_url_witness :
  "abc" <> ""
  /\ exists u p before after,
       Some "see https://youtu.be/abc?t=1" = Some u /\ In p patterns
       /\ u = before ++ literal p ++ "abc" ++ after
       /\ freeOf (stop p) "abc" = true.
Proof.
  apply (youtube_id_is_cut_from_url (Some "see https://youtu.be/abc?t=1") "abc").
  reflexivity.
Defined.

(** *** The tallies of the report *)

Section Tally.

Variable load : string -> Dom.
Variable typeError : string.
Variable fs : WatchArticles.FileSystem.

Abbreviation failures := (failures fs).
Abbreviation stepOf := (step load typeError fs).

Lemma issues_shape (path : string) (d : Dom) :
  let l := issues (analysisOf path d) in
  (count isSvg l <= 1 /\ count isMissingVideo l <= 1 /\ count isInsufficient l <= 1)
  /\ List.length l = count isSvg l + count isMissingVideo l + count isInsufficient l.
Proof.
  cbv zeta. unfold analysisOf. cbn [issues].
  destruct (svgImagesFrom 0 (imgSrcs d));
    destruct (match articleVideo d with Some v => (v =? "true")%string | None => false end
              && truthy (articleVideoUrl d));
    destruct (0 <? youtubeIframes d)%nat;
    destruct (500 <? Nat.max (magazineContentLength d) (articleContentLength d))%nat;
    cbn; lia.
Qed.

(** Once an error has ended the loop, the state stays as it is. *)
Lemma thrown_stays (files : list string) (st : Loop) :
  thrown st <> None -> fold_left stepOf files st = st.
Proof.
  induction files as [|f files IH]; intros H; [reflexivity|]. cbn [fold_left].
  assert (E : stepOf st f = st).
  { unfold step. destruct (thrown st); [reflexivity|contradiction]. }
  rewrite E. now apply IH.
Qed.

Lemma step_tally (st : Loop) (file : string) :
  let r := results st in
  let r' := results (stepOf st file) in
  thrown (stepOf st file) = None ->
  thrown st = None
  /\ total r' = S (total r)
  /\ detailedResults (stepOf st file)
     = (detailedResults st ++ [analyzeArticle load fs (WatchArticles.articlePath file)])%list
  /\ (exists i w p s m v,
         withIssues r' = withIssues r + i
         /\ withWarnings r' = withWarnings r + w
         /\ perfect r' = perfect r + p
         /\ svgPlaceholders r' = svgPlaceholders r + s
         /\ missingVideos r' = missingVideos r + m
         /\ insufficientContent r' = insufficientContent r + v
         /\ p + i <= 1 /\ 1 <= p + i + w
         /\ s <= i /\ m <= i /\ v <= i
         /\ i <= (if unreadable fs file then 1 else 0) + s + m + v
         /\ (if unreadable fs file then 1 else 0) <= i).
Proof.
  cbv zeta. unfold step, analyzeArticle, unreadable.
  destruct (thrown st) as [e|] eqn:Et; [now rewrite Et|].
  destruct (WatchArticles.readFile fs (WatchArticles.articlePath file)) as [content|msg].
  - intros _.
    destruct (issues_shape (WatchArticles.articlePath file) (load content))
      as ((Hs & Hm & Hv) & Hl). cbv zeta in *.
    set (a := analysisOf (WatchArticles.articlePath file) (load content)) in *.
    cbn [results total withIssues withWarnings perfect svgPlaceholders missingVideos
           insufficientContent detailedResults].
    split; [reflexivity|]. split; [reflexivity|]. split; [reflexivity|].
    exists (if (0 <? List.length (issues a))%nat then 1 else 0),
      (if (0 <? List.length (warnings a))%nat then 1 else 0),
      (if negb (0 <? List.length (issues a))%nat
          && negb (0 <? List.length (warnings a))%nat then 1 else 0),
      (count isSvg (issues a)), (count isMissingVideo (issues a)),
      (count isInsufficient (issues a)).
    destruct (0 <? List.length (issues a))%nat eqn:Ei;
      destruct (0 <? List.length (warnings a))%nat eqn:Ew;
      cbn [negb andb];
      first [apply Nat.ltb_lt in Ei | apply Nat.ltb_ge in Ei];
      repeat split; lia.
  - destruct (Str.is_empty msg); [discriminate|]. intros _.
    cbn [results total withIssues withWarnings perfect svgPlaceholders missingVideos
           insufficientContent detailedResults].
    split; [reflexivity|]. split; [reflexivity|]. split; [reflexivity|].
    exists 1, 0, 0, 0, 0, 0. repeat split; lia.
Qed.

Lemma loop_counts (files : list string) (st : Loop) :
  let st' := fold_left stepOf files st in
  let r := results st in
  let r' := results st' in
  thrown st' = None ->
  detailedResults st'
  = (detailedResults st
       ++ map (fun f => analyzeArticle load fs (WatchArticles.articlePath f)) files)%list
  /\ exists i w p s m v,
      total r' = total r + List.length files
      /\ withIssues r' = withIssues r + i
      /\ withWarnings r' = withWarnings r + w
      /\ perfect r' = perfect r + p
      /\ svgPlaceholders r' = svgPlaceholders r + s
      /\ missingVideos r' = missingVideos r + m
      /\ insufficientContent r' = insufficientContent r + v
      /\ p + i <= List.length files /\ List.length files <= p + i + w
      /\ s <= i /\ m <= i /\ v <= i
      /\ i <= failures files + s + m + v
      /\ failures files <= i.
Proof.
  revert st. induction files as [|f files IH]; intros st; cbv zeta.
  - cbn [fold_left map List.length]. rewrite app_nil_r. intros _. split; [reflexivity|].
    exists 0, 0, 0, 0, 0, 0. unfold VerifyArticles.failures. cbn [filter List.length].
    repeat split; lia.
  - cbn [fold_left map]. intros Hend.
    assert (Hstep : thrown (stepOf st f) = None).
    { destruct (thrown (stepOf st f)) as [e|] eqn:E; [|reflexivity].
      rewrite thrown_stays in Hend by (rewrite E; discriminate). congruence. }
    destruct (IH (stepOf st f) Hend) as [Hd Hc].
    destruct (step_tally st f Hstep) as (_ & Ht & Hd1 & Hc1).
    split.
    + rewrite Hd, Hd1, <- app_assoc. reflexivity.
    + destruct Hc as (i & w & p & s & m & v & Hc).
      destruct Hc1 as (i1 & w1 & p1 & s1 & m1 & v1 & Hc1).
      exists (i1 + i), (w1 + w), (p1 + p), (s1 + s), (m1 + m), (v1 + v).
      unfold VerifyArticles.failures in *. cbn [filter List.length].
      destruct (unreadable fs f); cbn [List.length]; repeat split; lia.
Qed.

(** X25. The tallies of the verification report, when the loop runs to its
    end. Every file is counted and analysed once, in order; an article is
    perfect or has issues or warnings, never perfect and with issues; a
    file that cannot be read counts as one with issues without entering the
    breakdown, so each breakdown figure is at most the number of articles
    with issues, and that number is at most the unreadable files plus the
    breakdown figures. *)
Theorem verify_tally (out : list WatchArticles.Console) (files : list string) :
  let st := loop load typeError fs out files in
  let r := results st in
  thrown st = None ->
  total r = List.length files
  /\ detailedResults st
     = map (fun f => analyzeArticle load fs (WatchArticles.articlePath f)) files
  /\ perfect r + withIssues r <= total r
  /\ total r <= perfect r + withIssues r + withWarnings r
  /\ svgPlaceholders r <= withIssues r
  /\ missingVideos r <= withIssues r
  /\ insufficientContent r <= withIssues r
  /\ failures files <= withIssues r
  /\ withIssues r
     <= failures files + svgPlaceholders r + missingVideos r + insufficientContent r.
Proof.
  cbv zeta. unfold loop. intros Hend.
  destruct (loop_counts files _ Hend) as [Hd (i & w & p & s & m & v & Hc)].
  cbn [results detailedResults start total withIssues withWarnings perfect
         svgPlaceholders missingVideos insufficientContent app] in Hd, Hc.
  split; [lia|]. split; [exact Hd|]. repeat split; lia.
Qed.

(** An error with an empty message ends the loop: the file is counted, and
    nothing after it is looked at. *)
Lemma empty_message_ends (st : Loop) (file : string) (files : list string) :
  thrown st = None ->
  WatchArticles.readFile fs (WatchArticles.articlePath file) = WatchArticles.ReadFails "" ->
  let st' := fold_left stepOf (file :: files) st in
  thrown st' = Some typeError /\ total (results st') = S (total (results st)).
Proof.
  intros Ht Hr. cbv zeta. cbn [fold_left].
  assert (E : thrown (stepOf st file) = Some typeError
              /\ total (results (stepOf st file)) = S (total (results st))).
  { unfold step, analyzeArticle. rewrite Ht, Hr. cbn. now split. }
  rewrite thrown_stays by (rewrite (proj1 E); discriminate). exact E.
Qed.

End Tally.

Lemma verify_tally_witness :
  total (results (loop (fun _ => mkDom None "" None None None [] 0 0 0 0 0 [])
                    "TypeError" Samples.missingDirectory [] ["a.html"; "b.html"]))
  = 2.
Proof.
  apply (verify_tally (fun _ => mkDom None "" None None None [] 0 0 0 0 0 [])
           "TypeError" Samples.missingDirectory [] ["a.html"; "b.html"]).
  reflexivity.
Defined.

End VerifyFacts.

(** * Expiry of the trending flag *)

Module ExpireFacts.

Import WatchArticles MetaScan ExpireTrending.

(** *** The rewrite of one page *)

Lemma findTag_unfold (s : string) :
  findTag s
  = match tag_here s with
    | Some (v, after) => Some (EmptyString, v, after)
    | None =>
        match s with
        | EmptyString => None
        | String c s' =>
            match findTag s' with
            | Some (before, v, after) => Some (String c before, v, after)
            | None => None
            end
        end
    end.
Proof. destruct s; reflexivity. Qed.

Lemma findTag_step (x : ascii) (s : string) :
  Str.strip_prefix_ci (meta_open "article-trending") (String x s) = None ->
  findTag (String x s) = behind (String x "") (findTag s).
Proof.
  intros H. rewrite findTag_unfold. unfold tag_here. rewrite H.
  destruct (findTag s) as [[[b v] a]|]; reflexivity.
Qed.

Lemma behind_behind (c c' : string) (m : option (string * string * string)) :
  behind c (behind c' m) = behind (c ++ c') m.
Proof.
  destruct m as [[[b v] a]|]; [|reflexivity]. cbn [behind].
  now rewrite GeneratorFacts.append_assoc.
Qed.

Lemma behind_empty (m : option (string * string * string)) : behind "" m = m.
Proof. now destruct m as [[[b v] a]|]. Qed.

(** Fixed text at no position of which the pattern can match is passed
    over. *)
Lemma findTag_fixed (c t : string) :
  clearb (meta_open "article-trending") c = true ->
  findTag (c ++ t) = behind c (findTag t).
Proof.
  induction c as [|x c IH]; intros H; [now rewrite behind_empty|].
  cbn [clearb] in H. apply andb_prop in H as [Hm Hc]. cbn [append].
  rewrite findTag_step.
  - rewrite (IH Hc), behind_behind. reflexivity.
  - exact (GeneratorFacts.mismatch_sound _ (String x c) t Hm).
Qed.

(** A quote-free value followed by the end of its element is passed
    over. *)
Lemma findTag_value (v t : string) :
  quoteFree v = true ->
  Str.startsWith (String Str.dq ">") t = true ->
  findTag (v ++ t) = behind v (findTag t).
Proof.
  intros Hv Ht.
  destruct t as [|d t]; [discriminate Ht|].
  cbn [Str.startsWith] in Ht. apply andb_prop in Ht as [Hd Ht].
  destruct t as [|g t]; [discriminate Ht|].
  cbn [Str.startsWith] in Ht. apply andb_prop in Ht as [Hg _].
  apply Ascii.eqb_eq in Hd, Hg. subst d g.
  induction v as [|c v IH]; [now rewrite behind_empty|].
  cbn [append]. rewrite findTag_step.
  - cbn [quoteFree] in Hv. apply andb_prop in Hv as [_ Hv].
    rewrite (IH Hv), behind_behind. reflexivity.
  - change (meta_open "article-trending")
      with ("<meta name=" ++ String Str.dq ("article-trending" ++ String Str.dq " content="
                                              ++ String Str.dq "")).
    change (String c (v ++ String Str.dq (String ">"%char t)))
      with (String c v ++ String Str.dq (String ">"%char t)).
    apply GeneratorFacts.strip_quote_align; [reflexivity | exact Hv | reflexivity].
Qed.

Lemma strip_self (p t : string) : Str.strip_prefix_ci p (p ++ t) = Some t.
Proof.
  induction p as [|a p IH]; cbn [append Str.strip_prefix_ci]; [reflexivity|].
  now rewrite GeneratorFacts.eqb_ci_refl.
Qed.

Lemma substring_self (p t : string) : String.substring 0 (String.length p) (p ++ t) = p.
Proof.
  induction p as [|a p IH]; cbn [append String.length String.substring].
  - now destruct t.
  - now rewrite IH.
Qed.

(** Where the element stands with one of the two values, it is found. *)
Lemma findTag_here (b : bool) (t : string) :
  findTag (tag (ExtractArticles.showBool b) ++ t)
  = Some ("", ExtractArticles.showBool b, t).
Proof.
  rewrite findTag_unfold. unfold tag_here, tag.
  rewrite !GeneratorFacts.append_assoc, strip_self.
  destruct b; cbn [ExtractArticles.showBool]; unfold value_here.
  - rewrite strip_self, substring_self.
    change (String Str.dq ">" ++ t) with (String Str.dq ">" ++ t).
    now rewrite strip_self.
  - replace (Str.strip_prefix_ci "true" ("false" ++ String Str.dq ">" ++ t))
      with (@None string) by reflexivity.
    rewrite strip_self, substring_self. now rewrite strip_self.
Qed.

Lemma gap_split (n t : string) : gap n ++ t = lead7 ++ (meta_open n ++ t).
Proof. reflexivity. Qed.

Lemma lines_start (l : list (string * string)) (R : string) :
  exists X, metaLines l (String Str.dq (String ">"%char R))
            = String Str.dq (String ">"%char X).
Proof. destruct l as [|[n v] l]; cbn [metaLines]; eexists; reflexivity. Qed.

Lemma lines_app (l : list (string * string)) (t u : string) :
  metaLines l t ++ u = metaLines l (t ++ u).
Proof.
  induction l as [|[n v] l IH]; [reflexivity|]. cbn [metaLines].
  now rewrite !GeneratorFacts.append_assoc, IH.
Qed.

(** The fields in front of the trending element are passed over, and the
    element is found with the value the generator wrote. *)
Lemma findTag_lines (l6 l7 : list (string * string)) (b : bool) (R : string) :
  forallb (fun f => quoteFree (snd f)) l6 = true ->
  forallb (fun f => clearb (meta_open "article-trending") (gap (fst f))) l6 = true ->
  exists after,
    findTag (metaLines (l6 ++ ("article-trending", ExtractArticles.showBool b) :: l7)
               (String Str.dq (String ">"%char R)))
    = Some (metaLines l6 lead7, ExtractArticles.showBool b, after)
    /\ forall v,
         metaLines l6 lead7 ++ tag v ++ after
         = metaLines (l6 ++ ("article-trending", v) :: l7)
             (String Str.dq (String ">"%char R)).
Proof.
  induction l6 as [|[n w] l6 IH]; intros Hq Hc.
  - cbn [app metaLines]. destruct (lines_start l7 R) as [X HX]. exists X.
    rewrite HX. split.
    + rewrite gap_split.
      rewrite (findTag_fixed lead7) by (vm_compute; reflexivity).
      replace (meta_open "article-trending"
                 ++ ExtractArticles.showBool b ++ String Str.dq (String ">"%char X))
        with (tag (ExtractArticles.showBool b) ++ X).
      * rewrite findTag_here. cbn [behind]. reflexivity.
      * unfold tag. now rewrite !GeneratorFacts.append_assoc.
    + intros v. rewrite gap_split. unfold tag.
      now rewrite !GeneratorFacts.append_assoc.
  - cbn [forallb fst snd] in Hq, Hc.
    apply andb_prop in Hq as [Hw Hq]. apply andb_prop in Hc as [Hn Hc].
    destruct (IH Hq Hc) as (after & Hf & Hv). exists after.
    cbn [app metaLines]. split.
    + rewrite (findTag_fixed (gap n)) by exact Hn.
      rewrite findTag_value; [| exact Hw |].
      * rewrite Hf. cbn [behind]. now rewrite ?GeneratorFacts.append_assoc.
      * destruct (lines_start (l6 ++ ("article-trending", ExtractArticles.showBool b) :: l7) R)
          as [X ->].
        cbn [Str.startsWith]. now rewrite !Ascii.eqb_refl.
    + intros v. rewrite <- (Hv v). now rewrite ?GeneratorFacts.append_assoc.
Qed.

Lemma findTag_generated (a : ExtractArticles.Article) (rest : string) :
  plainFields a = true ->
  exists before after,
    findTag (headPrefix ++ metaLines (metaFields a) (String Str.dq (String ">"%char rest)))
    = Some (before, ExtractArticles.showBool (ExtractArticles.isTrending a), after)
    /\ before ++ tag "false" ++ after
       = headPrefix ++ metaLines (metaFields (cooled a))
                         (String Str.dq (String ">"%char rest)).
Proof.
  intros Hp.
  destruct (findTag_lines (firstn 6 (metaFields a)) (skipn 7 (metaFields a))
              (ExtractArticles.isTrending a) rest) as (after & Hf & Hv).
  - pose proof (GeneratorFacts.plain_metaFields a Hp) as H.
    cbn [metaFields forallb snd firstn] in *.
    repeat match type of H with
           | (_ && _ = true) => let H1 := fresh "Hq" in apply andb_prop in H as [H1 H]
           end.
    repeat match goal with Hx : quoteFree _ = true |- _ => rewrite Hx; clear Hx end.
    reflexivity.
  - vm_compute. reflexivity.
  - exists (headPrefix ++ metaLines (firstn 6 (metaFields a)) lead7), after. split.
    + change (metaFields a)
        with (firstn 6 (metaFields a)
                ++ ("article-trending",
                    ExtractArticles.showBool (ExtractArticles.isTrending a))
                :: skipn 7 (metaFields a))%list at 1.
      rewrite (findTag_fixed headPrefix) by (vm_compute; reflexivity).
      rewrite Hf. reflexivity.
    + rewrite GeneratorFacts.append_assoc, (Hv "false"). reflexivity.
Qed.

(** What the extractor reads on a page with the generator's head and meta
    elements, whatever follows them. *)
Lemma getMeta_lines (a : ExtractArticles.Article) (name v rest : string) :
  plainFields a = true ->
  lead name = true ->
  clearb (meta_open name) headPrefix = true ->
  separated name (metaFields a) = true ->
  fieldOf name (metaFields a) = Some v ->
  getMeta (headPrefix ++ metaLines (metaFields a) (String Str.dq (String ">"%char rest)))
    name
  = v.
Proof.
  intros Hp Hl Hc Hs Hf. unfold getMeta. rewrite (GeneratorFacts.skip_fixed _ _ _ Hc).
  now rewrite (GeneratorFacts.scan_metaLines name (metaFields a) rest v Hl
                 (GeneratorFacts.plain_metaFields a Hp) Hs Hf).
Qed.

Ltac read_line := first [assumption | vm_compute; reflexivity].

Lemma metadataOf_lines (a : ExtractArticles.Article) (path rest : string) :
  plainFields a = true ->
  metadataOf path
    (headPrefix ++ metaLines (metaFields a) (String Str.dq (String ">"%char rest)))
  = recordOf path a.
Proof.
  intros H. unfold metadataOf, recordOf.
  rewrite (getMeta_lines a "article-id" (ExtractArticles.id a)) by read_line.
  rewrite (getMeta_lines a "og:title"
             (ExtractArticles.orDefault (ExtractArticles.title a) "Untitled Article"))
    by read_line.
  rewrite (getMeta_lines a "article-category" (ExtractArticles.category a)) by read_line.
  rewrite (getMeta_lines a "article-author"
             (ExtractArticles.orDefault (ExtractArticles.author a) "Unknown"))
    by read_line.
  rewrite (getMeta_lines a "article-date" (ExtractArticles.publishDate a)) by read_line.
  rewrite (getMeta_lines a "article-readtime" (ExtractArticles.readTime a)) by read_line.
  rewrite (getMeta_lines a "description" (ExtractArticles.excerpt a)) by read_line.
  rewrite (getMeta_lines a "og:image" (ExtractArticles.bannerImage a)) by read_line.
  rewrite (getMeta_lines a "article-source" (ExtractArticles.sourceUrl a)) by read_line.
  rewrite (getMeta_lines a "article-trending"
             (ExtractArticles.showBool (ExtractArticles.isTrending a))) by read_line.
  rewrite (getMeta_lines a "article-video"
             (ExtractArticles.showBool (ExtractArticles.isVideo a))) by read_line.
  rewrite (getMeta_lines a "article-video-url" (ExtractArticles.videoUrl a)) by read_line.
  f_equal; [destruct (ExtractArticles.isTrending a) | destruct (ExtractArticles.isVideo a)];
    reflexivity.
Qed.

Lemma plain_cooled (a : ExtractArticles.Article) : plainFields (cooled a) = plainFields a.
Proof. reflexivity. Qed.

(** The rewrite of a generated page, and what the scripts read on it. *)
Lemma rewrite_generated (a : ExtractArticles.Article) :
  plainFields a = true ->
  exists rest,
    ExtractArticles.generateArticleHTML a
    = headPrefix ++ metaLines (metaFields a) (String Str.dq (String ">"%char rest))
    /\ currentValue (ExtractArticles.generateArticleHTML a)
       = Some (ExtractArticles.showBool (ExtractArticles.isTrending a))
    /\ replaceTag (tag "false") (ExtractArticles.generateArticleHTML a)
       = headPrefix ++ metaLines (metaFields (cooled a))
                         (String Str.dq (String ">"%char rest)).
Proof.
  intros Hp. destruct (GeneratorFacts.generated_head a) as [rest E]. exists rest.
  destruct (findTag_generated a rest Hp) as (before & after & Hf & Hr).
  split; [exact E|]. unfold currentValue, replaceTag. rewrite E, Hf. now split.
Qed.

(** X26. Expiry of a generated page. On the page the generator writes for
    an article whose meta fields hold no double quote, the expiry script
    finds the trending element with the value the generator wrote; the
    page it writes back differs in that element only, and the index
    extractor reads from it the record of the same article with the
    trending flag off. *)
Theorem expire_generated_page (a : ExtractArticles.Article) (path : string) :
  plainFields a = true ->
  currentValue (ExtractArticles.generateArticleHTML a)
  = Some (ExtractArticles.showBool (ExtractArticles.isTrending a))
  /\ metadataOf path (replaceTag (tag "false") (ExtractArticles.generateArticleHTML a))
     = recordOf path (cooled a)
  /\ exists rest,
       ExtractArticles.generateArticleHTML a
       = headPrefix ++ metaLines (metaFields a) rest
       /\ replaceTag (tag "false") (ExtractArticles.generateArticleHTML a)
          = headPrefix ++ metaLines (metaFields (cooled a)) rest.
Proof.
  intros Hp. destruct (rewrite_generated a Hp) as (rest & E & Hc & Hr).
  split; [exact Hc|]. split.
  - rewrite Hr. apply metadataOf_lines. now rewrite plain_cooled.
  - exists (String Str.dq (String ">"%char rest)). now split.
Qed.

Lemma expire_generated_page_witness :
  isTrending
    (metadataOf "articles/launch-day-what-s-next.html"
       (replaceTag (tag "false") (ExtractArticles.generateArticleHTML Samples.launch)))
  = false.
Proof.
  destruct (expire_generated_page Samples.launch "articles/launch-day-what-s-next.html"
              eq_refl) as (_ & H & _).
  rewrite H. reflexivity.
Defined.

(** *** The badge in the body *)

Lemma includes_step (p s : string) :
  Str.includes p s
  = (Str.startsWith p s
     || match s with
        | EmptyString => false
        | String _ s' => Str.includes p s'
        end).
Proof. destruct s; reflexivity. Qed.

Lemma includes_cons (p : string) (c : ascii) (t : string) :
  Str.includes p t = true -> Str.includes p (String c t) = true.
Proof. intros H. rewrite includes_step, H. apply orb_true_r. Qed.

Lemma includes_behind (p c t : string) :
  Str.includes p t = true -> Str.includes p (c ++ t) = true.
Proof.
  intros H. induction c as [|x c IH]; [exact H|]. cbn [append]. now apply includes_cons.
Qed.

Lemma startsWith_front (p t : string) : Str.startsWith p (p ++ t) = true.
Proof.
  induction p as [|a p IH]; cbn [append Str.startsWith]; [now destruct t|].
  now rewrite Ascii.eqb_refl.
Qed.

Lemma includes_front (p t : string) : Str.includes p (p ++ t) = true.
Proof. rewrite includes_step, startsWith_front. reflexivity. Qed.

Lemma includes_lines (p : string) (l : list (string * string)) (t : string) :
  Str.includes p t = true -> Str.includes p (metaLines l t) = true.
Proof.
  intros H. induction l as [|[n v] l IH]; [exact H|]. cbn [metaLines].
  now apply includes_behind, includes_behind.
Qed.

(** The page of a trending article: the head, the meta elements, and a
    body that shows the badge. *)
Lemma generated_body (a : ExtractArticles.Article) :
  ExtractArticles.isTrending a = true ->
  exists rest,
    ExtractArticles.generateArticleHTML a
    = headPrefix ++ metaLines (metaFields a) (String Str.dq (String ">"%char rest))
    /\ Str.includes trendingBadge rest = true.
Proof.
  intros Htr. eexists. split; [reflexivity|].
  rewrite Htr.
  repeat first [ apply includes_front
               | apply includes_behind
               | apply includes_cons ].
Qed.

Lemma rewrite_page (a : ExtractArticles.Article) (rest : string) :
  plainFields a = true ->
  ExtractArticles.generateArticleHTML a
  = headPrefix ++ metaLines (metaFields a) (String Str.dq (String ">"%char rest)) ->
  replaceTag (tag "false") (ExtractArticles.generateArticleHTML a)
  = headPrefix ++ metaLines (metaFields (cooled a)) (String Str.dq (String ">"%char rest)).
Proof.
  intros Hp E. destruct (findTag_generated a rest Hp) as (before & after & Hf & Hr).
  unfold replaceTag. now rewrite E, Hf.
Qed.

(** X29. Expiry leaves the badge. The page of a trending article with
    quote-free meta fields, once the expiry script has rewritten it, is
    read by the index extractor as not trending, while its body still
    shows the trending badge the generator put there. *)
Theorem expired_page_keeps_badge (a : ExtractArticles.Article) (path : string) :
  plainFields a = true ->
  ExtractArticles.isTrending a = true ->
  let page := replaceTag (tag "false") (ExtractArticles.generateArticleHTML a) in
  isTrending (metadataOf path page) = false
  /\ Str.includes trendingBadge page = true.
Proof.
  intros Hp Htr. cbv zeta. destruct (generated_body a Htr) as (rest & E & Hb).
  rewrite (rewrite_page a rest Hp E). split.
  - rewrite metadataOf_lines by now rewrite plain_cooled. reflexivity.
  - apply includes_behind, includes_lines. now apply includes_cons, includes_cons.
Qed.

Lemma expired_page_keeps_badge_witness :
  Str.includes trendingBadge
    (replaceTag (tag "false") (ExtractArticles.generateArticleHTML Samples.launch))
  = true.
Proof.
  apply (expired_page_keeps_badge Samples.launch "articles/launch-day-what-s-next.html");
    reflexivity.
Defined.

(** *** The run over the directory *)

Lemma lookup_store_same (entries : list (string * Read)) (name content : string) :
  lookup name (ValidateUrls.store name content entries) = ReadOk content.
Proof.
  induction entries as [|[n r] entries IH]; cbn [ValidateUrls.store lookup].
  - now rewrite String.eqb_refl.
  - destruct (String.eqb n name) eqn:E; cbn [lookup]; rewrite E; [reflexivity|exact IH].
Qed.

Lemma read_written (d : ValidateUrls.Disk) (f content : string) (d' : ValidateUrls.Disk) :
  ValidateUrls.writeArticle d (articlePath f) content = (d', None) ->
  ValidateUrls.readArticle d' (articlePath f) = ReadOk content.
Proof.
  unfold ValidateUrls.writeArticle. intros H.
  destruct (ValidateUrls.write_error d (articlePath f)); [discriminate H|].
  destruct (ValidateUrls.dir d) as [entries|m] eqn:E; [|discriminate H].
  injection H as <-. unfold ValidateUrls.readArticle, readFile. cbn.
  apply lookup_store_same.
Qed.

(** What one call of [updateArticleTrending] with [false] does to the
    files. *)
Lemma update_frame (d : ValidateUrls.Disk) (f : string) :
  let r := updateArticleTrending d (articlePath f) false in
  let d' := snd (fst r) in
  (forall g, g <> f ->
             ValidateUrls.readArticle d' (articlePath g)
             = ValidateUrls.readArticle d (articlePath g))
  /\ ((fst (fst r) = false
       /\ ValidateUrls.readArticle d' (articlePath f)
          = ValidateUrls.readArticle d (articlePath f))
      \/ exists c v,
           fst (fst r) = true
           /\ ValidateUrls.readArticle d (articlePath f) = ReadOk c
           /\ currentValue c = Some v /\ v <> "false"
           /\ ValidateUrls.readArticle d' (articlePath f)
              = ReadOk (replaceTag (tag "false") c)).
Proof.
  cbv zeta. unfold updateArticleTrending.
  destruct (ValidateUrls.readArticle d (articlePath f)) as [c|m] eqn:Hr;
    [|cbn [fst snd]; split; [reflexivity|left; now split]].
  destruct (currentValue c) as [v|] eqn:Hv;
    [|cbn [fst snd]; split; [reflexivity|left; now rewrite Hr]].
  destruct (String.eqb_spec v "false") as [->|Hne]; cbn [negb];
    [cbn [fst snd]; split; [reflexivity|left; now rewrite Hr]|].
  destruct (ValidateUrls.writeArticle d (articlePath f) (replaceTag (tag "false") c))
    as [d' [m|]] eqn:Hw; cbn [fst snd].
  - assert (Hd : forall p, ValidateUrls.readArticle d' p = ValidateUrls.readArticle d p).
    { unfold ValidateUrls.writeArticle in Hw.
      destruct (ValidateUrls.write_error d (articlePath f)).
      - injection Hw as <- _. reflexivity.
      - destruct (ValidateUrls.dir d) eqn:E; [discriminate Hw|].
        injection Hw as <- _. intros p. unfold ValidateUrls.readArticle, readFile. cbn.
        now rewrite E. }
    split; [intros g _; apply Hd|]. left. now rewrite Hd, Hr.
  - split.
    + intros g Hg.
      pose proof (ReconcilerFacts.writeArticle_other d f (replaceTag (tag "false") c) g Hg)
        as H.
      now rewrite Hw in H.
    + right. exists c, v. repeat split; try assumption.
      exact (read_written d f _ d' Hw).
Qed.

Section RunFrame.

Variable Date_parse : string -> option Z.
Variable clock : nat -> Z.
Variable limit : Z.

Abbreviation stepOf := (step Date_parse clock limit).
Abbreviation readOf st name := (ValidateUrls.readArticle (disk st) (articlePath name)).

Abbreviation due := (due Date_parse clock limit).

Lemma step_frame (st : Loop) (f : string) :
  let st' := stepOf st f in
  (exists p e,
      p <= 1 /\ e <= p
      /\ processedCount st' = processedCount st + p
      /\ expiredCount st' = expiredCount st + e
      /\ clockReads st' = clockReads st + p)
  /\ (forall g, g <> f -> readOf st' g = readOf st g)
  /\ (readOf st' f = readOf st f
      \/ exists c,
           readOf st f = ReadOk c /\ due (clockReads st) c
           /\ clockReads st' = S (clockReads st)
           /\ readOf st' f = ReadOk (replaceTag (tag "false") c)).
Proof.
  cbv zeta. unfold step.
  destruct (ValidateUrls.readArticle (disk st) (articlePath f)) as [c|m] eqn:Hr;
    [|cbn [disk processedCount expiredCount clockReads]; split;
      [exists 0, 0; repeat split; lia | split; [reflexivity | left; exact Hr]]].
  unfold getMetaContent.
  destruct (regex_match "article-date" c) as [[|x date]|] eqn:Hd;
    try (cbn [disk processedCount expiredCount clockReads]; split;
         [exists 0, 0; repeat split; lia | split; [reflexivity | left; exact Hr]]).
  destruct (regex_match "article-trending" c) as [w|] eqn:Ht;
    [destruct (String.eqb_spec w "true") as [->|Hw]|]; cbn [andb];
    try (cbn [disk processedCount expiredCount clockReads]; split;
         [exists 1, 0; repeat split; lia | split; [reflexivity | left; exact Hr]]).
  destruct (isTooOldForTrending (clock (clockReads st)) (Date_parse (String x date)) limit)
    eqn:Ho;
    [|cbn [disk processedCount expiredCount clockReads]; split;
      [exists 1, 0; repeat split; lia | split; [reflexivity | left; exact Hr]]].
  destruct (update_frame (disk st) f) as [Hother Hown]. cbv zeta in Hother, Hown.
  destruct (updateArticleTrending (disk st) (articlePath f) false) as [[updated d'] out].
  cbn [fst snd] in Hother, Hown. cbn [disk processedCount expiredCount clockReads].
  split; [|split; [exact Hother|]].
  - destruct updated; [exists 1, 1|exists 1, 0]; repeat split; lia.
  - destruct Hown as [[_ Hsame]|(c' & v & _ & Hc' & Hv & Hne & Hnew)].
    + left. now rewrite Hsame.
    + right. rewrite Hr in Hc'. injection Hc' as <-. exists c.
      split; [reflexivity|]. split; [|split; [reflexivity|exact Hnew]].
      unfold isTooOldForTrending in Ho.
      destruct (Date_parse (String x date)) as [t|] eqn:Hp; [|discriminate Ho].
      apply Z.ltb_lt in Ho. exists (String x date), t, v. repeat split; assumption.
Qed.

Lemma loop_frame (files : list string) :
  NoDup files ->
  forall st,
    let st' := fold_left stepOf files st in
    (exists p e,
        p <= List.length files /\ e <= p
        /\ processedCount st' = processedCount st + p
        /\ expiredCount st' = expiredCount st + e
        /\ clockReads st' = clockReads st + p)
    /\ (forall g, ~ In g files -> readOf st' g = readOf st g)
    /\ (forall f,
           readOf st' f = readOf st f
           \/ exists c n,
                In f files /\ readOf st f = ReadOk c
                /\ clockReads st <= n < clockReads st' /\ due n c
                /\ readOf st' f = ReadOk (replaceTag (tag "false") c)).
Proof.
  induction 1 as [|f files Hf Hnd IH]; intros st; cbv zeta.
  - cbn [fold_left]. split; [exists 0, 0; cbn; repeat split; lia|].
    split; [reflexivity|]. intros f. now left.
  - cbn [fold_left].
    destruct (step_frame st f) as ((p1 & e1 & Hp1 & He1 & C1 & C2 & C3) & Hother & Hown).
    cbv zeta in C1, C2, C3, Hother, Hown.
    destruct (IH (stepOf st f)) as ((p & e & Hp & He & D1 & D2 & D3) & Hout & Hin).
    cbv zeta in D1, D2, D3, Hout, Hin.
    split; [exists (p1 + p), (e1 + e); cbn [List.length]; repeat split; lia|].
    split.
    + intros g Hg. cbn [In] in Hg.
      rewrite Hout by tauto. apply Hother. intros ->. tauto.
    + intros g. destruct (string_dec g f) as [->|Hgf].
      * rewrite (Hout f Hf).
        destruct Hown as [Hsame|(c & Hc & Hdue & Hclock & Hnew)]; [now left|].
        right. exists c, (clockReads st). split; [now left|].
        split; [exact Hc|]. split; [lia|]. split; [exact Hdue|exact Hnew].
      * destruct (Hin g) as [Hsame|(c & n & Hg & Hc & Hn & Hdue & Hnew)].
        -- left. rewrite Hsame. now apply Hother.
        -- right. exists c, n. split; [now right|].
           rewrite <- (Hother g Hgf). split; [exact Hc|].
           split; [lia|]. split; [exact Hdue|exact Hnew].
Qed.

(** X27. What a run of the expiry loop may change. Over distinct file
    names, every file processed costs one reading of the clock, no more
    files are expired than processed, and a file either reads as before or
    held a page the loop found trending with the value [true], dated with
    a date that parses and lies further back than the limit at one of the
    clock readings, and carrying the trending element in the script's
    strict form with a value other than [false]; such a file then holds
    that page with the element replaced by the one for [false]. Files
    outside the list read as before. *)
Theorem only_due_pages_change (d : ValidateUrls.Disk) (out : list Console)
    (files : list string) :
  NoDup files ->
  let st := loop Date_parse clock limit d out files in
  expiredCount st <= processedCount st <= List.length files
  /\ clockReads st = processedCount st
  /\ forall f,
       let before := ValidateUrls.readArticle d (articlePath f) in
       let after := ValidateUrls.readArticle (disk st) (articlePath f) in
       after = before
       \/ exists c n,
            In f files /\ before = ReadOk c /\ n < processedCount st /\ due n c
            /\ after = ReadOk (replaceTag (tag "false") c).
Proof.
  intros Hnd. cbv zeta. unfold loop.
  destruct (loop_frame files Hnd
              {| disk := d; processedCount := 0; expiredCount := 0; clockReads := 0;
                 printed := out |}) as ((p & e & Hp & He & D1 & D2 & D3) & _ & Hin).
  cbv zeta in D1, D2, D3, Hin. cbn [disk processedCount expiredCount clockReads] in *.
  split; [lia|]. split; [lia|]. intros f.
  destruct (Hin f) as [Hsame|(c & n & Hf & Hc & Hn & Hdue & Hnew)]; [now left|].
  right. exists c, n. repeat split; try assumption. lia.
Qed.

End RunFrame.

Lemma only_due_pages_change_witness :
  let st := loop Date_parse_iso (fun _ => 1800000000000%Z) 3
              (Samples.diskOf [ExtractRun.pageOf Samples.launch]) []
              ["launch-day-what-s-next.html"] in
  expiredCount st <= processedCount st <= 1.
Proof.
  destruct (only_due_pages_change Date_parse_iso (fun _ => 1800000000000%Z) 3
              (Samples.diskOf [ExtractRun.pageOf Samples.launch]) []
              ["launch-day-what-s-next.html"]) as [H _].
  - repeat constructor. intros [].
  - exact H.
Defined.

(** *** Generation, expiry, regeneration *)

Lemma regex_generated (a : ExtractArticles.Article) (name v : string) :
  plainFields a = true ->
  lead name = true ->
  clearb (meta_open name) headPrefix = true ->
  separated name (metaFields a) = true ->
  fieldOf name (metaFields a) = Some v ->
  regex_match name (ExtractArticles.generateArticleHTML a) = Some v.
Proof.
  intros Hp Hl Hc Hs Hf. destruct (GeneratorFacts.generated_head a) as [rest E].
  rewrite E, (GeneratorFacts.skip_fixed _ _ _ Hc).
  exact (GeneratorFacts.scan_metaLines name (metaFields a) rest v Hl
           (GeneratorFacts.plain_metaFields a Hp) Hs Hf).
Qed.

Lemma lookup_behind (done rest : list (string * Read)) (name : string) :
  ~ In name (map fst done) -> lookup name (done ++ rest) = lookup name rest.
Proof.
  induction done as [|[n r] done IH]; intros H; [reflexivity|].
  cbn [map fst In app lookup] in *.
  destruct (String.eqb_spec n name) as [->|_]; [tauto|]. apply IH. tauto.
Qed.

Lemma store_behind (done rest : list (string * Read)) (name content : string) :
  ~ In name (map fst done) ->
  ValidateUrls.store name content (done ++ rest)
  = (done ++ ValidateUrls.store name content rest)%list.
Proof.
  induction done as [|[n r] done IH]; intros H; [reflexivity|].
  cbn [map fst In app ValidateUrls.store] in *.
  destruct (String.eqb_spec n name) as [->|_]; [tauto|]. rewrite IH; tauto.
Qed.

Section Pipeline.

Variable Date_parse : string -> option Z.
Variable clock : nat -> Z.
Variable limit : Z.

Abbreviation expiryOf := (expiry Date_parse clock limit).

Lemma expiry_articles (articles : list ExtractArticles.Article) (n : nat) :
  map fst (expiryOf n articles) = articles.
Proof.
  revert n. induction articles as [|a articles IH]; intros n; [reflexivity|].
  cbn [expiry]. destruct (Str.is_empty (ExtractArticles.publishDate a));
    cbn [map fst]; now rewrite IH.
Qed.

Lemma pageAfter_names (xs : list (ExtractArticles.Article * bool)) :
  map fst (map pageAfter xs) = map ExtractArticles.filenameOf (map fst xs).
Proof. rewrite !map_map. reflexivity. Qed.

(** One turn of the loop on the page of a generated article that is still
    as the generator wrote it. *)
Lemma step_generated (st : Loop) (a : ExtractArticles.Article)
    (done rest : list (string * Read)) :
  ValidateUrls.dir (disk st) = ListOk (done ++ ExtractRun.pageOf a :: rest) ->
  (forall p, ValidateUrls.write_error (disk st) p = None) ->
  ~ In (ExtractArticles.filenameOf a) (map fst done) ->
  plainFields a = true ->
  let st' := step Date_parse clock limit st (ExtractArticles.filenameOf a) in
  exists x k,
    expiryOf (clockReads st) [a] = [x]
    /\ clockReads st' = clockReads st + k
    /\ (forall articles,
           expiryOf (clockReads st) (a :: articles)
           = x :: expiryOf (clockReads st + k) articles)
    /\ ValidateUrls.dir (disk st') = ListOk (done ++ pageAfter x :: rest)
    /\ (forall p, ValidateUrls.write_error (disk st') p = None).
Proof.
  intros Hdir Hwe Hfresh Hp. cbv zeta. unfold step.
  assert (Hread : ValidateUrls.readArticle (disk st)
                    (articlePath (ExtractArticles.filenameOf a))
                  = ReadOk (ExtractArticles.generateArticleHTML a)).
  { unfold ValidateUrls.readArticle.
    rewrite (WatchFacts.articlePath_read _ (done ++ ExtractRun.pageOf a :: rest))
      by exact Hdir.
    rewrite lookup_behind by exact Hfresh.
    unfold ExtractRun.pageOf. cbn [lookup]. now rewrite String.eqb_refl. }
  rewrite Hread. unfold getMetaContent.
  rewrite (regex_generated a "article-trending"
             (ExtractArticles.showBool (ExtractArticles.isTrending a)))
    by first [assumption | vm_compute; reflexivity].
  rewrite (regex_generated a "article-date" (ExtractArticles.publishDate a))
    by first [assumption | vm_compute; reflexivity].
  cbn [expiry].
  destruct (ExtractArticles.publishDate a) as [|y date] eqn:Hdate; cbn [Str.is_empty].
  - exists (a, false), 0. cbn [disk clockReads pageAfter fst snd].
    rewrite Nat.add_0_r. repeat split; assumption.
  - replace ((ExtractArticles.showBool (ExtractArticles.isTrending a) =? "true")%string)
      with (ExtractArticles.isTrending a)
      by (destruct (ExtractArticles.isTrending a); reflexivity).
    set (old := isTooOldForTrending (clock (clockReads st))
                  (Date_parse (String y date)) limit).
    destruct (ExtractArticles.isTrending a && old) eqn:He.
    + exists (a, true), 1.
      unfold updateArticleTrending. rewrite Hread.
      destruct (rewrite_generated a Hp) as (r & _ & Hcur & _). rewrite Hcur.
      apply andb_prop in He as [Htr _]. rewrite Htr. cbn [ExtractArticles.showBool].
      change (negb ("true" =? "false")%string) with true. cbv iota.
      unfold ValidateUrls.writeArticle. rewrite Hwe, Hdir.
      cbn [disk clockReads pageAfter fst snd ValidateUrls.dir ValidateUrls.write_error].
      rewrite Nat.add_1_r. split; [reflexivity|]. split; [reflexivity|].
      split; [intros articles; reflexivity|]. split; [|exact Hwe].
      f_equal. change (Str.drop 9 (articlePath (ExtractArticles.filenameOf a)))
        with (ExtractArticles.filenameOf a).
      rewrite store_behind by exact Hfresh. f_equal.
      unfold ExtractRun.pageOf. cbn [ValidateUrls.store]. now rewrite String.eqb_refl.
    + exists (a, false), 1.
      cbn [disk clockReads pageAfter fst snd]. rewrite Nat.add_1_r.
      split; [reflexivity|]. split; [reflexivity|].
      split; [intros articles; reflexivity|]. split; [exact Hdir|exact Hwe].
Qed.

Lemma loop_generated (articles : list ExtractArticles.Article) :
  forallb plainFields articles = true ->
  forall (done : list (string * Read)) (st : Loop),
    ValidateUrls.dir (disk st) = ListOk (done ++ map ExtractRun.pageOf articles) ->
    (forall p, ValidateUrls.write_error (disk st) p = None) ->
    NoDup (map fst done ++ map ExtractArticles.filenameOf articles) ->
    ValidateUrls.dir
      (disk (fold_left (step Date_parse clock limit)
               (map ExtractArticles.filenameOf articles) st))
    = ListOk (done ++ map pageAfter (expiryOf (clockReads st) articles)).
Proof.
  induction articles as [|a articles IH]; intros Hp done st Hdir Hwe Hnd.
  - cbn [map fold_left expiry] in *. exact Hdir.
  - cbn [forallb] in Hp. apply andb_prop in Hp as [Ha Hp].
    cbn [map fold_left] in *.
    assert (Hfresh : ~ In (ExtractArticles.filenameOf a) (map fst done)).
    { intros Hin. apply NoDup_remove_2 in Hnd. apply Hnd, in_or_app. now left. }
    destruct (step_generated st a done (map ExtractRun.pageOf articles) Hdir Hwe Hfresh Ha)
      as (x & k & Hx & Hk & Hrest & Hdir' & Hwe').
    cbv zeta in Hk, Hdir', Hwe'. rewrite Hrest.
    assert (Hname : fst (pageAfter x) = ExtractArticles.filenameOf a).
    { pose proof (expiry_articles [a] (clockReads st)) as E. rewrite Hx in E.
      cbn [map] in E. injection E as E. unfold pageAfter. cbn [fst]. now rewrite E. }
    rewrite (IH Hp (done ++ [pageAfter x])%list).
    + rewrite Hk, <- app_assoc. reflexivity.
    + rewrite Hdir', <- app_assoc. reflexivity.
    + exact Hwe'.
    + rewrite map_app, <- app_assoc. cbn [map app]. now rewrite Hname.
Qed.

(** Scanning pages that read as the given records. *)
Lemma collect_as (fs : FileSystem) (entries : list (string * Read))
    (xs : list (ExtractArticles.Article * bool)) :
  articles fs = ListOk entries ->
  (forall x, In x xs ->
             exists c,
               lookup (ExtractArticles.filenameOf (fst x)) entries = ReadOk c
               /\ metadataOf (articlePath (ExtractArticles.filenameOf (fst x))) c
                  = recordAfter x
               /\ Str.is_empty (id (recordAfter x)) = false) ->
  fst (collect fs (map ExtractArticles.filenameOf (map fst xs))) = map recordAfter xs.
Proof.
  intros Hfs. induction xs as [|x xs IH]; intros H; [reflexivity|].
  cbn [map collect]. unfold extractMetadataFromHTML.
  destruct (H x (or_introl eq_refl)) as (c & Hl & Hm & Hid).
  rewrite (WatchFacts.articlePath_read _ _ _ Hfs), Hl, Hm.
  specialize (IH (fun y Hy => H y (or_intror Hy))).
  destruct (collect fs (map ExtractArticles.filenameOf (map fst xs))) as [kept out'].
  cbn [fst] in *. now rewrite Hid, IH.
Qed.

Lemma html_after (xs : list (ExtractArticles.Article * bool)) :
  htmlFilesOf (map pageAfter xs) = map ExtractArticles.filenameOf (map fst xs).
Proof.
  unfold htmlFilesOf. rewrite pageAfter_names.
  induction (map fst xs) as [|a l IH]; [reflexivity|]. cbn [map filter].
  unfold ExtractArticles.filenameOf at 1. rewrite PipelineFacts.endsWith_app.
  now rewrite IH.
Qed.

(** X28. Generation, expiry, regeneration. When the directory holds the
    generated pages of articles with an id, a title, quote-free meta fields
    and distinct file names, and files can be written, the expiry run ends
    normally and leaves every page in place, rewritten exactly for the
    dated, trending articles that are too old at their reading of the
    clock; the index regenerated afterwards holds, up to order, the record
    of every article, with the trending flag off for those and all else as
    the generator wrote it. *)
Theorem generate_expire_regenerate (config : option Z) (d : ValidateUrls.Disk)
    (articles : list ExtractArticles.Article) :
  limit = limitOf config ->
  ValidateUrls.dir d = ListOk (map ExtractRun.pageOf articles) ->
  (forall p, ValidateUrls.write_error d p = None) ->
  forallb plainFields articles = true ->
  forallb ExtractRun.usable articles = true ->
  NoDup (map ExtractArticles.filenameOf articles) ->
  let run := expireTrendingArticles Date_parse clock (ConfigOk config) d in
  let d' := fst (fst run) in
  let fs' := {| WatchArticles.articles := ValidateUrls.dir d'; index := None;
                index_write_error := None |} in
  snd run = Returns
  /\ ValidateUrls.dir d' = ListOk (map pageAfter (expiryOf 0 articles))
  /\ Permutation
       (indexRecords Date_parse fs' (map pageAfter (expiryOf 0 articles)))
       (map recordAfter (expiryOf 0 articles)).
Proof.
  intros Hlimit Hdir Hwe Hp Hu Hnd. cbv zeta.
  unfold expireTrendingArticles. rewrite Hdir, <- Hlimit. cbn [fst snd].
  rewrite ExtractRunFacts.all_html. unfold loop.
  set (st0 := {| disk := d; processedCount := 0; expiredCount := 0; clockReads := 0;
                 printed := _ |}).
  pose proof (loop_generated articles Hp [] st0 Hdir Hwe Hnd) as Hloop.
  cbn [app clockReads st0] in Hloop. fold st0.
  split; [reflexivity|]. split; [exact Hloop|].
  unfold indexRecords. rewrite html_after.
  rewrite (collect_as _ (map pageAfter (expiryOf 0 articles))).
  - apply WatchFacts.sort_perm.
  - cbn [WatchArticles.articles]. exact Hloop.
  - intros x Hx.
    assert (Ha : In (fst x) articles).
    { rewrite <- (expiry_articles articles 0). now apply in_map. }
    rewrite forallb_forall in Hp, Hu. pose proof (Hp _ Ha) as Hpa.
    pose proof (ExtractRunFacts.usable_id _ (Hu _ Ha)) as Hid.
    exists (match snd (pageAfter x) with ReadOk c => c | ReadFails m => m end).
    split; [|split].
    + rewrite (WatchFacts.lookup_own (map pageAfter (expiryOf 0 articles))
                 (ExtractArticles.filenameOf (fst x)) (snd (pageAfter x))).
      * reflexivity.
      * rewrite pageAfter_names, expiry_articles. exact Hnd.
      * now apply (in_map pageAfter) in Hx.
    + unfold recordAfter, pageAfter. cbn [snd fst]. destruct (snd x).
      * destruct (rewrite_generated (fst x) Hpa) as (r & _ & _ & Hr). rewrite Hr.
        apply metadataOf_lines. now rewrite plain_cooled.
      * now apply GeneratorFacts.metadataOf_generated.
    + unfold recordAfter. destruct (snd x); exact Hid.
Qed.

End Pipeline.

Lemma generate_expire_regenerate_witness :
  ValidateUrls.dir
    (fst (fst (expireTrendingArticles Date_parse_iso (fun _ => 1800000000000%Z)
                 (ConfigOk None) (Samples.diskOf [ExtractRun.pageOf Samples.launch]))))
  = ListOk (map pageAfter
              (expiry Date_parse_iso (fun _ => 1800000000000%Z) 3 0 [Samples.launch])).
Proof.
  apply (generate_expire_regenerate Date_parse_iso (fun _ => 1800000000000%Z) 3 None
           (Samples.diskOf [ExtractRun.pageOf Samples.launch]) [Samples.launch]);
    try reflexivity.
  repeat constructor. intros [].
Defined.

End ExpireFacts.
